(** * MicroPython OTA updater: a shallow embedding of [ota_updater.py]

    The first part of the file is the program, in the order of the source:
    - [PyStr], [Py]: the primitives of MicroPython the code uses on strings,
      bytes and decoded JSON values ([startswith], [in], [replace], [split],
      [rstrip], [int], comparison, truthiness, subscripting, iteration);
    - [Vfs]: the flash file system as a finite tree, with the [os] calls as
      partial functions;
    - [ST], [Net], [World]: state and exceptions; socket objects that record
      what was written, how far the reply was read and how often [close()]
      was called; the world of file system, mutation log and socket store;
    - [Response], [HttpClient.request], [OTAUpdater]: the three classes.
    The second part states and proves the properties.

    Modelling decisions:
    - [str] and [bytes] are both [string]: MicroPython stores a [str] as its
      UTF-8 bytes and compares bytewise; they are told apart only where the
      program adds one to the other;
    - a remote host is a function from the bytes received to the bytes sent
      back, with an optional operation index at which the connection fails;
    - [ujson] is a parameter; name resolution is part of the environment;
    - [os.ilistdir] yields the entries present when it is called;
    - a path string is resolved on its components: empty ones are ignored,
      ['.'] stays and ['..'] steps back to the parent; a listing shows
      neither of the two;
    - [Response.text] decodes the body as UTF-8 and raises on bytes that
      are not well formed;
    - the two recursive methods take a depth budget, the header loop a
      budget above the number of unread bytes;
    - [print] and [gc.collect] are left out, [using_network] is not modelled. *)

From Stdlib Require Import String Ascii List ZArith Lia Bool Arith.
From Stdlib Require Import DecimalString DecimalNat.
Import ListNotations.
Open Scope string_scope.
Open Scope list_scope.

Set Warnings "-register-all".


(* ================================================================== *)
(** ** Python string primitives *)
(* ================================================================== *)

Module PyStr.

(** [s.startswith(p)] *)
Fixpoint startswith (p s : string) : bool :=
  match p with
  | "" => true
  | String a p' =>
      match s with
      | "" => false
      | String b s' => Ascii.eqb a b && startswith p' s'
      end
  end.

(** [sub in s] *)
Fixpoint contains (sub s : string) : bool :=
  startswith sub s ||
  match s with
  | "" => false
  | String _ s' => contains sub s'
  end.

(** [c in s] for a one-character needle *)
Fixpoint has_char (c : ascii) (s : string) : bool :=
  match s with
  | "" => false
  | String a s' => Ascii.eqb a c || has_char c s'
  end.

(** Truthiness of a string: [if s:] *)
Definition truthy (s : string) : bool :=
  match s with "" => false | _ => true end.

(** [s.replace(old, new)] for a non-empty [old]: scan left to right, at a
    match emit [new] and skip the matched characters. [skip] counts the
    characters of the current match still to drop. *)
Fixpoint replace_from (skip : nat) (old new s : string) : string :=
  match s with
  | "" => ""
  | String c s' =>
      match skip with
      | S k => replace_from k old new s'
      | O =>
          if startswith old s
          then new ++ replace_from (String.length old - 1) old new s'
          else String c (replace_from 0 old new s')
      end
  end.

(** [s.replace('', new)]: [new] before every character and at the end. *)
Fixpoint interleave (new s : string) : string :=
  match s with
  | "" => new
  | String c s' => new ++ String c (interleave new s')
  end.

Definition replace (s old new : string) : string :=
  match old with
  | "" => interleave new s
  | _ => replace_from 0 old new s
  end.

(** [a > b] on strings: bytewise lexicographic order. *)
Fixpoint gt (a b : string) : bool :=
  match a, b with
  | "", _ => false
  | String _ _, "" => true
  | String x a', String y b' =>
      if (nat_of_ascii y <? nat_of_ascii x)%nat then true
      else if (nat_of_ascii x <? nat_of_ascii y)%nat then false
      else gt a' b'
  end.

(** [s.rstrip(c)] for a one-character set *)
Fixpoint rstrip_char (c : ascii) (s : string) : string :=
  match s with
  | "" => ""
  | String a s' =>
      match rstrip_char c s' with
      | "" => if Ascii.eqb a c then "" else String a ""
      | r => String a r
      end
  end.

(** The whitespace of [bytes.split(None)], [bytes.rstrip()] and [int()]:
    space, tab, LF, VT, FF, CR. *)
Definition is_space (c : ascii) : bool :=
  let n := nat_of_ascii c in
  (n =? 32)%nat || ((9 <=? n)%nat && (n <=? 13)%nat).

(** [s.rstrip()] *)
Fixpoint rstrip (s : string) : string :=
  match s with
  | "" => ""
  | String a s' =>
      match rstrip s' with
      | "" => if is_space a then "" else String a ""
      | r => String a r
      end
  end.

(** [s.lstrip()] *)
Fixpoint lstrip (s : string) : string :=
  match s with
  | "" => ""
  | String a s' => if is_space a then lstrip s' else s
  end.

(** [s.split(sep, maxsplit)] for a one-character [sep]: at most [maxsplit]
    cuts, empty pieces kept. *)
Fixpoint split_char (sep : ascii) (maxsplit : nat) (s : string) : list string :=
  match s with
  | "" => [""]
  | String c s' =>
      match maxsplit with
      | O => [s]
      | S m =>
          if Ascii.eqb c sep then "" :: split_char sep m s'
          else
            match split_char sep maxsplit s' with
            | [] => [String c ""]
            | w :: ws => String c w :: ws
            end
      end
  end.

(** One word of a whitespace split: the characters up to the next
    whitespace, and what follows. *)
Fixpoint take_word (s : string) : string * string :=
  match s with
  | "" => ("", "")
  | String c s' =>
      if is_space c then ("", s)
      else let (w, r) := take_word s' in (String c w, r)
  end.

(** [s.split(None, maxsplit)]: runs of whitespace separate the words, leading
    whitespace is dropped; after [maxsplit] cuts the remainder is kept as it
    is (leading whitespace dropped). [fuel] bounds the number of words. *)
Fixpoint split_ws_aux (fuel maxsplit : nat) (s : string) : list string :=
  match fuel with
  | O => []
  | S f =>
      match lstrip s with
      | "" => []
      | t =>
          match maxsplit with
          | O => [t]
          | S m => let (w, r) := take_word t in w :: split_ws_aux f m r
          end
      end
  end.

Definition split_ws (maxsplit : nat) (s : string) : list string :=
  split_ws_aux (S (String.length s)) maxsplit s.

Definition is_digit (c : ascii) : bool :=
  let n := nat_of_ascii c in (48 <=? n)%nat && (n <=? 57)%nat.

(** The digits of a decimal literal: one or more digits, with single
    underscores allowed between two digits (['80_80'] is 8080; ['_80'],
    ['80_'] and ['8__0'] are not literals). [after_digit] tells whether the
    character before was a digit. *)
Fixpoint digits_value (acc : Z) (after_digit : bool) (s : string) : option Z :=
  match s with
  | "" => if after_digit then Some acc else None
  | String c s' =>
      if is_digit c
      then digits_value (10 * acc + Z.of_nat (nat_of_ascii c - 48)) true s'
      else if Ascii.eqb c "_" && after_digit
      then digits_value acc false s'
      else None
  end.

(** [int(s)]: surrounding whitespace, an optional sign, then a decimal
    literal; [None] stands for [ValueError]. *)
Definition int_of (s : string) : option Z :=
  match rstrip (lstrip s) with
  | "" => None
  | String c r =>
      if Ascii.eqb c "-" then option_map Z.opp (digits_value 0 false r)
      else if Ascii.eqb c "+" then digits_value 0 false r
      else digits_value 0 false (String c r)
  end.

(** Well-formed UTF-8, which [str(b, 'utf-8')] demands of [b]: a byte below
    128; a lead byte 0xC2-0xDF, 0xE0-0xEF or 0xF0-0xF4 followed by one, two
    or three continuation bytes 0x80-0xBF, the first of them narrowed after
    0xE0, 0xED, 0xF0 and 0xF4 so that no code point is encoded too long, is a
    surrogate or lies above U+10FFFF.  [need] counts the continuation bytes
    still due, [lo] and [hi] bound the next one. *)
Fixpoint utf8_from (need lo hi : nat) (s : string) : bool :=
  match s with
  | "" => (need =? 0)%nat
  | String c s' =>
      let n := nat_of_ascii c in
      match need with
      | S k => (lo <=? n)%nat && (n <=? hi)%nat && utf8_from k 128 191 s'
      | O =>
          if (n <=? 127)%nat then utf8_from 0 128 191 s'
          else if (194 <=? n)%nat && (n <=? 223)%nat then utf8_from 1 128 191 s'
          else if (n =? 224)%nat then utf8_from 2 160 191 s'
          else if (n =? 237)%nat then utf8_from 2 128 159 s'
          else if (225 <=? n)%nat && (n <=? 239)%nat then utf8_from 2 128 191 s'
          else if (n =? 240)%nat then utf8_from 3 144 191 s'
          else if (n =? 244)%nat then utf8_from 3 128 143 s'
          else if (241 <=? n)%nat && (n <=? 243)%nat then utf8_from 3 128 191 s'
          else false
      end
  end.

Definition utf8_valid (s : string) : bool := utf8_from 0 128 191 s.

(** [b'%d' % n] for a length *)
Definition of_nat (n : nat) : string := NilZero.string_of_uint (Nat.to_uint n).

End PyStr.


(* ================================================================== *)
(** ** Exceptions and Python values *)
(* ================================================================== *)

(** The exception classes the code can raise. [Exhausted] is raised by
    the model when a recursion-depth or iteration budget is used up. *)
Inductive exn : Set :=
| OSError | ValueError | NotImplementedError | TypeError | KeyError
| IndexError | NameError | AssertionError | AttributeError | UnicodeError
| Exhausted.

Definition exn_eqb (a b : exn) : bool :=
  match a, b with
  | OSError, OSError | ValueError, ValueError
  | NotImplementedError, NotImplementedError | TypeError, TypeError
  | KeyError, KeyError | IndexError, IndexError | NameError, NameError
  | AssertionError, AssertionError | AttributeError, AttributeError
  | UnicodeError, UnicodeError | Exhausted, Exhausted => true
  | _, _ => false
  end.

Definition result (A : Type) : Type := (exn + A)%type.

(** What [ujson.loads] returns: [None], [bool], [int], [str], [list],
    [dict] (a [dict] as its items, keys unique). *)
Inductive json : Type :=
| JNull
| JBool (b : bool)
| JNum (z : Z)
| JStr (s : string)
| JArr (xs : list json)
| JObj (kvs : list (string * json)).

Module Py.

(** A value that is either [str] or [bytes]; only [+] tells them apart. *)
Inductive strlike : Type := Str (s : string) | Bytes (s : string).

(** [a + b]: MicroPython has no implicit conversion between the two types,
    [str + bytes] and [bytes + str] raise [TypeError]. *)
Definition add (a b : strlike) : result strlike :=
  match a, b with
  | Str x, Str y => inr (Str (x ++ y))
  | Bytes x, Bytes y => inr (Bytes (x ++ y))
  | _, _ => inl TypeError
  end.

Fixpoint assoc {A : Type} (k : string) (kvs : list (string * A)) : option A :=
  match kvs with
  | [] => None
  | (k', v) :: r => if String.eqb k' k then Some v else assoc k r
  end.

(** [k in d] for a dict given by its items *)
Definition has_key {A : Type} (k : string) (kvs : list (string * A)) : bool :=
  match assoc k kvs with Some _ => true | None => false end.

Fixpoint mem (k : string) (l : list string) : bool :=
  match l with
  | [] => false
  | x :: r => String.eqb x k || mem k r
  end.

(** Truthiness: [not v] is [negb (truthy v)]. *)
Definition truthy (v : json) : bool :=
  match v with
  | JNull => false
  | JBool b => b
  | JNum z => negb (Z.eqb z 0)
  | JStr s => PyStr.truthy s
  | JArr xs => match xs with [] => false | _ => true end
  | JObj kvs => match kvs with [] => false | _ => true end
  end.

(** [v == s] for a str literal [s] *)
Definition eq_str (v : json) (s : string) : bool :=
  match v with JStr t => String.eqb t s | _ => false end.

(** [k in v] for a str [k]: key of a dict, element of a list, substring of a
    str; [TypeError] otherwise. *)
Definition contains (k : string) (v : json) : result bool :=
  match v with
  | JObj kvs => inr (has_key k kvs)
  | JArr xs => inr (existsb (fun x => eq_str x k) xs)
  | JStr s => inr (PyStr.contains k s)
  | _ => inl TypeError
  end.

(** [v[k]] for a str [k] *)
Definition subscript (v : json) (k : string) : result json :=
  match v with
  | JObj kvs => match assoc k kvs with Some x => inr x | None => inl KeyError end
  | _ => inl TypeError
  end.

Fixpoint chars (s : string) : list json :=
  match s with
  | "" => []
  | String c s' => JStr (String c "") :: chars s'
  end.

(** [for x in v]: the elements of a list, the keys of a dict, the characters
    of a str; [TypeError] otherwise. *)
Definition iter (v : json) : result (list json) :=
  match v with
  | JArr xs => inr xs
  | JObj kvs => inr (map (fun kv => JStr (fst kv)) kvs)
  | JStr s => inr (chars s)
  | _ => inl TypeError
  end.

(** A value used where only a str works ([.replace], [str + v], [write]):
    [e] is what Python raises for the other types. *)
Definition as_str (e : exn) (v : json) : result string :=
  match v with JStr s => inr s | _ => inl e end.

End Py.

(* ================================================================== *)
(** ** The file system *)
(* ================================================================== *)

Module Vfs.

(** A file with its content, or a directory with its entries in listing
    order. *)
Inductive node : Type :=
| File (data : string)
| Dir (entries : list (string * node)).

Definition path := list string.

(** The pieces of a path string between its slashes, empty ones included. *)
Fixpoint pieces (s : string) : list string :=
  match s with
  | "" => [""]
  | String c s' =>
      if Ascii.eqb c "/" then "" :: pieces s'
      else
        match pieces s' with
        | [] => [String c ""]
        | w :: ws => String c w :: ws
        end
  end.

(** The components of a path string: its non-empty pieces, so that
    ['a//b'], ['a/b/'] and ['/a/b'] have the same components. *)
Definition components (s : string) : list string :=
  filter PyStr.truthy (pieces s).

(** Resolution of ['.'] and ['..'], left to right from the path [base]
    reached so far: ['.'] stays, ['..'] steps back to the parent (the root
    is its own parent), any other component steps down. *)
Fixpoint resolve (base : path) (cs : list string) : path :=
  match cs with
  | [] => base
  | c :: r =>
      if String.eqb c "." then resolve base r
      else if String.eqb c ".." then resolve (removelast base) r
      else resolve (base ++ [c]) r
  end.

(** Path resolution.  [''] names the root, which is also the working
    directory; ['next/sub/../.version'] names what ['next/.version'] names
    and ['next/../boot.py'] what ['boot.py'] names.  The components are
    resolved on the string, which is how littlefs, the flash file system of
    the MicroPython ports, looks a path up; a file system that steps
    through the directories instead reaches the same object whenever each
    directory it steps back out of exists. *)
Definition split_path (s : string) : path := resolve [] (components s).

(** A component other than ['.'] and ['..']. *)
Definition is_dot (c : string) : bool := String.eqb c "." || String.eqb c "..".

(** A path string without ['.'] and ['..'] components. *)
Definition plain (s : string) : bool :=
  forallb (fun c => negb (is_dot c)) (components s).

(** The names a directory entry can have: not empty, no slash, and neither
    ['.'] nor ['..'], which every directory reserves for itself and its
    parent. *)
Definition valid_name (s : string) : bool :=
  PyStr.truthy s && negb (PyStr.has_char "/" s) && negb (is_dot s).

Fixpoint find (name : string) (es : list (string * node)) : option node :=
  match es with
  | [] => None
  | (k, m) :: r => if String.eqb k name then Some m else find name r
  end.

Fixpoint lookup (p : path) (n : node) : option node :=
  match p with
  | [] => Some n
  | c :: p' =>
      match n with
      | File _ => None
      | Dir es =>
          match find c es with
          | Some m => lookup p' m
          | None => None
          end
      end
  end.

(** Replace the entry [name] where it stands, or add it at the end. *)
Fixpoint put (name : string) (v : node) (es : list (string * node))
  : list (string * node) :=
  match es with
  | [] => [(name, v)]
  | (k, m) :: r =>
      if String.eqb k name then (name, v) :: r else (k, m) :: put name v r
  end.

Fixpoint del (name : string) (es : list (string * node))
  : list (string * node) :=
  match es with
  | [] => []
  | (k, m) :: r =>
      if String.eqb k name then del name r else (k, m) :: del name r
  end.

(** Set ([Some v]) or delete ([None]) the entry at a non-root path whose
    parent is an existing directory. *)
Fixpoint set_at (p : path) (v : option node) (n : node) : option node :=
  match p with
  | [] => None
  | c :: p' =>
      match n with
      | File _ => None
      | Dir es =>
          match p' with
          | [] =>
              Some (Dir (match v with
                         | Some m => put c m es
                         | None => del c es
                         end))
          | _ :: _ =>
              match find c es with
              | Some m =>
                  match set_at p' v m with
                  | Some m' => Some (Dir (put c m' es))
                  | None => None
                  end
              | None => None
              end
          end
      end
  end.

Fixpoint nodupb (l : list string) : bool :=
  match l with
  | [] => true
  | x :: r => negb (Py.mem x r) && nodupb r
  end.

(** Well-formed trees: in every directory the names are valid and distinct. *)
Fixpoint wf (n : node) : bool :=
  match n with
  | File _ => true
  | Dir es =>
      nodupb (map fst es) && forallb valid_name (map fst es) &&
      (fix all (l : list (string * node)) : bool :=
         match l with
         | [] => true
         | (_, m) :: r => wf m && all r
         end) es
  end.

(** Nesting depth: 0 for a file, 1 for an empty directory. *)
Fixpoint depth (n : node) : nat :=
  match n with
  | File _ => 0
  | Dir es =>
      S ((fix mx (l : list (string * node)) : nat :=
            match l with
            | [] => 0
            | (_, m) :: r => Nat.max (depth m) (mx r)
            end) es)
  end.

(** [st_mode] type bits of [os.ilistdir] entries *)
Definition S_IFDIR : Z := 16384.   (* 0x4000 *)
Definition S_IFREG : Z := 32768.   (* 0x8000 *)

Definition mode_of (n : node) : Z :=
  match n with File _ => S_IFREG | Dir _ => S_IFDIR end.

(** *** The [os] calls as partial functions on the tree; [None] is
    [OSError]. *)

Definition stat (p : string) (fs : node) : option node :=
  lookup (split_path p) fs.

(** The entries a listing shows: those with a name a path can have; ['.']
    and ['..'] are never listed. *)
Definition listed (es : list (string * node)) : list (string * node) :=
  filter (fun e => valid_name (fst e)) es.

Definition listdir (p : string) (fs : node) : option (list string) :=
  match lookup (split_path p) fs with
  | Some (Dir es) => Some (map fst (listed es))
  | _ => None
  end.

Definition ilistdir (p : string) (fs : node) : option (list (string * Z)) :=
  match lookup (split_path p) fs with
  | Some (Dir es) => Some (map (fun e => (fst e, mode_of (snd e))) (listed es))
  | _ => None
  end.

(** [os.mkdir]: the path must be new and its parent a directory. *)
Definition mkdir (p : string) (fs : node) : option node :=
  match lookup (split_path p) fs with
  | Some _ => None
  | None => set_at (split_path p) (Some (Dir [])) fs
  end.

(** [os.remove]: a file. *)
Definition remove (p : string) (fs : node) : option node :=
  match lookup (split_path p) fs with
  | Some (File _) => set_at (split_path p) None fs
  | _ => None
  end.

(** [os.rmdir]: an empty directory. *)
Definition rmdir (p : string) (fs : node) : option node :=
  match lookup (split_path p) fs with
  | Some (Dir []) => set_at (split_path p) None fs
  | _ => None
  end.

(** [os.rename]: the source is unlinked and linked at the destination; an
    existing file there is replaced, an existing directory is an error. *)
Definition rename (src dst : string) (fs : node) : option node :=
  match lookup (split_path src) fs with
  | None => None
  | Some n =>
      match set_at (split_path src) None fs with
      | None => None
      | Some fs1 =>
          match lookup (split_path dst) fs1 with
          | Some (Dir _) => None
          | _ => set_at (split_path dst) (Some n) fs1
          end
      end
  end.

(** [open(p, 'w')]: create the file or truncate it. *)
Definition create (p : string) (fs : node) : option node :=
  match lookup (split_path p) fs with
  | Some (Dir _) => None
  | _ => set_at (split_path p) (Some (File "")) fs
  end.

(** [f.write(data)] on a file opened at [p]: append. *)
Definition append (p data : string) (fs : node) : option node :=
  match lookup (split_path p) fs with
  | Some (File old) => set_at (split_path p) (Some (File (old ++ data))) fs
  | _ => None
  end.

(** [open(p).read()] *)
Definition read_file (p : string) (fs : node) : option string :=
  match lookup (split_path p) fs with
  | Some (File d) => Some d
  | _ => None
  end.

(** [p] is a prefix of [q]: [q] names [p] or something below it. *)
Fixpoint is_prefix (p q : path) : bool :=
  match p, q with
  | [], _ => true
  | _ :: _, [] => false
  | a :: p', b :: q' => String.eqb a b && is_prefix p' q'
  end.

End Vfs.


(* ================================================================== *)
(** ** State and exceptions *)
(* ================================================================== *)

(** A computation over a state [S] that returns or raises. *)
Definition ST (S A : Type) : Type := S -> result A * S.

Definition ret {S A : Type} (a : A) : ST S A := fun w => (inr a, w).
Definition raise {S A : Type} (e : exn) : ST S A := fun w => (inl e, w).
Definition bind {S A B : Type} (c : ST S A) (k : A -> ST S B) : ST S B :=
  fun w =>
    match c w with
    | (inr a, w') => k a w'
    | (inl e, w') => (inl e, w')
    end.

Declare Scope py_scope.
Delimit Scope py_scope with py.
Notation "x <- c ;; k" := (bind c (fun x => k))
  (at level 61, c at next level, right associativity) : py_scope.
Notation "' pat <- c ;; k" := (bind c (fun x => match x with pat => k end))
  (at level 61, pat pattern, c at next level, right associativity) : py_scope.
Notation "c ;; k" := (bind c (fun _ => k))
  (at level 61, right associativity) : py_scope.
Open Scope py_scope.

Definition lift {S A : Type} (r : result A) : ST S A := fun w => (r, w).

(** [try: c  except OSError: h] *)
Definition try_except_OSError {S A : Type} (c h : ST S A) : ST S A :=
  fun w =>
    match c w with
    | (inl OSError, w') => h w'
    | other => other
    end.

(** [if b: c] *)
Definition when {S : Type} (b : bool) (c : ST S unit) : ST S unit :=
  if b then c else ret tt.

(** [for x in xs: body] *)
Fixpoint for_each {S A : Type} (xs : list A) (body : A -> ST S unit)
  : ST S unit :=
  match xs with
  | [] => ret tt
  | x :: r => body x ;; for_each r body
  end.

(* ================================================================== *)
(** ** Sockets *)
(* ================================================================== *)

Definition LF : string := String "010" "".
Definition CRLF : string := String "013" (String "010" "").

(** What the peer of a connection does: the byte stream it sends back, as a
    function of the bytes it received, and the index of the socket operation
    (if any) at which the connection fails with [OSError]. *)
Record plan : Type := mk_plan {
  respond : string -> string;
  fault_at : option nat
}.

(** A socket object. The counters are observations: [s_ops] counts the calls
    that do I/O, [s_reads] the calls to [read()], [s_closed] the calls to
    [close()]. *)
Record sock : Type := mk_sock {
  s_plan : plan;
  s_written : list string;      (* the arguments of write(), in order *)
  s_rpos : nat;                 (* bytes of the reply consumed so far *)
  s_ops : nat;
  s_reads : nat;
  s_closed : nat;
  s_tls : bool;
  s_timeout : option Z
}.

(** The methods of a socket, as computations over the socket object. *)
Module Net.

Fixpoint drop (n : nat) (s : string) : string :=
  match n, s with
  | O, _ => s
  | S k, "" => ""
  | S k, String _ s' => drop k s'
  end.

(** Up to and including the first LF. *)
Fixpoint take_line (s : string) : string :=
  match s with
  | "" => ""
  | String c s' =>
      if Ascii.eqb c "010" then String c "" else String c (take_line s')
  end.

(** The reply to what was written so far, and its unread part. *)
Definition incoming (s : sock) : string :=
  respond (s_plan s) (String.concat "" (s_written s)).
Definition pending (s : sock) : string := drop (s_rpos s) (incoming s).

Definition fresh (pl : plan) : sock := mk_sock pl [] 0 0 0 0 false None.

Definition bump (s : sock) : sock :=
  mk_sock (s_plan s) (s_written s) (s_rpos s) (S (s_ops s)) (s_reads s)
          (s_closed s) (s_tls s) (s_timeout s).

(** Does the next I/O call fail?  On a closed socket, or at the planned
    fault. *)
Definition faulty (s : sock) : bool :=
  (0 <? s_closed s)%nat ||
  match fault_at (s_plan s) with
  | Some k => (k =? s_ops s)%nat
  | None => false
  end.

(** An I/O call: counted, and failing with [OSError] when [faulty]. *)
Definition io {A : Type} (f : sock -> A * sock) : ST sock A :=
  fun s =>
    if faulty s then (inl OSError, bump s)
    else let (a, s') := f (bump s) in (inr a, s').

Definition settimeout (t : Z) : ST sock unit :=
  io (fun s =>
    (tt, mk_sock (s_plan s) (s_written s) (s_rpos s) (s_ops s) (s_reads s)
                 (s_closed s) (s_tls s) (Some t))).

Definition connect : ST sock unit := io (fun s => (tt, s)).

(** [ussl.wrap_socket(s)]: the wrapper is the socket object itself. *)
Definition wrap_socket : ST sock unit :=
  io (fun s =>
    (tt, mk_sock (s_plan s) (s_written s) (s_rpos s) (s_ops s) (s_reads s)
                 (s_closed s) true (s_timeout s))).

Definition write (data : string) : ST sock unit :=
  io (fun s =>
    (tt, mk_sock (s_plan s) (s_written s ++ [data]) (s_rpos s) (s_ops s)
                 (s_reads s) (s_closed s) (s_tls s) (s_timeout s))).

Definition readline : ST sock string :=
  io (fun s =>
    let l := take_line (pending s) in
    (l, mk_sock (s_plan s) (s_written s) (s_rpos s + String.length l)
                (s_ops s) (s_reads s) (s_closed s) (s_tls s) (s_timeout s))).

Definition read : ST sock string :=
  io (fun s =>
    let d := pending s in
    (d, mk_sock (s_plan s) (s_written s) (s_rpos s + String.length d)
                (s_ops s) (S (s_reads s)) (s_closed s) (s_tls s) (s_timeout s))).

Definition close : ST sock unit :=
  fun s =>
    (inr tt, mk_sock (s_plan s) (s_written s) (s_rpos s) (s_ops s) (s_reads s)
                     (S (s_closed s)) (s_tls s) (s_timeout s)).

(** Not a call of the program: the number of unread bytes, which bounds the
    iterations of the header loop. *)
Definition unread : ST sock nat :=
  fun s => (inr (String.length (pending s)), s).

End Net.

(* ================================================================== *)
(** ** The world *)
(* ================================================================== *)

(** The collaborators outside the program: name resolution and the remote
    hosts, and the [ujson] codec ([None] from [ujson_loads] is
    [ValueError]). *)
Record Env : Type := mk_env {
  server : string -> Z -> option plan;
  ujson_loads : string -> option json;
  ujson_dumps : json -> string
}.

(** File-system mutations, as logged. *)
Inductive fsop : Type :=
| OpMkdir (p : string)
| OpOpenW (p : string)
| OpWrite (p : string) (data : string)
| OpRemove (p : string)
| OpRmdir (p : string)
| OpRename (src dst : string).

Definition op_path (o : fsop) : string :=
  match o with
  | OpMkdir p | OpOpenW p | OpWrite p _ | OpRemove p | OpRmdir p => p
  | OpRename _ dst => dst
  end.

(** What a logged mutation does to the file system. *)
Definition apply_op (o : fsop) : Vfs.node -> option Vfs.node :=
  match o with
  | OpMkdir p => Vfs.mkdir p
  | OpOpenW p => Vfs.create p
  | OpWrite p data => Vfs.append p data
  | OpRemove p => Vfs.remove p
  | OpRmdir p => Vfs.rmdir p
  | OpRename src dst => Vfs.rename src dst
  end.

(** [trace] holds every mutation with the file system it produced: the
    states in which a power loss can leave the flash. [socks] is the store of
    socket objects, a socket's identity being its index. *)
Record World : Type := mk_world {
  fs : Vfs.node;
  trace : list (fsop * Vfs.node);
  socks : list sock
}.

Definition M (A : Type) : Type := ST World A.

(** *** [os] and files *)

Definition fs_get {A : Type} (f : Vfs.node -> option A) : M A :=
  fun w =>
    match f (fs w) with
    | Some a => (inr a, w)
    | None => (inl OSError, w)
    end.

Definition fs_do (op : fsop) : M unit :=
  fun w =>
    match apply_op op (fs w) with
    | Some n => (inr tt, mk_world n (trace w ++ [(op, n)]) (socks w))
    | None => (inl OSError, w)
    end.

Definition os_stat (p : string) : M Vfs.node := fs_get (Vfs.stat p).
Definition os_listdir (p : string) : M (list string) := fs_get (Vfs.listdir p).
Definition os_ilistdir (p : string) : M (list (string * Z)) :=
  fs_get (Vfs.ilistdir p).
Definition os_mkdir (p : string) : M unit := fs_do (OpMkdir p).
Definition os_remove (p : string) : M unit := fs_do (OpRemove p).
Definition os_rmdir (p : string) : M unit := fs_do (OpRmdir p).
Definition os_rename (src dst : string) : M unit := fs_do (OpRename src dst).

(** [open(p, 'w')]; the file object is the path it was opened at. *)
Definition open_w (p : string) : M string := fs_do (OpOpenW p) ;; ret p.
Definition file_write (f data : string) : M unit := fs_do (OpWrite f data).
(** [f = open(p); v = f.read(); f.close()] *)
Definition open_read (p : string) : M string := fs_get (Vfs.read_file p).

(** *** The socket store *)

Fixpoint set_nth {A : Type} (i : nat) (x : A) (l : list A) : list A :=
  match l, i with
  | [], _ => []
  | _ :: r, O => x :: r
  | y :: r, S j => y :: set_nth j x r
  end.

(** Run socket code on the socket object [id]. *)
Definition on_sock {A : Type} (id : nat) (c : ST sock A) : M A :=
  fun w =>
    match nth_error (socks w) id with
    | None => (inl OSError, w)
    | Some s =>
        let (r, s') := c s in
        (r, mk_world (fs w) (trace w) (set_nth id s' (socks w)))
    end.

(** [usocket.getaddrinfo]: [OSError] for a name that does not resolve. *)
Definition getaddrinfo (env : Env) (host : string) (port : Z) : M plan :=
  match server env host port with
  | Some pl => ret pl
  | None => raise OSError
  end.

(** [usocket.socket(...)]: a new socket object in the store. *)
Definition socket (pl : plan) : M nat :=
  fun w => (inr (List.length (socks w)),
            mk_world (fs w) (trace w) (socks w ++ [Net.fresh pl])).

(* ================================================================== *)
(** ** class Response *)
(* ================================================================== *)

(** [raw] is the socket object or [None]; [_cached] the body or [None].
    [status_code] and [reason] are set by [request]. *)
Record Response : Type := mk_response {
  raw : option nat;
  cached : option string;
  status_code : Z;
  reason : string
}.

(** A method of a [Response]: it may update the object, also when it
    raises. *)
Definition method (A : Type) : Type :=
  Response -> World -> result A * Response * World.

(** Call a method where the object is not used again if it raises. *)
Definition call {A : Type} (m : method A) (r : Response) : M (A * Response) :=
  fun w =>
    match m r w with
    | (inr a, r', w') => (inr (a, r'), w')
    | (inl e, _, w') => (inl e, w')
    end.

(** [Response.close] *)
Definition Response_close : method unit :=
  fun r w =>
    match raw r with
    | Some s =>
        let (x, w') := on_sock s Net.close w in
        match x with
        | inr _ => (inr tt, mk_response None None (status_code r) (reason r), w')
        | inl e => (inl e, r, w')
        end
    | None => (inr tt, mk_response (raw r) None (status_code r) (reason r), w)
    end.

(** [Response.content]; reading from [None] and closing [None] both raise
    [AttributeError]. *)
Definition content : method string :=
  fun r w =>
    match cached r with
    | Some c => (inr c, r, w)
    | None =>
        match raw r with
        | None => (inl AttributeError, r, w)
        | Some s =>
            let (x, w1) := on_sock s Net.read w in
            (* finally: self.raw.close(); self.raw = None *)
            let (y, w2) := on_sock s Net.close w1 in
            match y with
            | inl e => (inl e, r, w2)
            | inr _ =>
                match x with
                | inr c =>
                    (inr c, mk_response None (Some c) (status_code r) (reason r), w2)
                | inl e =>
                    (inl e, mk_response None (cached r) (status_code r) (reason r), w2)
                end
            end
        end
    end.

(** [Response.text]: [str(self.content, 'utf-8')] raises [UnicodeError] when
    the body is not well-formed UTF-8; the [str] it returns otherwise has
    the bytes of the body. *)
Definition text : method string :=
  fun r w =>
    match content r w with
    | (inr c, r', w') =>
        if PyStr.utf8_valid c then (inr c, r', w')
        else (inl UnicodeError, r', w')
    | (inl e, r', w') => (inl e, r', w')
    end.

(** [Response.json] *)
Definition Response_json (env : Env) : method json :=
  fun r w =>
    match content r w with
    | (inr c, r', w') =>
        match ujson_loads env c with
        | Some j => (inr j, r', w')
        | None => (inl ValueError, r', w')
        end
    | (inl e, r', w') => (inl e, r', w')
    end.

(* ================================================================== *)
(** ** class HttpClient *)
(* ================================================================== *)

(** Lines 227-242: protocol, host, port and path of the URL. *)
Definition parse_url (url : string) : result (string * string * Z * string) :=
  match
    match PyStr.split_char "/" 3 url with
    | [proto; _; host; path] => inr (proto, host, path)
    | _ =>
        match PyStr.split_char "/" 2 url with
        | [proto; _; host] => inr (proto, host, "")
        | _ => inl ValueError
        end
    end
  with
  | inl e => inl e
  | inr (proto, host, path) =>
      match (if String.eqb proto "http:" then Some 80%Z
             else if String.eqb proto "https:" then Some 443%Z
             else None) with
      | None => inl ValueError
      | Some port =>
          if PyStr.has_char ":" host then
            match PyStr.split_char ":" 1 host with
            | [h; p] =>
                match PyStr.int_of p with
                | Some n => inr (proto, h, n, path)
                | None => inl ValueError
                end
            | _ => inl ValueError
            end
          else inr (proto, host, port, path)
      end
  end.

(** Lines 258-262 *)
Definition write_headers (headers : list (string * string)) : ST sock unit :=
  for_each headers (fun kv =>
    Net.write (fst kv) ;;
    Net.write ": " ;;
    Net.write (snd kv) ;;
    Net.write CRLF).

(** Lines 254-277: the request as written to the socket.  [data] is [None]
    or a str/bytes value. *)
Definition send_request (env : Env) (method_ host path : string)
    (data : option string) (json_ : option json)
    (headers : list (string * string)) : ST sock unit :=
  Net.write (method_ ++ " /" ++ path ++ " HTTP/1.0" ++ CRLF) ;;
  when (negb (Py.has_key "Host" headers))
       (Net.write ("Host: " ++ host ++ CRLF)) ;;
  write_headers headers ;;
  Net.write "User-Agent" ;;
  Net.write ": " ;;
  Net.write "MicroPython OTAUpdater" ;;
  Net.write CRLF ;;
  data <- match json_ with
          | Some j =>
              match data with
              | Some _ => raise AssertionError
              | None =>
                  Net.write ("Content-Type: application/json" ++ CRLF) ;;
                  ret (Some (ujson_dumps env j))
              end
          | None => ret data
          end ;;
  let has_data := match data with Some d => PyStr.truthy d | None => false end in
  let body := match data with Some d => d | None => "" end in
  when has_data
       (Net.write ("Content-Length: " ++ PyStr.of_nat (String.length body) ++ CRLF)) ;;
  Net.write CRLF ;;
  when has_data (Net.write body).

(** Lines 279-285: the status line. *)
Definition parse_status (l : string) : result (Z * string) :=
  match PyStr.split_ws 2 l with
  | _ :: code :: more =>
      match PyStr.int_of code with
      | Some status =>
          inr (status, match more with r :: _ => PyStr.rstrip r | [] => "" end)
      | None => inl ValueError
      end
  | _ => inl IndexError
  end.

(** Lines 291-295: one header line [l] (bytes). *)
Definition check_header (status : Z) (l : string) : result unit :=
  if PyStr.startswith "Transfer-Encoding:" l then
    if PyStr.contains "chunked" l then
      (* raise ValueError('Unsupported ' + l): the argument is evaluated
         first, and [l] is bytes *)
      match Py.add (Py.Str "Unsupported ") (Py.Bytes l) with
      | inr _ => inl ValueError
      | inl e => inl e
      end
    else inr tt
  else if PyStr.startswith "Location:" l
          && negb ((200 <=? status)%Z && (status <=? 299)%Z)
  then inl NotImplementedError
  else inr tt.

(** Lines 286-295: [while True]; every round reads at least one byte, so
    [fuel] above the number of unread bytes is never used up. *)
Fixpoint read_headers (fuel : nat) (status : Z) : ST sock unit :=
  match fuel with
  | O => raise Exhausted
  | S f =>
      l <- Net.readline ;;
      if negb (PyStr.truthy l) || String.eqb l CRLF then ret tt
      else lift (check_header status l) ;; read_headers f status
  end.

(** Lines 279-295 *)
Definition read_response : ST sock (Z * string) :=
  l <- Net.readline ;;
  ' (status, reason) <- lift (parse_status l) ;;
  n <- Net.unread ;;
  read_headers (S n) status ;;
  ret (status, reason).

(** Lines 250-295, the body of the [try]: all of it acts on the socket. *)
Definition exchange (env : Env) (proto method_ host path : string)
    (data : option string) (json_ : option json)
    (headers : list (string * string)) : ST sock (Z * string) :=
  Net.settimeout 5 ;;
  Net.connect ;;
  when (String.eqb proto "https:") Net.wrap_socket ;;
  send_request env method_ host path data json_ headers ;;
  read_response.

(** [HttpClient.request] *)
Definition request (env : Env) (method_ url : string) (data : option string)
    (json_ : option json) (headers : list (string * string)) : M Response :=
  ' (proto, host, port, path) <- lift (parse_url url) ;;
  ai <- getaddrinfo env host port ;;
  s <- socket ai ;;
  ' (status, reason) <-
    try_except_OSError
      (on_sock s (exchange env proto method_ host path data json_ headers))
      (on_sock s Net.close ;; raise OSError) ;;
  ret (mk_response (Some s) None status reason).

(** [HttpClient.get(url)] *)
Definition get (env : Env) (url : string) : M Response :=
  request env "GET" url None None [].

(* ================================================================== *)
(** ** class OTAUpdater *)
(* ================================================================== *)

Record OTAUpdater : Type := mk_updater {
  github_repo : string;
  main_dir : string;
  module_ : string
}.

(** [OTAUpdater.__init__] *)
Definition OTAUpdater_init (github_repo module_ main_dir : string) : OTAUpdater :=
  mk_updater
    (PyStr.replace (PyStr.rstrip_char "/" github_repo)
                   "https://github.com" "https://api.github.com/repos")
    main_dir
    (PyStr.rstrip_char "/" module_).

Section Updater.

Variable env : Env.
Variable self : OTAUpdater.

(** [get_module_and_path] *)
Definition get_module_and_path (path : string) : string :=
  if PyStr.truthy (module_ self) then module_ self ++ "/" ++ path else path.

(** [path_exists] *)
Definition path_exists (path : string) : M bool :=
  try_except_OSError (os_stat path ;; ret true) (ret false).

(** [rmtree]; [fuel] bounds the recursion depth. *)
Fixpoint rmtree (fuel : nat) (directory : string) : M unit :=
  match fuel with
  | O => raise Exhausted
  | S f =>
      entries <- os_ilistdir directory ;;
      for_each entries (fun entry =>
        let is_dir := Z.eqb (snd entry) 16384 (* 0x4000 *) in
        if is_dir then rmtree f (directory ++ "/" ++ fst entry)
        else os_remove (directory ++ "/" ++ fst entry)) ;;
      os_rmdir directory
  end.

(** [get_version], with the default [version_file_name]; [None] is Python's
    [None]. *)
Definition get_version (directory : string) : M (option string) :=
  e <- path_exists directory ;;
  b <- (if e then l <- os_listdir directory ;; ret (Py.mem ".version" l)
        else ret false) ;;
  if b then
    version <- open_read (directory ++ "/" ++ ".version") ;;
    ret (Some version)
  else ret None.

(** [get_latest_version]; [JNull] is Python's [None]. *)
Definition get_latest_version : M json :=
  latest_release <- get env (github_repo self ++ "/releases/latest") ;;
  ' (j, latest_release) <- call (Response_json env) latest_release ;;
  has_tag <- lift (Py.contains "tag_name" j) ;;
  if negb has_tag then ret JNull
  else
    ' (j', latest_release) <- call (Response_json env) latest_release ;;
    version <- lift (Py.subscript j' "tag_name") ;;
    call Response_close latest_release ;;
    ret version.

(** Lines 170-176, the [try]/[finally] of [download_file]: in the
    [finally] block [response] is unbound when [get] raised, which raises
    [NameError] in place of the first error. *)
Definition write_response (url outfile : string) : M unit :=
  fun w =>
    match get env url w with
    | (inl _, w1) => (inl NameError, w1)
    | (inr response, w1) =>
        let '(t, response, w2) := text response w1 in
        let (res, w3) :=
          match t with
          | inr body => file_write outfile body w2
          | inl e => (inl e, w2)
          end in
        let '(c, _, w4) := Response_close response w3 in
        match c with
        | inl e => (inl e, w4)
        | inr _ => (res, w4)
        end
    end.

(** [download_file] *)
Definition download_file (url path : string) : M unit :=
  outfile <- open_w path ;;
  write_response url outfile.

(** The staging path of a listing entry (lines 157 and 160). *)
Definition staging_path (file : json) : result string :=
  match Py.subscript file "path" with
  | inl e => inl e
  | inr p =>
      match Py.as_str AttributeError p with
      | inl e => inl e
      | inr p =>
          inr (get_module_and_path
                 ("next/" ++ PyStr.replace p (main_dir self ++ "/") ""))
      end
  end.

(** Lines 154-162, the body of the loop of [download_all_files] for one
    entry of the listing; [recurse] is the recursive call. *)
Definition download_entry (recurse : string -> json -> M unit)
    (root_url : string) (version : json) (file : json) : M unit :=
  ty <- lift (Py.subscript file "type") ;;
  if Py.eq_str ty "file" then
    download_url <- lift (Py.subscript file "download_url") ;;
    download_path <- lift (staging_path file) ;;
    url <- lift (Py.as_str AttributeError download_url) ;;
    download_file (PyStr.replace url "refs/tags/" "") download_path
  else if Py.eq_str ty "dir" then
    path <- lift (staging_path file) ;;
    os_mkdir path ;;
    name <- lift (Py.subscript file "name") ;;
    name <- lift (Py.as_str TypeError name) ;;
    recurse (root_url ++ "/" ++ name)%string version
  else ret tt.

(** [download_all_files]; [fuel] bounds the recursion depth. *)
Fixpoint download_all_files (fuel : nat) (root_url : string) (version : json)
  : M unit :=
  match fuel with
  | O => raise Exhausted
  | S f =>
      v <- lift (Py.as_str TypeError version) ;;
      file_list <- get env (root_url ++ "?ref=refs/tags/" ++ v) ;;
      ' (j, file_list) <- call (Response_json env) file_list ;;
      files <- lift (Py.iter j) ;;
      for_each files (download_entry (download_all_files f) root_url version) ;;
      call Response_close file_list ;;
      ret tt
  end.

(** Lines 89-92: whether to update. [latest > current] between a str and a
    value of another type raises [TypeError]. *)
Definition update_decision (current_version : option string)
    (latest_version : json) : result bool :=
  if negb (Py.truthy latest_version) then inr false
  else
    match current_version with
    | None => inr true
    | Some c =>
        if negb (PyStr.truthy c) then inr true
        else
          match latest_version with
          | JStr l => inr (PyStr.gt l c)
          | _ => inl TypeError
          end
    end.

(** Lines 82-96: up to the creation of the staging directory. Returns the
    version to stage, or [None] where the method returns [False]. *)
Definition begin_staging : M (option json) :=
  current_version <- get_version (get_module_and_path (main_dir self)) ;;
  latest_version <- get_latest_version ;;
  go <- lift (update_decision current_version latest_version) ;;
  if go then
    e <- path_exists (module_ self) ;;
    when (negb e) (os_mkdir (module_ self)) ;;
    os_mkdir (get_module_and_path "next") ;;
    ret (Some latest_version)
  else ret None.

(** Lines 98-100: the version marker. *)
Definition write_marker (latest_version : json) : M unit :=
  versionfile <- open_w (get_module_and_path "next/.version") ;;
  v <- lift (Py.as_str TypeError latest_version) ;;
  file_write versionfile v.

(** Lines 93-102: the branch that updates. *)
Definition stage_update (fuel : nat) (latest_version : json) : M bool :=
  e <- path_exists (module_ self) ;;
  when (negb e) (os_mkdir (module_ self)) ;;
  os_mkdir (get_module_and_path "next") ;;
  download_all_files fuel
    (github_repo self ++ "/contents/" ++ main_dir self) latest_version ;;
  write_marker latest_version ;;
  ret true.

(** [download_updates_if_available] *)
Definition download_updates_if_available (fuel : nat) : M bool :=
  staged <- begin_staging ;;
  match staged with
  | None => ret false
  | Some latest_version =>
      download_all_files fuel
        (github_repo self ++ "/contents/" ++ main_dir self) latest_version ;;
      write_marker latest_version ;;
      ret true
  end.

(** [apply_pending_updates_if_available] *)
Definition apply_pending_updates_if_available (fuel : nat) : M unit :=
  e <- path_exists (module_ self) ;;
  pending <- (if e then l <- os_listdir (module_ self) ;; ret (Py.mem "next" l)
              else ret false) ;;
  if pending then
    l <- os_listdir (get_module_and_path "next") ;;
    if Py.mem ".version" l then
      _ <- get_version (get_module_and_path "next") ;;
      e <- path_exists (get_module_and_path (main_dir self)) ;;
      when e (rmtree fuel (get_module_and_path (main_dir self))) ;;
      os_rename (get_module_and_path "next")
                (get_module_and_path (main_dir self))
    else
      rmtree fuel (get_module_and_path "next")
  else ret tt.

End Updater.

(* ================================================================== *)
(** ** Specification-side notions *)
(* ================================================================== *)

(** [pat] occurs in [s] at offset [i]. *)
Definition occurs_at (pat s : string) (i : nat) : Prop :=
  exists a b, s = (a ++ pat ++ b)%string /\ String.length a = i.

(** The strict lexicographic order on byte strings: a proper prefix comes
    first, otherwise the first differing byte decides. *)
Inductive lex_lt : string -> string -> Prop :=
| lex_lt_nil : forall c s, lex_lt "" (String c s)
| lex_lt_head : forall x y a b,
    (nat_of_ascii x < nat_of_ascii y)%nat -> lex_lt (String x a) (String y b)
| lex_lt_tail : forall c a b, lex_lt a b -> lex_lt (String c a) (String c b).

(** The removals of a post-order walk of the tree [n] found at the path
    string [d]: the content of every directory before the directory. *)
Fixpoint postorder (d : string) (n : Vfs.node) : list fsop :=
  match n with
  | Vfs.File _ => [OpRemove d]
  | Vfs.Dir es =>
      (fix walk (l : list (string * Vfs.node)) : list fsop :=
         match l with
         | [] => []
         | (k, m) :: r => postorder (d ++ "/" ++ k) m ++ walk r
         end) es ++ [OpRmdir d]
  end.

(** The same walk over the entries of the directory at [d]. *)
Definition walk (d : string) (es : list (string * Vfs.node)) : list fsop :=
  flat_map (fun e => postorder (d ++ "/" ++ fst e) (snd e)) es.

(** What [rmtree fuel directory] is shown to do from [w]: it returns, the
    tree at [directory] is unlinked and nothing else changes, and the
    removals are the post-order walk of that tree. *)
Definition rmtree_ok (fuel : nat) (directory : string) (w : World)
    (n : Vfs.node) : Prop :=
  exists fs' tr,
    Vfs.set_at (Vfs.split_path directory) None (fs w) = Some fs'
    /\ rmtree fuel directory w
       = (inr tt, mk_world fs' (trace w ++ tr) (socks w))
    /\ map fst tr = postorder directory n.

(** The live tree, the staging tree and the staging marker of an updater. *)
Definition live_dir (self : OTAUpdater) : Vfs.path :=
  Vfs.split_path (get_module_and_path self (main_dir self)).
Definition next_dir (self : OTAUpdater) : Vfs.path :=
  Vfs.split_path (get_module_and_path self "next").
Definition marker_path (self : OTAUpdater) : Vfs.path :=
  Vfs.split_path (get_module_and_path self "next/.version").

(** Two paths of which neither is at or below the other. *)
Definition apart (p q : Vfs.path) : bool :=
  negb (Vfs.is_prefix p q) && negb (Vfs.is_prefix q p).

(** A computation [c] relates every state it starts from to the state it
    ends in by [R], whether it returns or raises. *)
Definition keeps {S A : Type} (R : S -> S -> Prop) (c : ST S A) : Prop :=
  forall s r s', c s = (r, s') -> R s s'.

(** A socket on which I/O does not fail: open, and no fault planned. *)
Definition healthy (s : sock) : Prop :=
  s_closed s = 0 /\ fault_at (s_plan s) = None.

(** From [s] to [s'] the chunks [ds] were written and nothing was read or
    closed. *)
Definition sent (ds : list string) (s s' : sock) : Prop :=
  s_plan s' = s_plan s /\ s_written s' = s_written s ++ ds
  /\ s_rpos s' = s_rpos s /\ s_reads s' = s_reads s
  /\ s_closed s' = s_closed s.

(** From [s] to [s'] nothing was written, closed or read with [read()]. *)
Definition only_lines (s s' : sock) : Prop :=
  s_plan s' = s_plan s /\ s_written s' = s_written s
  /\ s_reads s' = s_reads s /\ s_closed s' = s_closed s.

(** The body that goes on the wire: the serialised [json], else [data]. *)
Definition wire_body (env : Env) (data : option string) (json_ : option json)
  : string :=
  match json_ with
  | Some j => ujson_dumps env j
  | None => match data with Some d => d | None => "" end
  end.

Definition request_line (method_ path : string) : string :=
  (method_ ++ " /" ++ path ++ " HTTP/1.0" ++ CRLF)%string.
Definition host_header (host : string) (headers : list (string * string))
  : list string :=
  if Py.has_key "Host" headers then [] else [("Host: " ++ host ++ CRLF)%string].
Definition caller_headers (headers : list (string * string)) : list string :=
  flat_map (fun kv => [fst kv; ": "; snd kv; CRLF]) headers.
Definition user_agent : list string :=
  ["User-Agent"; ": "; "MicroPython OTAUpdater"; CRLF].
Definition content_type (json_ : option json) : list string :=
  match json_ with
  | Some _ => [("Content-Type: application/json" ++ CRLF)%string]
  | None => []
  end.
Definition content_length (body : string) : list string :=
  if PyStr.truthy body
  then [("Content-Length: " ++ PyStr.of_nat (String.length body) ++ CRLF)%string]
  else [].
Definition body_chunk (body : string) : list string :=
  if PyStr.truthy body then [body] else [].

(** The order in which [request] writes: the caller's headers come before
    the user agent, the body after the blank line. *)
Definition wire_chunks (env : Env) (method_ host path : string)
    (data : option string) (json_ : option json)
    (headers : list (string * string)) : list string :=
  [request_line method_ path] ++ host_header host headers
  ++ caller_headers headers ++ user_agent
  ++ content_type json_ ++ content_length (wire_body env data json_)
  ++ [CRLF] ++ body_chunk (wire_body env data json_).

(** The order as the specification words it: the user agent before the
    caller's headers. *)
Definition claimed_wire_chunks (env : Env) (method_ host path : string)
    (data : option string) (json_ : option json)
    (headers : list (string * string)) : list string :=
  [request_line method_ path] ++ host_header host headers
  ++ user_agent ++ caller_headers headers
  ++ content_type json_ ++ content_length (wire_body env data json_)
  ++ [CRLF] ++ body_chunk (wire_body env data json_).

(** A line as [readline] returns it before the end of the stream: one LF,
    at the end. *)
Fixpoint is_line (l : string) : bool :=
  match l with
  | "" => false
  | String c r =>
      if Ascii.eqb c "010" then
        match r with "" => true | _ => false end
      else is_line r
  end.

(** The two header lines [request] rejects. *)
Definition declares_chunked (l : string) : bool :=
  PyStr.startswith "Transfer-Encoding:" l && PyStr.contains "chunked" l.
Definition redirects (status : Z) (l : string) : bool :=
  PyStr.startswith "Location:" l
  && negb ((200 <=? status)%Z && (status <=? 299)%Z).

(** A header line the loop passes over. *)
Definition passes (status : Z) (l : string) : bool :=
  is_line l && negb (String.eqb l CRLF)
  && negb (declares_chunked l) && negb (redirects status l).

(** On a healthy socket [c] returns [a], having written [ds] and nothing
    else. *)
Definition sends {A : Type} (ds : list string) (c : ST sock A) (a : A) : Prop :=
  forall s, healthy s -> exists s', c s = (inr a, s') /\ sent ds s s'.

(** What [request] does after the socket is created, given the outcome of
    the exchange on the new socket [id]: hand the socket to a [Response],
    close it and re-raise [OSError], or let any other exception through. *)
Definition request_outcome (id : nat) (w : World)
    (x : result (Z * string) * sock) : result Response * World :=
  match x with
  | (inr (status, reason), s') =>
      (inr (mk_response (Some id) None status reason),
       mk_world (fs w) (trace w) (socks w ++ [s']))
  | (inl OSError, s') =>
      (inl OSError,
       mk_world (fs w) (trace w) (socks w ++ [snd (Net.close s')]))
  | (inl e, s') =>
      (inl e, mk_world (fs w) (trace w) (socks w ++ [s']))
  end.

(** [tr] is a run of logged mutations leading from the file system [n] to
    [n']: every entry holds what its operation made of the state before. *)
Fixpoint chain (n : Vfs.node) (tr : list (fsop * Vfs.node)) (n' : Vfs.node)
  : Prop :=
  match tr with
  | [] => n' = n
  | (op, m) :: r => apply_op op n = Some m /\ chain m r n'
  end.

(** From [w] to [w'] the file system changed only by logged mutations, all
    of which satisfy [P]. *)
Definition grows (P : fsop -> Prop) (w w' : World) : Prop :=
  exists tr, trace w' = trace w ++ tr
             /\ chain (fs w) tr (fs w')
             /\ Forall (fun e => P (fst e)) tr.

(** The same for a method of a [Response]. *)
Definition method_keeps {A : Type} (R : World -> World -> Prop)
    (m : method A) : Prop :=
  forall r w x r' w', m r w = (x, r', w') -> R w w'.

(** The mutations that build a staging tree. *)
Definition staging_op (o : fsop) : Prop :=
  match o with
  | OpMkdir _ | OpOpenW _ | OpWrite _ _ => True
  | _ => False
  end.

(** The URL of the listing of [main_dir]. *)
Definition contents_url (self : OTAUpdater) : string :=
  (github_repo self ++ "/contents/" ++ main_dir self)%string.

(** The two directories [begin_staging] may create. *)
Definition begins (self : OTAUpdater) (o : fsop) : Prop :=
  o = OpMkdir (module_ self) \/ o = OpMkdir (get_module_and_path self "next").

(** The two writes of [write_marker]. *)
Definition marks (self : OTAUpdater) (o : fsop) : Prop :=
  op_path o = get_module_and_path self "next/.version".

(** From [s] to [s'] no [close()] and no [read()] happened. *)
Definition still_open (s s' : sock) : Prop :=
  s_closed s' = s_closed s /\ s_reads s' = s_reads s.

(** On a healthy socket [c] raises [e], having written [ds] and nothing
    else. *)
Definition raises_after {A : Type} (ds : list string) (c : ST sock A)
    (e : exn) : Prop :=
  forall s, healthy s -> exists s', c s = (inl e, s') /\ sent ds s s'.

(** The chunks written before the [json]/[data] assertion of line 269. *)
Definition head_chunks (method_ host path : string)
    (headers : list (string * string)) : list string :=
  [request_line method_ path] ++ host_header host headers
  ++ caller_headers headers ++ user_agent.

(** A removal at or below the path [root]. *)
Definition removal_under (root : Vfs.path) (o : fsop) : Prop :=
  match o with
  | OpRemove p | OpRmdir p => Vfs.is_prefix root (Vfs.split_path p) = true
  | _ => False
  end.

(** A creation or write at or below the path [root]. *)
Definition staging_under (root : Vfs.path) (o : fsop) : Prop :=
  match o with
  | OpMkdir p | OpOpenW p | OpWrite p _ =>
      Vfs.is_prefix root (Vfs.split_path p) = true
  | _ => False
  end.

(** The mutations of [apply_pending_updates_if_available]. *)
Definition promotion_op (self : OTAUpdater) (o : fsop) : Prop :=
  removal_under (live_dir self) o \/ removal_under (next_dir self) o
  \/ o = OpRename (get_module_and_path self "next")
                  (get_module_and_path self (main_dir self)).

(** The mutations of [download_updates_if_available]. *)
Definition download_op (self : OTAUpdater) (o : fsop) : Prop :=
  o = OpMkdir (module_ self) \/ staging_under (next_dir self) o.

(** A creation or write at a path string [<module>/next/<rel>]. *)
Definition staged_at (self : OTAUpdater) (o : fsop) : Prop :=
  staging_op o
  /\ exists rel, op_path o = get_module_and_path self ("next/" ++ rel).

(** The mutations of [download_updates_if_available], by their path
    strings. *)
Definition download_step (self : OTAUpdater) (o : fsop) : Prop :=
  o = OpMkdir (module_ self)
  \/ o = OpMkdir (get_module_and_path self "next")
  \/ staged_at self o.

(** The entries the log gained from [w] to [w']. *)
Definition logged (w w' : World) : list (fsop * Vfs.node) :=
  skipn (List.length (trace w)) (trace w').

(* ================================================================== *)
(** ** A sample repository and device *)
(* ================================================================== *)

(** Release v1.2 of a repository with [main/a.py] and [main/sub/b.py], and a
    device that runs v1.0.  Bodies are short tokens that [loads] maps to the
    decoded documents. *)
Module Sample.

Definition ok (body : string) : string :=
  ("HTTP/1.0 200 OK" ++ CRLF ++ "Content-Type: text/plain" ++ CRLF
   ++ CRLF ++ body)%string.

Definition not_found : string :=
  ("HTTP/1.0 404 Not Found" ++ CRLF ++ CRLF)%string.

Definition entry (ty path name url : string) : json :=
  JObj [("type", JStr ty); ("path", JStr path); ("name", JStr name);
        ("download_url", JStr url)].

Definition api (req : string) : string :=
  if PyStr.contains "/releases/latest " req then ok "[release]"
  else if PyStr.contains "/contents/main/sub?ref=refs/tags/v1.2 " req
  then ok "[listing of main/sub]"
  else if PyStr.contains "/contents/main?ref=refs/tags/v1.2 " req
  then ok "[listing of main]"
  else not_found.

Definition raw_files (req : string) : string :=
  if PyStr.contains "/main/a.py " req then ok "print(1)"
  else if PyStr.contains "/main/sub/b.py " req then ok "print(2)"
  else if PyStr.contains "/main/.version " req then ok "v0.9"
  else not_found.

Definition server (host : string) (port : Z) : option plan :=
  if String.eqb host "api.github.com" then Some (mk_plan api None)
  else if String.eqb host "raw.example.com" then Some (mk_plan raw_files None)
  else None.

Definition loads (body : string) : option json :=
  if String.eqb body "[release]" then
    Some (JObj [("name", JStr "Release 1.2"); ("tag_name", JStr "v1.2")])
  else if String.eqb body "[listing of main]" then
    Some (JArr [entry "file" "main/a.py" "a.py"
                      "https://raw.example.com/u/r/refs/tags/v1.2/main/a.py";
                entry "dir" "main/sub" "sub" ""])
  else if String.eqb body "[listing of main/sub]" then
    Some (JArr [entry "file" "main/sub/b.py" "b.py"
                      "https://raw.example.com/u/r/refs/tags/v1.2/main/sub/b.py"])
  else None.

Definition env : Env := mk_env server loads (fun _ => "").

(** The same repository with a [.version] file committed under [main], and
    [a.py] served by a host that does not resolve. *)
Definition loads_with_marker (body : string) : option json :=
  if String.eqb body "[listing of main]" then
    Some (JArr [entry "file" "main/.version" ".version"
                      "https://raw.example.com/u/r/refs/tags/v1.2/main/.version";
                entry "file" "main/a.py" "a.py"
                      "https://down.example.com/u/r/refs/tags/v1.2/main/a.py"])
  else loads body.

Definition env_with_marker : Env :=
  mk_env server loads_with_marker (fun _ => "").

Definition updater : OTAUpdater :=
  OTAUpdater_init "https://github.com/u/r/" "" "main".

Definition flash : World :=
  mk_world
    (Vfs.Dir [("boot.py", Vfs.File "import main");
              ("main", Vfs.Dir [(".version", Vfs.File "v1.0");
                                ("a.py", Vfs.File "print(0)")])])
    [] [].

Definition staged : result bool * World :=
  download_updates_if_available env updater 3 flash.

Definition interrupted : result bool * World :=
  download_updates_if_available env_with_marker updater 3 flash.

(** The same repository with an entry whose path steps out of [main]. *)
Definition loads_escaping (body : string) : option json :=
  if String.eqb body "[listing of main]" then
    Some (JArr [entry "file" "main/../boot.py" "boot.py"
                      "https://raw.example.com/u/r/refs/tags/v1.2/main/a.py"])
  else loads body.

Definition env_escaping : Env := mk_env server loads_escaping (fun _ => "").

(** A repository whose [main_dir] is [a/a], holding [a/a/a/x.py]: the
    directory [a] of the application and the file in it. *)
Definition nested_api (req : string) : string :=
  if PyStr.contains "/contents/a/a/a?ref=refs/tags/v1 " req
  then ok "[listing of a/a/a]"
  else if PyStr.contains "/contents/a/a?ref=refs/tags/v1 " req
  then ok "[listing of a/a]"
  else not_found.

Definition nested_files (req : string) : string :=
  if PyStr.contains "/a/a/a/x.py " req then ok "print(3)" else not_found.

Definition nested_server (host : string) (port : Z) : option plan :=
  if String.eqb host "api.github.com" then Some (mk_plan nested_api None)
  else if String.eqb host "raw.example.com" then Some (mk_plan nested_files None)
  else None.

Definition nested_loads (body : string) : option json :=
  if String.eqb body "[listing of a/a]" then
    Some (JArr [entry "dir" "a/a/a" "a" ""])
  else if String.eqb body "[listing of a/a/a]" then
    Some (JArr [entry "file" "a/a/a/x.py" "x.py"
                      "https://raw.example.com/u/r/refs/tags/v1/a/a/a/x.py"])
  else None.

Definition nested_env : Env := mk_env nested_server nested_loads (fun _ => "").

Definition nested_updater : OTAUpdater :=
  OTAUpdater_init "https://github.com/u/r" "" "a/a".

End Sample.

(* ================================================================== *)
(** * Properties *)
(* ================================================================== *)


Example replace_ex1 :
  PyStr.replace "main/sub/a.py" "main/" "" = "sub/a.py".
Proof. reflexivity. Qed.
Example replace_ex2 : PyStr.replace "aXbXc" "X" "--" = "a--b--c".
Proof. reflexivity. Qed.
Example split_ex1 :
  PyStr.split_char "/" 3 "https://api.github.com/repos/u/r/releases/latest"
  = ["https:"; ""; "api.github.com"; "repos/u/r/releases/latest"].
Proof. reflexivity. Qed.
Example split_ex2 :
  PyStr.split_ws 2 "HTTP/1.0 404 Not Found
" = ["HTTP/1.0"; "404"; "Not Found
"].
Proof. reflexivity. Qed.
Example int_ex1 : PyStr.int_of "8080" = Some 8080%Z.
Proof. reflexivity. Qed.
Example int_ex2 :
  PyStr.int_of " +80_80 " = Some 8080%Z /\ PyStr.int_of "-7" = Some (-7)%Z
  /\ PyStr.int_of "_80" = None /\ PyStr.int_of "80_" = None
  /\ PyStr.int_of "8__0" = None /\ PyStr.int_of "" = None
  /\ PyStr.int_of "8 0" = None /\ PyStr.int_of "0x10" = None.
Proof. repeat split; reflexivity. Qed.
Example utf8_ex :
  PyStr.utf8_valid "print(1)" = true
  /\ PyStr.utf8_valid (String "195" (String "169" "")) = true
  /\ PyStr.utf8_valid (String "255" (String "254" "")) = false
  /\ PyStr.utf8_valid (String "192" (String "128" "")) = false
  /\ PyStr.utf8_valid (String "226" (String "130" "")) = false.
Proof. repeat split; reflexivity. Qed.
Example split_path_ex :
  Vfs.split_path "app//next/a.py" = ["app"; "next"; "a.py"]
  /\ Vfs.split_path "next/sub/../.version" = ["next"; ".version"]
  /\ Vfs.split_path "next/sub/../.version" = marker_path Sample.updater
  /\ Vfs.split_path "next/../boot.py" = ["boot.py"]
  /\ Vfs.split_path "../a/./b/" = ["a"; "b"]
  /\ Vfs.split_path "" = [].
Proof. repeat split; reflexivity. Qed.
Example gt_ex1 : PyStr.gt "v1.2" "v1.0" = true /\ PyStr.gt "v10.0" "v2.0" = false.
Proof. split; reflexivity. Qed.
Example of_nat_ex : PyStr.of_nat 120 = "120" /\ PyStr.of_nat 0 = "0".
Proof. split; reflexivity. Qed.

(* ------------------------------------------------------------------ *)
(** ** Strings *)
(* ------------------------------------------------------------------ *)

Section StringFacts.

Lemma append_nil_r (s : string) : (s ++ "")%string = s.
Proof. induction s; simpl; congruence. Qed.

Lemma append_assoc (a b c : string) :
  ((a ++ b) ++ c)%string = (a ++ (b ++ c))%string.
Proof. induction a; simpl; congruence. Qed.

Lemma append_length (a b : string) :
  String.length (a ++ b) = String.length a + String.length b.
Proof. induction a; simpl; congruence. Qed.

Lemma append_inj_l (a x y : string) : (a ++ x)%string = (a ++ y)%string -> x = y.
Proof. induction a; simpl; intros H; [assumption | injection H; auto]. Qed.

Lemma startswith_app (p s : string) : PyStr.startswith p (p ++ s) = true.
Proof.
  induction p as [|c p IH]; simpl; [reflexivity|].
  now rewrite Ascii.eqb_refl, IH.
Qed.

Lemma startswith_inv (p s : string) :
  PyStr.startswith p s = true -> exists r, s = (p ++ r)%string.
Proof.
  revert s; induction p as [|c p IH]; intros s H; simpl in *.
  - now exists s.
  - destruct s as [|d s]; [discriminate|].
    apply andb_true_iff in H as [Hc Hp].
    apply Ascii.eqb_eq in Hc; subst d.
    destruct (IH _ Hp) as [r ->]. now exists r.
Qed.

Lemma occurs_at_tail (pat s : string) (c : ascii) (i : nat) :
  occurs_at pat s i -> occurs_at pat (String c s) (S i).
Proof.
  intros (a & b & -> & <-). exists (String c a), b. split; reflexivity.
Qed.

Lemma contains_occurs (pat s : string) :
  PyStr.contains pat s = true <-> exists i, occurs_at pat s i.
Proof.
  split.
  - induction s as [|c s IH]; simpl; intros H.
    + rewrite orb_false_r in H. apply startswith_inv in H as [r ->].
      exists 0, "", r. split; reflexivity.
    + apply orb_true_iff in H as [H|H].
      * apply startswith_inv in H as [r Hr].
        exists 0, "", r. split; [exact Hr | reflexivity].
      * destruct (IH H) as [i Hi]. exists (S i). now apply occurs_at_tail.
  - intros (i & a & b & -> & _). clear i.
    induction a as [|c a IH]; simpl.
    + assert (E : PyStr.startswith pat (pat ++ b) = true) by apply startswith_app.
      destruct (pat ++ b)%string; simpl; rewrite E; reflexivity.
    + rewrite IH. apply orb_true_r.
Qed.

Lemma replace_nonempty (s old new : string) :
  old <> "" -> PyStr.replace s old new = PyStr.replace_from 0 old new s.
Proof. destruct old; [congruence | reflexivity]. Qed.

Lemma replace_from_skip (old new : string) :
  forall a r, PyStr.replace_from (String.length a) old new (a ++ r)
              = PyStr.replace_from 0 old new r.
Proof.
  induction a as [|c a IH]; intros r; simpl.
  - destruct r; reflexivity.
  - apply IH.
Qed.

Lemma replace_from_match (old new r : string) :
  old <> "" ->
  PyStr.replace_from 0 old new (old ++ r)
  = (new ++ PyStr.replace_from 0 old new r)%string.
Proof.
  intros Hne. destruct old as [|c o]; [congruence|].
  change (String c o ++ r)%string with (String c (o ++ r)).
  cbn [PyStr.replace_from].
  change (String c (o ++ r)) with (String c o ++ r)%string.
  rewrite startswith_app. cbn [String.length].
  rewrite Nat.sub_succ, Nat.sub_0_r. now rewrite replace_from_skip.
Qed.

Lemma replace_from_no_occurrence (old new : string) :
  forall s, (forall i, ~ occurs_at old s i) ->
            PyStr.replace_from 0 old new s = s.
Proof.
  induction s as [|c s IH]; intros Hno; [reflexivity|].
  cbn [PyStr.replace_from].
  destruct (PyStr.startswith old (String c s)) eqn:E.
  - exfalso. apply startswith_inv in E as [r Hr].
    apply (Hno 0). exists "", r. split; [exact Hr | reflexivity].
  - f_equal. apply IH. intros i Hi. apply (Hno (S i)).
    now apply occurs_at_tail.
Qed.

Lemma replace_from_length_le (old : string) :
  forall s k, String.length (PyStr.replace_from k old "" s) <= String.length s.
Proof.
  induction s as [|c s IH]; intros k; [simpl; lia|].
  cbn [PyStr.replace_from]. destruct k as [|k].
  - destruct (PyStr.startswith old (String c s)).
    + cbn [append String.length].
      specialize (IH (String.length old - 1)). simpl. lia.
    + simpl. specialize (IH 0). lia.
  - specialize (IH k). simpl. lia.
Qed.

Lemma replace_from_shrinks (old : string) :
  old <> "" ->
  forall s, PyStr.contains old s = true ->
            String.length (PyStr.replace_from 0 old "" s) < String.length s.
Proof.
  intros Hne. induction s as [|c s IH]; intros H.
  - simpl in H. destruct old; [congruence | discriminate].
  - cbn [PyStr.replace_from].
    destruct (PyStr.startswith old (String c s)) eqn:E.
    + pose proof (replace_from_length_le old s (String.length old - 1)).
      simpl. lia.
    + cbn [PyStr.contains] in H. rewrite E in H.
      specialize (IH H). simpl. lia.
Qed.

Lemma nat_of_ascii_inj (x y : ascii) : nat_of_ascii x = nat_of_ascii y -> x = y.
Proof.
  intros H. rewrite <- (ascii_nat_embedding x), <- (ascii_nat_embedding y).
  now rewrite H.
Qed.

Lemma lex_lt_irrefl_head (x : ascii) (a b : string) :
  lex_lt (String x a) (String x b) -> lex_lt a b.
Proof. intros H. inversion H; subst; [lia | assumption]. Qed.

Lemma gt_lex_lt (a b : string) : PyStr.gt b a = true <-> lex_lt a b.
Proof.
  revert a; induction b as [|y b IH]; intros a.
  - simpl. split; [discriminate | intros H; inversion H].
  - destruct a as [|x a].
    + simpl. split; [intros _; constructor | reflexivity].
    + simpl.
      destruct (nat_of_ascii x <? nat_of_ascii y)%nat eqn:E1.
      * apply Nat.ltb_lt in E1. split; [intros _; now constructor | reflexivity].
      * apply Nat.ltb_ge in E1.
        destruct (nat_of_ascii y <? nat_of_ascii x)%nat eqn:E2.
        -- apply Nat.ltb_lt in E2. split; [discriminate|].
           intros H. inversion H; subst; lia.
        -- apply Nat.ltb_ge in E2.
           assert (x = y) by (apply nat_of_ascii_inj; lia). subst y.
           rewrite IH. split; [now constructor | apply lex_lt_irrefl_head].
Qed.

End StringFacts.

(* ------------------------------------------------------------------ *)
(** ** The update decision *)
(* ------------------------------------------------------------------ *)

(** For non-empty version strings [a] (installed) and [b] (latest) the test
    of lines 89-92 is [b > a], the strict lexicographic order on the bytes
    of the two strings. *)
Lemma update_decision_strings (a b : string) :
  a <> "" -> b <> "" ->
  update_decision (Some a) (JStr b) = inr (PyStr.gt b a).
Proof.
  intros Ha Hb. unfold update_decision.
  destruct b; [congruence|]. destruct a; [congruence|]. reflexivity.
Qed.

Lemma update_decision_fresh (b : string) :
  b <> "" -> update_decision None (JStr b) = inr true.
Proof. intros Hb. unfold update_decision. destruct b; [congruence | reflexivity]. Qed.

(* ------------------------------------------------------------------ *)
(** ** Staging paths *)
(* ------------------------------------------------------------------ *)

Lemma get_module_and_path_inj (self : OTAUpdater) (a b : string) :
  get_module_and_path self a = get_module_and_path self b -> a = b.
Proof.
  unfold get_module_and_path. destruct (PyStr.truthy (module_ self)); auto.
  intros H. apply append_inj_l in H. now apply append_inj_l in H.
Qed.

Lemma main_dir_slash_nonempty (self : OTAUpdater) :
  (main_dir self ++ "/")%string <> "".
Proof. destruct (main_dir self); discriminate. Qed.

(** The staging path of a listing entry is ['next/'] followed by the
    entry's path with the occurrences of [main_dir + '/'] removed, under
    the module directory.  For a path [main_dir + '/' + rel] in which the
    pattern occurs at offset 0 only this is ['next/' + rel]; when the
    pattern occurs inside [rel], the result is a strictly shorter path,
    different from ['next/' + rel]. *)
Lemma staging_path_occurrences
    (self : OTAUpdater) (file : json) (path rel : string) :
  Py.subscript file "path" = inr (JStr path) ->
  path = (main_dir self ++ "/" ++ rel)%string ->
  staging_path self file
  = inr (get_module_and_path self
           ("next/" ++ PyStr.replace path (main_dir self ++ "/") ""))
  /\ ((forall i, occurs_at (main_dir self ++ "/") path i -> i = 0) ->
      staging_path self file = inr (get_module_and_path self ("next/" ++ rel)))
  /\ ((exists i, occurs_at (main_dir self ++ "/") rel i) ->
      exists collapsed,
        staging_path self file
        = inr (get_module_and_path self ("next/" ++ collapsed))
        /\ String.length collapsed < String.length rel
        /\ staging_path self file
           <> inr (get_module_and_path self ("next/" ++ rel))).
Proof.
  intros Hsub Hpath.
  pose proof (main_dir_slash_nonempty self) as Hne.
  assert (E : staging_path self file
              = inr (get_module_and_path self
                       ("next/" ++ PyStr.replace path (main_dir self ++ "/") ""))).
  { unfold staging_path. rewrite Hsub. reflexivity. }
  assert (R : PyStr.replace path (main_dir self ++ "/") ""
              = PyStr.replace_from 0 (main_dir self ++ "/") "" rel).
  { rewrite replace_nonempty by assumption. subst path.
    rewrite <- append_assoc.
    rewrite replace_from_match by assumption. reflexivity. }
  split; [exact E|]. split.
  - intros Honly. rewrite E, R. do 3 f_equal.
    apply replace_from_no_occurrence. intros i (x & y & Hx & Hi).
    assert (Hocc : occurs_at (main_dir self ++ "/") path
                     (String.length (main_dir self ++ "/") + i)).
    { exists ((main_dir self ++ "/") ++ x)%string, y. split.
      - subst path. rewrite Hx. now rewrite !append_assoc.
      - rewrite append_length. lia. }
    apply Honly in Hocc.
    destruct (main_dir self ++ "/")%string; [congruence | simpl in Hocc; lia].
  - intros Hocc. apply contains_occurs in Hocc.
    pose proof (@replace_from_shrinks _ Hne rel Hocc) as Hlt.
    exists (PyStr.replace_from 0 (main_dir self ++ "/") "" rel).
    rewrite E, R. split; [reflexivity|]. split; [exact Hlt|].
    intros Heq. injection Heq as Heq.
    apply get_module_and_path_inj in Heq.
    apply (append_inj_l "next/") in Heq.
    rewrite Heq in Hlt. lia.
Qed.

Example staging_path_plain :
  staging_path (mk_updater "r" "main" "") (JObj [("path", JStr "main/sub/b.py")])
  = inr "next/sub/b.py".
Proof. reflexivity. Qed.

Example staging_path_collapsed :
  staging_path (mk_updater "r" "main" "app")
               (JObj [("path", JStr "main/lib/main/x.py")])
  = inr "app/next/lib/x.py".
Proof. reflexivity. Qed.

(* ------------------------------------------------------------------ *)
(** ** Paths and trees *)
(* ------------------------------------------------------------------ *)

Section VfsFacts.

Import Vfs.

Lemma pieces_nonempty (s : string) : pieces s <> [].
Proof.
  destruct s as [|c s]; simpl; [discriminate|].
  destruct (Ascii.eqb c "/"); [discriminate|].
  destruct (pieces s); discriminate.
Qed.

Lemma pieces_join (a b : string) :
  pieces (a ++ "/" ++ b) = pieces a ++ pieces b.
Proof.
  induction a as [|c a IH]; simpl in *; [reflexivity|].
  destruct (Ascii.eqb c "/"); [now rewrite IH|].
  rewrite IH. pose proof (pieces_nonempty a).
  destruct (pieces a); [congruence | reflexivity].
Qed.

Lemma components_join (a b : string) :
  components (a ++ "/" ++ b) = components a ++ components b.
Proof. unfold components. now rewrite pieces_join, filter_app. Qed.

Lemma resolve_app (base : path) (a b : list string) :
  resolve base (a ++ b) = resolve (resolve base a) b.
Proof.
  revert base; induction a as [|c a IH]; intros base; [reflexivity|].
  cbn [app resolve].
  destruct (String.eqb c "."); [apply IH|].
  destruct (String.eqb c ".."); apply IH.
Qed.

Lemma resolve_plain (base : path) (cs : list string) :
  forallb (fun c => negb (is_dot c)) cs = true -> resolve base cs = base ++ cs.
Proof.
  revert base; induction cs as [|c cs IH]; intros base H.
  - now rewrite app_nil_r.
  - cbn [forallb] in H. apply andb_true_iff in H as [Hc Hcs].
    unfold is_dot in Hc. apply negb_true_iff, orb_false_iff in Hc as [H1 H2].
    cbn [resolve]. rewrite H1, H2, (IH _ Hcs), <- app_assoc. reflexivity.
Qed.

Lemma split_path_plain (s : string) :
  plain s = true -> split_path s = components s.
Proof. intros H. unfold split_path. now rewrite (resolve_plain [] _ H). Qed.

Lemma split_path_join (a b : string) :
  plain b = true -> split_path (a ++ "/" ++ b) = split_path a ++ split_path b.
Proof.
  intros H. unfold split_path at 1. rewrite components_join, resolve_app.
  fold (split_path a). rewrite (resolve_plain _ _ H).
  now rewrite (split_path_plain _ H).
Qed.

Lemma pieces_no_slash (n : string) :
  PyStr.has_char "/" n = false -> pieces n = [n].
Proof.
  induction n as [|c n IH]; simpl; [reflexivity|].
  intros H. apply orb_false_iff in H as [Hc Hn].
  rewrite Hc, (IH Hn). reflexivity.
Qed.

Lemma valid_name_components (n : string) :
  valid_name n = true -> components n = [n] /\ plain n = true.
Proof.
  unfold valid_name, plain, components. intros H.
  apply andb_true_iff in H as [H Hd]. apply andb_true_iff in H as [Ht Hs].
  apply negb_true_iff in Hs.
  rewrite (pieces_no_slash _ Hs). cbn [filter]. rewrite Ht.
  split; [reflexivity|]. cbn [forallb]. now rewrite Hd.
Qed.

Lemma split_path_name (n : string) : valid_name n = true -> split_path n = [n].
Proof.
  intros H. destruct (valid_name_components n H) as [Hc Hp].
  now rewrite (split_path_plain _ Hp).
Qed.

Lemma split_path_child (d n : string) :
  valid_name n = true -> split_path (d ++ "/" ++ n) = split_path d ++ [n].
Proof.
  intros H. rewrite split_path_join by apply (valid_name_components n H).
  now rewrite (split_path_name _ H).
Qed.

(** In a listing every name is a valid one, and a valid name is listed
    exactly when it is an entry. *)
Lemma listed_valid (es : list (string * node)) :
  forallb valid_name (map fst (listed es)) = true.
Proof.
  unfold listed. induction es as [|[k m] es IH]; [reflexivity|].
  cbn [filter fst]. destruct (valid_name k) eqn:E; [|exact IH].
  cbn [map fst forallb]. now rewrite E.
Qed.

Lemma listed_all (es : list (string * node)) :
  forallb valid_name (map fst es) = true -> listed es = es.
Proof.
  unfold listed. induction es as [|[k m] es IH]; [reflexivity|].
  cbn [map fst forallb filter]. intros H.
  apply andb_true_iff in H as [-> H]. now rewrite (IH H).
Qed.

Lemma mem_listed (c : string) (es : list (string * node)) :
  valid_name c = true ->
  Py.mem c (map fst (listed es)) = Py.mem c (map fst es).
Proof.
  intros Hc. unfold listed. induction es as [|[k m] es IH]; [reflexivity|].
  cbn [filter fst map Py.mem]. destruct (valid_name k) eqn:E.
  - cbn [map fst Py.mem]. now rewrite IH.
  - rewrite IH. destruct (String.eqb k c) eqn:Ek; [|reflexivity].
    apply String.eqb_eq in Ek. congruence.
Qed.

Lemma ilistdir_valid (p : string) (n : node) (entries : list (string * Z)) :
  ilistdir p n = Some entries ->
  forall e, In e entries -> valid_name (fst e) = true.
Proof.
  unfold ilistdir. destruct (lookup (split_path p) n) as [[d|es]|]; try discriminate.
  intros [= <-] e Hin. apply in_map_iff in Hin as ([k m] & <- & Hin).
  unfold listed in Hin. apply filter_In in Hin as [_ H]. exact H.
Qed.

Lemma mem_listed_false (c : string) (es : list (string * node)) :
  Py.mem c (map fst es) = false -> Py.mem c (map fst (listed es)) = false.
Proof.
  unfold listed. induction es as [|[k m] es IH]; [reflexivity|].
  cbn [filter fst map Py.mem]. intros H. apply orb_false_iff in H as [Hk H].
  destruct (valid_name k); [|now apply IH].
  cbn [map fst Py.mem]. now rewrite Hk, (IH H).
Qed.

(** *** Entries of one directory *)

Lemma find_put_same c m es : find c (put c m es) = Some m.
Proof.
  induction es as [|[k x] es IH]; simpl.
  - now rewrite String.eqb_refl.
  - destruct (String.eqb k c) eqn:E; simpl.
    + now rewrite String.eqb_refl.
    + now rewrite E.
Qed.

Lemma find_put_other c d m es : c <> d -> find d (put c m es) = find d es.
Proof.
  intros Hne. induction es as [|[k x] es IH]; simpl.
  - destruct (String.eqb c d) eqn:E; [apply String.eqb_eq in E; congruence|reflexivity].
  - destruct (String.eqb k c) eqn:E; simpl.
    + apply String.eqb_eq in E; subst k.
      destruct (String.eqb c d) eqn:E2; [apply String.eqb_eq in E2; congruence|reflexivity].
    + now rewrite IH.
Qed.

Lemma find_del_same c es : find c (del c es) = None.
Proof.
  induction es as [|[k x] es IH]; simpl; [reflexivity|].
  destruct (String.eqb k c) eqn:E; simpl; [assumption | now rewrite E].
Qed.

Lemma find_del_other c d es : c <> d -> find d (del c es) = find d es.
Proof.
  intros Hne. induction es as [|[k x] es IH]; simpl; [reflexivity|].
  destruct (String.eqb k c) eqn:E; simpl.
  - apply String.eqb_eq in E; subst k.
    destruct (String.eqb c d) eqn:E2; [apply String.eqb_eq in E2; congruence|assumption].
  - now rewrite IH.
Qed.

Lemma put_put c m m' es : put c m' (put c m es) = put c m' es.
Proof.
  induction es as [|[k x] es IH]; simpl.
  - now rewrite String.eqb_refl.
  - destruct (String.eqb k c) eqn:E; simpl.
    + now rewrite String.eqb_refl.
    + now rewrite E, IH.
Qed.

Lemma del_put c m es : del c (put c m es) = del c es.
Proof.
  induction es as [|[k x] es IH]; simpl.
  - now rewrite String.eqb_refl.
  - destruct (String.eqb k c) eqn:E; simpl.
    + now rewrite String.eqb_refl.
    + now rewrite E, IH.
Qed.

Lemma put_found c m es : find c es = Some m -> put c m es = es.
Proof.
  induction es as [|[k x] es IH]; simpl; [discriminate|].
  destruct (String.eqb k c) eqn:E.
  - apply String.eqb_eq in E; subst k. now intros [= ->].
  - intros H. now rewrite IH.
Qed.

Lemma mem_find (c : string) (es : list (string * node)) :
  Py.mem c (map fst es) = match find c es with Some _ => true | None => false end.
Proof.
  induction es as [|[k x] es IH]; simpl; [reflexivity|].
  destruct (String.eqb k c); [reflexivity | exact IH].
Qed.

Lemma del_absent c es : Py.mem c (map fst es) = false -> del c es = es.
Proof.
  induction es as [|[k x] es IH]; simpl; [reflexivity|].
  destruct (String.eqb k c); [discriminate|]. simpl.
  intros H. now rewrite IH.
Qed.

(** *** Lookup and update *)

Lemma lookup_cons c p es :
  lookup (c :: p) (Dir es)
  = match find c es with Some m => lookup p m | None => None end.
Proof. reflexivity. Qed.

Lemma set_at_cons2 c d p v es :
  set_at (c :: d :: p) v (Dir es)
  = match find c es with
    | Some m =>
        match set_at (d :: p) v m with
        | Some m' => Some (Dir (put c m' es))
        | None => None
        end
    | None => None
    end.
Proof. reflexivity. Qed.

Lemma lookup_app p q r :
  lookup (p ++ q) r = match lookup p r with Some n => lookup q n | None => None end.
Proof.
  revert r; induction p as [|c p IH]; intros r; simpl; [reflexivity|].
  destruct r as [|es]; [reflexivity|].
  destruct (find c es); [apply IH | reflexivity].
Qed.

Lemma lookup_set_at_same p v r r' : set_at p v r = Some r' -> lookup p r' = v.
Proof.
  revert r r'; induction p as [|c p IH]; intros r r' H; simpl in H; [discriminate|].
  destruct r as [|es]; [discriminate|].
  destruct p as [|d p].
  - injection H as <-. simpl. destruct v as [m|].
    + now rewrite find_put_same.
    + now rewrite find_del_same.
  - destruct (find c es) as [m|]; [|discriminate].
    destruct (set_at (d :: p) v m) as [m'|] eqn:E; [|discriminate].
    injection H as <-. cbn [lookup]. rewrite find_put_same. now apply IH with m.
Qed.

Lemma is_prefix_nil_r p : is_prefix p [] = true -> p = [].
Proof. destruct p; [reflexivity | discriminate]. Qed.

Lemma lookup_set_at_apart p q v r r' :
  set_at p v r = Some r' -> apart p q = true -> lookup q r' = lookup q r.
Proof.
  unfold apart.
  revert q r r'; induction p as [|c p IH]; intros q r r' H Hap; simpl in H; [discriminate|].
  destruct r as [|es]; [discriminate|].
  destruct q as [|b q]; [simpl in Hap; discriminate|].
  cbn [is_prefix] in Hap.
  destruct (String.eqb c b) eqn:Ecb.
  - apply String.eqb_eq in Ecb; subst b. rewrite String.eqb_refl in Hap.
    cbn [andb] in Hap.
    destruct p as [|d p]; [simpl in Hap; discriminate|].
    destruct (find c es) as [m|] eqn:Ef; [|discriminate].
    destruct (set_at (d :: p) v m) as [m'|] eqn:E; [|discriminate].
    injection H as <-. cbn [lookup]. rewrite find_put_same, Ef.
    now apply IH.
  - assert (Hne : c <> b) by (intros ->; rewrite String.eqb_refl in Ecb; discriminate).
    assert (Hf : forall es', r' = Dir es' -> find b es' = find b es).
    { destruct p as [|d p].
      - injection H as <-. intros es' [= <-].
        destruct v; [now apply find_put_other | now apply find_del_other].
      - destruct (find c es) as [m|]; [|discriminate].
        destruct (set_at (d :: p) v m) as [m'|]; [|discriminate].
        injection H as <-. intros es' [= <-]. now apply find_put_other. }
    destruct r' as [|es'].
    + destruct p as [|d p]; [discriminate|].
      destruct (find c es) as [m|]; [|discriminate].
      destruct (set_at (d :: p) v m); discriminate.
    + cbn [lookup]. now rewrite (Hf es' eq_refl).
Qed.

Lemma set_at_again p m v' r r1 :
  set_at p (Some m) r = Some r1 -> set_at p v' r1 = set_at p v' r.
Proof.
  revert r r1; induction p as [|c p IH]; intros r r1 H; simpl in H; [discriminate|].
  destruct r as [|es]; [discriminate|].
  destruct p as [|d p].
  - injection H as <-. cbn [set_at]. destruct v'.
    + now rewrite put_put.
    + now rewrite del_put.
  - destruct (find c es) as [x|] eqn:Ef; [|discriminate].
    destruct (set_at (d :: p) (Some m) x) as [x'|] eqn:E; [|discriminate].
    injection H as <-. rewrite !set_at_cons2, find_put_same, Ef.
    rewrite (IH _ _ E).
    destruct (set_at (d :: p) v' x); [now rewrite put_put | reflexivity].
Qed.

Lemma set_at_present p n v r :
  p <> [] -> lookup p r = Some n -> exists r', set_at p v r = Some r'.
Proof.
  revert r; induction p as [|c p IH]; intros r Hne H; [congruence|].
  simpl in H. destruct r as [|es]; [discriminate|].
  destruct (find c es) as [m|] eqn:Ef; [|discriminate].
  destruct p as [|d p].
  - cbn [set_at]. eauto.
  - rewrite set_at_cons2, Ef.
    destruct (IH m ltac:(discriminate) H) as [m' ->]. eauto.
Qed.

Lemma set_at_unchanged p n r :
  p <> [] -> lookup p r = Some n -> set_at p (Some n) r = Some r.
Proof.
  revert r; induction p as [|c p IH]; intros r Hne H; [congruence|].
  simpl in H. destruct r as [|es]; [discriminate|].
  destruct (find c es) as [m|] eqn:Ef; [|discriminate].
  destruct p as [|d p].
  - simpl in H. injection H as ->. cbn [set_at]. now rewrite put_found.
  - rewrite set_at_cons2, Ef. rewrite (IH m ltac:(discriminate) H).
    now rewrite put_found.
Qed.

(** Setting or deleting an entry of the directory at [p] is replacing that
    directory. *)
Lemma set_at_child p k v es r :
  p <> [] -> lookup p r = Some (Dir es) ->
  set_at (p ++ [k]) v r
  = set_at p (Some (Dir (match v with Some m => put k m es | None => del k es end))) r.
Proof.
  revert r; induction p as [|c p IH]; intros r Hne H; [congruence|].
  simpl in H. destruct r as [|es0]; [discriminate|].
  destruct (find c es0) as [m|] eqn:Ef; [|discriminate].
  destruct p as [|d p].
  - simpl in H. injection H as ->. cbn [app set_at]. now rewrite Ef.
  - change ((c :: d :: p) ++ [k]) with (c :: d :: (p ++ [k])).
    rewrite !set_at_cons2, Ef. change (d :: (p ++ [k])) with ((d :: p) ++ [k]).
    rewrite (IH m ltac:(discriminate) H). reflexivity.
Qed.

Lemma set_at_child_root k v es :
  set_at [k] v (Dir es)
  = Some (Dir (match v with Some m => put k m es | None => del k es end)).
Proof. reflexivity. Qed.

(** Setting an entry in an existing directory always works, and gives the
    directory with that entry set. *)
Lemma set_at_in_dir p k v es r :
  lookup p r = Some (Dir es) ->
  exists r', set_at (p ++ [k]) v r = Some r'
             /\ lookup p r'
                = Some (Dir (match v with Some m => put k m es | None => del k es end)).
Proof.
  intros H. destruct p as [|c p].
  - simpl in H. injection H as ->. eexists. split; reflexivity.
  - assert (Hne : c :: p <> []) by discriminate.
    rewrite (set_at_child (c :: p) k v es r Hne H).
    destruct (set_at_present (c :: p) (Dir es)
                (Some (Dir (match v with Some m => put k m es | None => del k es end)))
                r Hne H) as [r' Hr'].
    exists r'. split; [exact Hr'|]. now apply lookup_set_at_same with r.
Qed.

(** *** Well-formed trees *)

Lemma wf_dir es :
  wf (Dir es) = true ->
  nodupb (map fst es) = true /\ forallb valid_name (map fst es) = true
  /\ forall k m, In (k, m) es -> wf m = true.
Proof.
  cbn [wf]. intros H.
  apply andb_true_iff in H as [H Hall]. apply andb_true_iff in H as [Hnd Hval].
  split; [assumption|]. split; [assumption|].
  clear Hnd Hval. induction es as [|[k0 m0] es IH]; intros k m Hin; [destruct Hin|].
  apply andb_true_iff in Hall as [H0 Hr].
  destruct Hin as [[= <- <-]|Hin]; [assumption | now apply IH with k].
Qed.

Lemma find_in k m es : find k es = Some m -> In (k, m) es.
Proof.
  induction es as [|[k0 m0] es IH]; simpl; [discriminate|].
  destruct (String.eqb k0 k) eqn:E.
  - apply String.eqb_eq in E; subst. intros [= ->]. now left.
  - intros H. right. now apply IH.
Qed.

Lemma wf_lookup p r n : wf r = true -> lookup p r = Some n -> wf n = true.
Proof.
  revert r; induction p as [|c p IH]; intros r Hwf H; simpl in H.
  - now injection H as <-.
  - destruct r as [|es]; [discriminate|].
    destruct (find c es) as [m|] eqn:Ef; [|discriminate].
    apply wf_dir in Hwf as (_ & _ & Hall).
    apply (IH m); [|assumption]. apply (Hall c). now apply find_in.
Qed.

Lemma depth_child k m es : In (k, m) es -> depth m < depth (Dir es).
Proof.
  cbn [depth]. induction es as [|[k0 m0] es IH]; intros Hin; [destruct Hin|].
  destruct Hin as [[= <- <-]|Hin]; [lia|].
  specialize (IH Hin). lia.
Qed.

End VfsFacts.

(* ------------------------------------------------------------------ *)
(** ** Running computations *)
(* ------------------------------------------------------------------ *)

Section Running.

Context {S A B : Type}.

Lemma bind_ret (c : ST S A) (k : A -> ST S B) w a w' :
  c w = (inr a, w') -> bind c k w = k a w'.
Proof. unfold bind. now intros ->. Qed.

Lemma bind_raise (c : ST S A) (k : A -> ST S B) w e w' :
  c w = (inl e, w') -> bind c k w = (inl e, w').
Proof. unfold bind. now intros ->. Qed.

Lemma bind_inv (c : ST S A) (k : A -> ST S B) w r w' :
  bind c k w = (r, w') ->
  (exists e, c w = (inl e, w') /\ r = inl e)
  \/ (exists a w1, c w = (inr a, w1) /\ k a w1 = (r, w')).
Proof.
  unfold bind. destruct (c w) as [[e|a] w1]; intros H.
  - left. exists e. now injection H as <- <-.
  - right. now exists a, w1.
Qed.

End Running.

Lemma bind_assoc {S A B C : Type} (c : ST S A) (k : A -> ST S B)
    (k2 : B -> ST S C) w :
  bind (bind c k) k2 w = bind c (fun a => bind (k a) k2) w.
Proof. unfold bind. destruct (c w) as [[e|a] w1]; reflexivity. Qed.

Lemma bind_cong {S A B : Type} (c c' : ST S A) (k : A -> ST S B) w w' :
  c w = c' w' -> bind c k w = bind c' k w'.
Proof. unfold bind. now intros ->. Qed.

Lemma for_each_app {S A : Type} (xs ys : list A) (body : A -> ST S unit) w :
  for_each (xs ++ ys) body w
  = bind (for_each xs body) (fun _ => for_each ys body) w.
Proof.
  revert w; induction xs as [|x xs IH]; intros w; cbn [app for_each].
  - reflexivity.
  - unfold bind. destruct (body x w) as [[e|[]] w1]; [reflexivity|].
    rewrite IH. reflexivity.
Qed.

Lemma fs_get_run {A : Type} (f : Vfs.node -> option A) w a :
  f (fs w) = Some a -> fs_get f w = (inr a, w).
Proof. unfold fs_get. now intros ->. Qed.

Lemma fs_do_run op w n :
  apply_op op (fs w) = Some n ->
  fs_do op w = (inr tt, mk_world n (trace w ++ [(op, n)]) (socks w)).
Proof. unfold fs_do. now intros ->. Qed.

(* ------------------------------------------------------------------ *)
(** ** rmtree *)
(* ------------------------------------------------------------------ *)

Section Rmtree.

Import Vfs.

Lemma postorder_dir d es : postorder d (Dir es) = walk d es ++ [OpRmdir d].
Proof.
  cbn [postorder]. f_equal. unfold walk.
  induction es as [|[k m] es IH]; [reflexivity|]. cbn [flat_map fst snd].
  now rewrite IH.
Qed.

(** The loop of [rmtree] over the entries still present, given that the
    recursive calls behave. *)
Lemma rmtree_loop (f : nat) (directory : string) :
  split_path directory <> [] ->
  (forall d w es,
      split_path d <> [] ->
      lookup (split_path d) (fs w) = Some (Dir es) ->
      wf (Dir es) = true -> depth (Dir es) <= f ->
      rmtree_ok f d w (Dir es)) ->
  forall rest w,
    lookup (split_path directory) (fs w) = Some (Dir rest) ->
    nodupb (map fst rest) = true ->
    forallb valid_name (map fst rest) = true ->
    (forall k m, In (k, m) rest -> wf m = true /\ depth m <= f) ->
    exists fs' tr,
      set_at (split_path directory) (Some (Dir [])) (fs w) = Some fs'
      /\ for_each (map (fun e => (fst e, mode_of (snd e))) rest)
           (fun entry =>
              if Z.eqb (snd entry) 16384
              then rmtree f (directory ++ "/" ++ fst entry)
              else os_remove (directory ++ "/" ++ fst entry)) w
         = (inr tt, mk_world fs' (trace w ++ tr) (socks w))
      /\ map fst tr = walk directory rest.
Proof.
  intros Hne Hrec. induction rest as [|[k m] rest IH]; intros w Hl Hnd Hval Hch.
  - exists (fs w), []. split; [now apply set_at_unchanged|].
    split; [|reflexivity]. cbn. rewrite app_nil_r. now destruct w.
  - cbn [map fst nodupb forallb] in Hnd, Hval.
    apply andb_true_iff in Hnd as [Hk Hnd]. apply negb_true_iff in Hk.
    apply andb_true_iff in Hval as [Hvk Hval].
    set (child := (directory ++ "/" ++ k)%string).
    assert (Hsp : split_path child = split_path directory ++ [k])
      by now apply split_path_child.
    assert (Hlk : lookup (split_path child) (fs w) = Some m).
    { rewrite Hsp, lookup_app, Hl. cbn [lookup find].
      now rewrite String.eqb_refl. }
    assert (Hdel : del k ((k, m) :: rest) = rest).
    { cbn [del]. rewrite String.eqb_refl. now apply del_absent. }
    assert (Hset : set_at (split_path child) None (fs w)
                   = set_at (split_path directory) (Some (Dir rest)) (fs w)).
    { rewrite Hsp, (set_at_child _ k None _ _ Hne Hl). now rewrite Hdel. }
    (* the first entry *)
    assert (Hfirst : exists fs1 tr1,
               set_at (split_path directory) (Some (Dir rest)) (fs w) = Some fs1
               /\ (if Z.eqb (mode_of m) 16384 then rmtree f child else os_remove child) w
                  = (inr tt, mk_world fs1 (trace w ++ tr1) (socks w))
               /\ map fst tr1 = postorder child m).
    { destruct m as [data|esk].
      - destruct (set_at_present (split_path directory) (Dir ((k, File data) :: rest))
                    (Some (Dir rest)) (fs w) Hne Hl) as [fs1 Hfs1].
        exists fs1, [(OpRemove child, fs1)]. split; [exact Hfs1|].
        split; [|reflexivity]. cbn [mode_of]. change (Z.eqb S_IFREG 16384) with false.
        cbv iota. unfold os_remove. apply fs_do_run. cbn [apply_op].
        unfold remove. rewrite Hlk, Hset. exact Hfs1.
      - destruct (Hch k (Dir esk) (or_introl eq_refl)) as [Hwf Hd].
        assert (Hne' : split_path child <> []).
        { rewrite Hsp. destruct (split_path directory); discriminate. }
        destruct (Hrec child w esk Hne' Hlk Hwf Hd) as (fs1 & tr1 & H1 & H2 & H3).
        exists fs1, tr1. rewrite <- Hset. split; [exact H1|].
        split; [exact H2 | exact H3]. }
    destruct Hfirst as (fs1 & tr1 & Hfs1 & Hrun1 & Htr1).
    set (w1 := mk_world fs1 (trace w ++ tr1) (socks w)) in *.
    assert (Hl1 : lookup (split_path directory) (fs w1) = Some (Dir rest))
      by exact (lookup_set_at_same _ _ _ _ Hfs1).
    assert (Hch' : forall k' m', In (k', m') rest -> wf m' = true /\ depth m' <= f)
      by (intros k' m' Hin; apply (Hch k'); now right).
    destruct (IH w1 Hl1 Hnd Hval Hch') as (fs2 & tr2 & Hfs2 & Hrun2 & Htr2).
    exists fs2, (tr1 ++ tr2). split.
    { rewrite <- Hfs2. symmetry. apply set_at_again with (Dir rest). exact Hfs1. }
    split.
    + cbn [map for_each fst snd]. fold child.
      rewrite (bind_ret _ _ _ _ _ Hrun1). rewrite Hrun2.
      subst w1. cbn [trace socks]. now rewrite app_assoc.
    + rewrite map_app, Htr1, Htr2. reflexivity.
Qed.

Lemma rmtree_run :
  forall fuel directory w es,
    split_path directory <> [] ->
    lookup (split_path directory) (fs w) = Some (Dir es) ->
    wf (Dir es) = true -> depth (Dir es) <= fuel ->
    rmtree_ok fuel directory w (Dir es).
Proof.
  induction fuel as [|f IH]; intros directory w es Hne Hl Hwf Hd.
  - cbn [depth] in Hd. lia.
  - destruct (wf_dir _ Hwf) as (Hnd & Hval & Hall).
    assert (Hch : forall k m, In (k, m) es -> wf m = true /\ depth m <= f).
    { intros k m Hin. split; [now apply Hall with k|].
      pose proof (depth_child k m es Hin). lia. }
    destruct (rmtree_loop f directory Hne IH es w Hl Hnd Hval Hch)
      as (fs1 & tr1 & Hfs1 & Hrun1 & Htr1).
    destruct (set_at_present (split_path directory) (Dir es) None (fs w) Hne Hl)
      as [fs' Hfs'].
    exists fs', (tr1 ++ [(OpRmdir directory, fs')]).
    split; [exact Hfs'|]. split.
    + cbn [rmtree].
      assert (Hls : os_ilistdir directory w
                    = (inr (map (fun e => (fst e, mode_of (snd e))) es), w)).
      { apply fs_get_run. unfold ilistdir. now rewrite Hl, (listed_all _ Hval). }
      rewrite (bind_ret _ _ _ _ _ Hls).
      rewrite (bind_ret _ _ _ _ _ Hrun1).
      unfold os_rmdir.
      rewrite (fs_do_run (OpRmdir directory) _ fs').
      * cbn [trace socks]. now rewrite app_assoc.
      * cbn [apply_op fs]. unfold rmdir.
        rewrite (lookup_set_at_same _ _ _ _ Hfs1).
        rewrite (set_at_again _ _ None _ _ Hfs1). exact Hfs'.
    + rewrite map_app, Htr1, postorder_dir. reflexivity.
Qed.

End Rmtree.

(** The effect of [rmtree] in terms of lookups. *)
Lemma rmtree_effect (fuel : nat) (directory : string) (w : World)
    (es : list (string * Vfs.node)) :
  Vfs.wf (fs w) = true ->
  Vfs.split_path directory <> [] ->
  Vfs.lookup (Vfs.split_path directory) (fs w) = Some (Vfs.Dir es) ->
  Vfs.depth (Vfs.Dir es) <= fuel ->
  exists w',
    rmtree fuel directory w = (inr tt, w')
    /\ (forall q, Vfs.lookup (Vfs.split_path directory ++ q) (fs w') = None)
    /\ (forall q, apart (Vfs.split_path directory) q = true ->
                  Vfs.lookup q (fs w') = Vfs.lookup q (fs w))
    /\ socks w' = socks w
    /\ exists tr, trace w' = trace w ++ tr
                  /\ map fst tr = postorder directory (Vfs.Dir es).
Proof.
  intros Hwf Hne Hl Hd.
  assert (Hwfd : Vfs.wf (Vfs.Dir es) = true) by exact (wf_lookup _ _ _ Hwf Hl).
  destruct (rmtree_run fuel directory w es Hne Hl Hwfd Hd)
    as (fs' & tr & Hfs' & Hrun & Htr).
  exists (mk_world fs' (trace w ++ tr) (socks w)).
  split; [exact Hrun|]. cbn [fs trace socks]. split.
  - intros q. rewrite lookup_app, (lookup_set_at_same _ _ _ _ Hfs'). reflexivity.
  - split; [intros q Hq; exact (lookup_set_at_apart _ _ _ _ _ Hfs' Hq)|].
    split; [reflexivity|]. now exists tr.
Qed.

(** C8.  On a well-formed file system, for a directory tree of any depth
    (the recursion budget being at least that depth), [rmtree] returns; the
    path and everything below it are absent afterwards, every path that is
    neither below nor above it is unchanged, and the removals it performed
    are exactly the post-order walk of the tree: [os.remove] for each entry
    whose type field is not 0x4000, for each directory its content first and
    then [os.rmdir] of the directory, the root last. *)
Theorem rmtree_removes_tree (fuel : nat) (directory : string) (w : World)
    (es : list (string * Vfs.node)) :
  Vfs.wf (fs w) = true ->
  Vfs.split_path directory <> [] ->
  Vfs.lookup (Vfs.split_path directory) (fs w) = Some (Vfs.Dir es) ->
  Vfs.depth (Vfs.Dir es) <= fuel ->
  exists w',
    rmtree fuel directory w = (inr tt, w')
    /\ (forall q, Vfs.lookup (Vfs.split_path directory ++ q) (fs w') = None)
    /\ (forall q, apart (Vfs.split_path directory) q = true ->
                  Vfs.lookup q (fs w') = Vfs.lookup q (fs w))
    /\ socks w' = socks w
    /\ exists tr, trace w' = trace w ++ tr
                  /\ map fst tr = postorder directory (Vfs.Dir es).
Proof. exact (rmtree_effect fuel directory w es). Qed.

Lemma rmtree_removes_tree_witness :
  let w := mk_world
             (Vfs.Dir [("main", Vfs.Dir [(".version", Vfs.File "v1.0");
                                         ("lib", Vfs.Dir [("a.py", Vfs.File "x");
                                                          ("deep", Vfs.Dir [])])]);
                       ("boot.py", Vfs.File "b")]) [] [] in
  exists w',
    rmtree 3 "main" w = (inr tt, w')
    /\ (forall q, Vfs.lookup (Vfs.split_path "main" ++ q) (fs w') = None)
    /\ (forall q, apart (Vfs.split_path "main") q = true ->
                  Vfs.lookup q (fs w') = Vfs.lookup q (fs w))
    /\ socks w' = socks w
    /\ exists tr, trace w' = trace w ++ tr
                  /\ map fst tr
                     = postorder "main"
                         (Vfs.Dir [(".version", Vfs.File "v1.0");
                                   ("lib", Vfs.Dir [("a.py", Vfs.File "x");
                                                    ("deep", Vfs.Dir [])])]).
Proof.
  intros w.
  apply (rmtree_removes_tree 3 "main" w);
    [reflexivity | discriminate | reflexivity | vm_compute; lia].
Defined.

Example rmtree_order :
  postorder "main"
    (Vfs.Dir [(".version", Vfs.File "v1.0");
              ("lib", Vfs.Dir [("a.py", Vfs.File "x"); ("deep", Vfs.Dir [])])])
  = [OpRemove "main/.version"; OpRemove "main/lib/a.py";
     OpRmdir "main/lib/deep"; OpRmdir "main/lib"; OpRmdir "main"].
Proof. reflexivity. Qed.

(* ------------------------------------------------------------------ *)
(** ** Applying a pending update *)
(* ------------------------------------------------------------------ *)

Section Apply.

Import Vfs.

Variable self : OTAUpdater.

Lemma split_path_module (x : string) :
  plain x = true ->
  split_path (get_module_and_path self x)
  = split_path (module_ self) ++ split_path x.
Proof.
  intros Hx. unfold get_module_and_path. destruct (module_ self) as [|c m] eqn:E.
  - reflexivity.
  - cbn [PyStr.truthy]. now apply split_path_join.
Qed.

Lemma next_dir_eq : next_dir self = split_path (module_ self) ++ ["next"].
Proof. unfold next_dir. now rewrite split_path_module. Qed.

Lemma marker_path_eq : marker_path self = next_dir self ++ [".version"].
Proof.
  unfold marker_path. rewrite split_path_module, next_dir_eq, <- app_assoc
    by reflexivity.
  reflexivity.
Qed.

Lemma live_dir_eq :
  valid_name (main_dir self) = true ->
  live_dir self = split_path (module_ self) ++ [main_dir self].
Proof.
  intros H. unfold live_dir.
  rewrite split_path_module by apply (valid_name_components _ H).
  now rewrite (split_path_name _ H).
Qed.

Lemma next_dir_nonempty : next_dir self <> [].
Proof. rewrite next_dir_eq. destruct (split_path (module_ self)); discriminate. Qed.

Lemma is_prefix_siblings p a b :
  is_prefix (p ++ [a]) (p ++ [b]) = String.eqb a b.
Proof.
  induction p as [|c p IH]; simpl.
  - apply andb_true_r.
  - now rewrite String.eqb_refl.
Qed.

Lemma apart_siblings p a b : a <> b -> apart (p ++ [a]) (p ++ [b]) = true.
Proof.
  intros H. unfold apart. rewrite !is_prefix_siblings.
  assert (E1 : String.eqb a b = false) by now apply String.eqb_neq.
  assert (E2 : String.eqb b a = false) by (apply String.eqb_neq; congruence).
  now rewrite E1, E2.
Qed.

Lemma apart_sym p q : apart p q = apart q p.
Proof. unfold apart. apply andb_comm. Qed.

Lemma lookup_parent p k r n :
  lookup (p ++ [k]) r = Some n ->
  exists es, lookup p r = Some (Dir es) /\ find k es = Some n.
Proof.
  rewrite lookup_app. destruct (lookup p r) as [[d|es]|]; try discriminate.
  cbn [lookup]. destruct (find k es) as [m|] eqn:E; [|discriminate].
  intros [= <-]. now exists es.
Qed.

Lemma path_exists_run (p : string) (w : World) :
  path_exists p w
  = (inr (match stat p (fs w) with Some _ => true | None => false end), w).
Proof.
  unfold path_exists, try_except_OSError, bind, os_stat, fs_get, ret.
  destruct (stat p (fs w)); reflexivity.
Qed.

Lemma os_listdir_run (p : string) (w : World) es :
  lookup (split_path p) (fs w) = Some (Dir es) ->
  os_listdir p w = (inr (map fst (listed es)), w).
Proof. intros H. apply fs_get_run. unfold listdir. now rewrite H. Qed.

Lemma get_version_run (directory : string) (w : World) es v :
  lookup (split_path directory) (fs w) = Some (Dir es) ->
  find ".version" es = Some (File v) ->
  get_version directory w = (inr (Some v), w).
Proof.
  intros Hl Hf. unfold get_version.
  rewrite (bind_ret _ _ _ _ _ (path_exists_run directory w)).
  unfold stat. rewrite Hl.
  rewrite (bind_ret _ _ _ _ _ (bind_ret _ _ _ _ _ (os_listdir_run directory w es Hl))).
  unfold ret at 1. rewrite mem_listed by reflexivity. rewrite mem_find, Hf.
  assert (Hr : open_read (directory ++ "/" ++ ".version") w = (inr v, w)).
  { apply fs_get_run. unfold read_file.
    rewrite (split_path_child directory ".version" eq_refl), lookup_app, Hl.
    cbn [lookup]. now rewrite Hf. }
  now rewrite (bind_ret _ _ _ _ _ Hr).
Qed.

(** The test at line 107 when the staging directory exists. *)
Lemma staging_found (w : World) es :
  lookup (next_dir self) (fs w) = Some (Dir es) ->
  path_exists (module_ self) w = (inr true, w)
  /\ bind (os_listdir (module_ self)) (fun l => ret (Py.mem "next" l)) w
     = (inr true, w).
Proof.
  rewrite next_dir_eq. intros H.
  destruct (lookup_parent _ _ _ _ H) as (esm & Hm & Hf). split.
  - rewrite path_exists_run. unfold stat. now rewrite Hm.
  - rewrite (bind_ret _ _ _ _ _ (os_listdir_run _ w esm Hm)).
    unfold ret. rewrite mem_listed by reflexivity. now rewrite mem_find, Hf.
Qed.

End Apply.

(** C3.  When the staging directory exists and has no ['.version'] entry,
    [apply_pending_updates_if_available] returns, the staging path and
    everything below it are absent afterwards, and the live tree (the whole
    subtree at the live path, or its absence) is exactly what it was; so is
    every other path outside the staging tree.  The live path is assumed
    not to lie inside or above the staging directory. *)
Theorem apply_discards_unmarked_staging (self : OTAUpdater) (fuel : nat)
    (w : World) (es : list (string * Vfs.node)) :
  Vfs.wf (fs w) = true ->
  Vfs.lookup (next_dir self) (fs w) = Some (Vfs.Dir es) ->
  Py.mem ".version" (map fst es) = false ->
  Vfs.depth (Vfs.Dir es) <= fuel ->
  apart (next_dir self) (live_dir self) = true ->
  exists w',
    apply_pending_updates_if_available self fuel w = (inr tt, w')
    /\ (forall q, Vfs.lookup (next_dir self ++ q) (fs w') = None)
    /\ Vfs.lookup (live_dir self) (fs w') = Vfs.lookup (live_dir self) (fs w)
    /\ (forall q, apart (next_dir self) q = true ->
                  Vfs.lookup q (fs w') = Vfs.lookup q (fs w)).
Proof.
  intros Hwf Hl Hmem Hd Hap.
  destruct (rmtree_effect fuel (get_module_and_path self "next") w es
              Hwf (next_dir_nonempty self) Hl Hd)
    as (w' & Hrun & Hgone & Hframe & _).
  exists w'. split; [|split; [exact Hgone | split; [now apply Hframe | exact Hframe]]].
  unfold apply_pending_updates_if_available.
  destruct (staging_found self w es Hl) as [H1 H2].
  rewrite (bind_ret _ _ _ _ _ H1). rewrite (bind_ret _ _ _ _ _ H2).
  rewrite (bind_ret _ _ _ _ _ (os_listdir_run _ w es Hl)).
  rewrite (mem_listed_false _ _ Hmem). exact Hrun.
Qed.

Lemma apply_discards_unmarked_staging_witness :
  let self := mk_updater "https://api.github.com/repos/u/r" "main" "" in
  let w := mk_world
             (Vfs.Dir [("main", Vfs.Dir [(".version", Vfs.File "v1.0");
                                         ("a.py", Vfs.File "old")]);
                       ("next", Vfs.Dir [("a.py", Vfs.File "new");
                                         ("sub", Vfs.Dir [("b.py", Vfs.File "")])])])
             [] [] in
  exists w',
    apply_pending_updates_if_available self 2 w = (inr tt, w')
    /\ (forall q, Vfs.lookup (next_dir self ++ q) (fs w') = None)
    /\ Vfs.lookup (live_dir self) (fs w') = Vfs.lookup (live_dir self) (fs w)
    /\ (forall q, apart (next_dir self) q = true ->
                  Vfs.lookup q (fs w') = Vfs.lookup q (fs w)).
Proof.
  intros self w.
  apply (apply_discards_unmarked_staging self 2 w
           [("a.py", Vfs.File "new"); ("sub", Vfs.Dir [("b.py", Vfs.File "")])]);
    [reflexivity | reflexivity | reflexivity | vm_compute; lia | reflexivity].
Defined.

(** C2 (as amended).  When the staging directory holds a ['.version'] file
    with content [v] (on a well-formed file system),
    [apply_pending_updates_if_available] returns; it first removes the
    live tree, if there is one, in post order, and its last step is the
    rename of the staging directory to the live path.  Afterwards the live
    path holds exactly the former staging tree, the staging path is absent,
    the version read from the live tree is [v], and paths outside both trees
    are unchanged.  [main_dir] is assumed to be a single name other than
    ['next'], and the live path, if present, to be a directory. *)
Theorem apply_promotes_marked_staging (self : OTAUpdater) (fuel : nat)
    (w : World) (es : list (string * Vfs.node)) (v : string) :
  Vfs.wf (fs w) = true ->
  Vfs.valid_name (main_dir self) = true ->
  main_dir self <> "next" ->
  Vfs.lookup (next_dir self) (fs w) = Some (Vfs.Dir es) ->
  Vfs.find ".version" es = Some (Vfs.File v) ->
  (forall data, Vfs.lookup (live_dir self) (fs w) <> Some (Vfs.File data)) ->
  (forall n, Vfs.lookup (live_dir self) (fs w) = Some n -> Vfs.depth n <= fuel) ->
  exists w',
    apply_pending_updates_if_available self fuel w = (inr tt, w')
    /\ Vfs.lookup (live_dir self) (fs w') = Some (Vfs.Dir es)
    /\ Vfs.lookup (next_dir self) (fs w') = None
    /\ get_version (get_module_and_path self (main_dir self)) w'
       = (inr (Some v), w')
    /\ (forall q, apart (next_dir self) q = true ->
                  apart (live_dir self) q = true ->
                  Vfs.lookup q (fs w') = Vfs.lookup q (fs w))
    /\ exists tr,
         trace w'
         = trace w ++ tr
           ++ [(OpRename (get_module_and_path self "next")
                         (get_module_and_path self (main_dir self)), fs w')]
         /\ map fst tr
            = match Vfs.lookup (live_dir self) (fs w) with
              | Some n => postorder (get_module_and_path self (main_dir self)) n
              | None => []
              end.
Proof.
  intros Hwf Hvalid Hnext Hl Hmark Hnofile Hdepth.
  set (live := get_module_and_path self (main_dir self)).
  set (next := get_module_and_path self "next").
  assert (Hlive : live_dir self = Vfs.split_path (module_ self) ++ [main_dir self])
    by now apply live_dir_eq.
  assert (Hap : apart (live_dir self) (next_dir self) = true).
  { rewrite Hlive, next_dir_eq. now apply apart_siblings. }
  (* the removal of the live tree *)
  assert (Hrm : exists fs1 tr,
             bind (path_exists live) (fun e => when e (rmtree fuel live)) w
             = (inr tt, mk_world fs1 (trace w ++ tr) (socks w))
             /\ Vfs.lookup (live_dir self) fs1 = None
             /\ (forall q, apart (live_dir self) q = true ->
                           Vfs.lookup q fs1 = Vfs.lookup q (fs w))
             /\ map fst tr
                = match Vfs.lookup (live_dir self) (fs w) with
                  | Some n => postorder live n
                  | None => []
                  end).
  { rewrite (bind_ret _ _ _ _ _ (path_exists_run live w)).
    unfold Vfs.stat. change (Vfs.split_path live) with (live_dir self).
    destruct (Vfs.lookup (live_dir self) (fs w)) as [[data|les]|] eqn:El.
    - exfalso. now apply (Hnofile data).
    - assert (Hne : Vfs.split_path live <> []).
      { change (Vfs.split_path live) with (live_dir self). rewrite Hlive.
        destruct (Vfs.split_path (module_ self)); discriminate. }
      destruct (rmtree_run fuel live w les Hne El
                  (wf_lookup _ _ _ Hwf El) (Hdepth _ eq_refl))
        as (fs1 & tr & Hfs1 & Hrun & Htr).
      exists fs1, tr. split; [exact Hrun|].
      split; [exact (lookup_set_at_same _ _ _ _ Hfs1)|].
      split; [|exact Htr].
      intros q Hq. exact (lookup_set_at_apart _ _ _ _ _ Hfs1 Hq).
    - exists (fs w), []. cbn [when]. unfold ret. rewrite app_nil_r.
      split; [now destruct w|]. split; [exact El|]. split; [auto | reflexivity]. }
  destruct Hrm as (fs1 & tr & Hrun1 & Hgone1 & Hframe1 & Htr).
  (* the rename *)
  assert (Hl1 : Vfs.lookup (next_dir self) fs1 = Some (Vfs.Dir es))
    by (rewrite (Hframe1 _ Hap); exact Hl).
  destruct (set_at_present (next_dir self) (Vfs.Dir es) None fs1
              (next_dir_nonempty self) Hl1) as [fs2 Hfs2].
  assert (Hgone2 : Vfs.lookup (live_dir self) fs2 = None).
  { rewrite (lookup_set_at_apart _ _ _ _ _ Hfs2); [exact Hgone1|].
    now rewrite apart_sym. }
  assert (Hparent : exists esm, Vfs.lookup (Vfs.split_path (module_ self)) fs2
                                = Some (Vfs.Dir esm)).
  { rewrite next_dir_eq in Hl1, Hfs2.
    destruct (lookup_parent _ _ _ _ Hl1) as (esm & Hm & _).
    destruct (set_at_in_dir _ "next" None _ _ Hm) as (r' & Hr' & Hlr').
    rewrite Hfs2 in Hr'. injection Hr' as <-. eauto. }
  destruct Hparent as [esm Hesm].
  destruct (set_at_in_dir _ (main_dir self) (Some (Vfs.Dir es)) _ _ Hesm)
    as (fs3 & Hfs3 & _).
  rewrite <- Hlive in Hfs3.
  assert (Hren : Vfs.rename next live fs1 = Some fs3).
  { unfold Vfs.rename.
    change (Vfs.split_path live) with (live_dir self).
    change (Vfs.split_path next) with (next_dir self).
    now rewrite Hl1, Hfs2, Hgone2. }
  assert (Hl3 : Vfs.lookup (live_dir self) fs3 = Some (Vfs.Dir es))
    by exact (lookup_set_at_same _ _ _ _ Hfs3).
  exists (mk_world fs3 ((trace w ++ tr) ++ [(OpRename next live, fs3)]) (socks w)).
  cbn [fs trace]. split.
  { unfold apply_pending_updates_if_available.
    destruct (staging_found self w es Hl) as [H1 H2].
    rewrite (bind_ret _ _ _ _ _ H1). rewrite (bind_ret _ _ _ _ _ H2).
    rewrite (bind_ret _ _ _ _ _ (os_listdir_run _ w es Hl)).
    rewrite mem_listed by reflexivity. rewrite mem_find, Hmark.
    rewrite (bind_ret _ _ _ _ _ (get_version_run _ w es v Hl Hmark)).
    fold live. fold next.
    destruct (bind_inv _ _ _ _ _ Hrun1) as [(e & _ & He)|(a & w1 & Ha & Hb)];
      [discriminate|].
    rewrite (bind_ret _ _ _ _ _ Ha). rewrite (bind_ret _ _ _ _ _ Hb).
    unfold os_rename, fs_do. cbn [fs trace socks apply_op].
    rewrite Hren. reflexivity. }
  split; [exact Hl3|]. split.
  { rewrite (lookup_set_at_apart _ _ _ _ _ Hfs3 Hap).
    exact (lookup_set_at_same _ _ _ _ Hfs2). }
  split.
  { apply get_version_run with es; [exact Hl3 | exact Hmark]. }
  split.
  { intros q Hq1 Hq2.
    rewrite (lookup_set_at_apart _ _ _ _ _ Hfs3 Hq2).
    rewrite (lookup_set_at_apart _ _ _ _ _ Hfs2 Hq1). now apply Hframe1. }
  exists tr. split; [now rewrite <- app_assoc | exact Htr].
Qed.

Lemma apply_promotes_marked_staging_witness :
  let self := mk_updater "https://api.github.com/repos/u/r" "main" "app" in
  let staged := [("a.py", Vfs.File "new");
                 ("sub", Vfs.Dir [("b.py", Vfs.File "")]);
                 (".version", Vfs.File "v1.2")] in
  let w := mk_world
             (Vfs.Dir [("app", Vfs.Dir [("main", Vfs.Dir [(".version", Vfs.File "v1.0");
                                                          ("old", Vfs.Dir [("x", Vfs.File "")])]);
                                        ("next", Vfs.Dir staged)])])
             [] [] in
  exists w',
    apply_pending_updates_if_available self 3 w = (inr tt, w')
    /\ Vfs.lookup (live_dir self) (fs w') = Some (Vfs.Dir staged)
    /\ Vfs.lookup (next_dir self) (fs w') = None
    /\ get_version (get_module_and_path self (main_dir self)) w'
       = (inr (Some "v1.2"), w')
    /\ (forall q, apart (next_dir self) q = true ->
                  apart (live_dir self) q = true ->
                  Vfs.lookup q (fs w') = Vfs.lookup q (fs w))
    /\ exists tr,
         trace w'
         = trace w ++ tr
           ++ [(OpRename (get_module_and_path self "next")
                         (get_module_and_path self (main_dir self)), fs w')]
         /\ map fst tr
            = match Vfs.lookup (live_dir self) (fs w) with
              | Some n => postorder (get_module_and_path self (main_dir self)) n
              | None => []
              end.
Proof.
  intros self staged w.
  apply (apply_promotes_marked_staging self 3 w staged "v1.2");
    [reflexivity | reflexivity | discriminate | reflexivity | reflexivity
    | intros data; vm_compute; discriminate
    | intros n; vm_compute; intros [= <-]; vm_compute; lia].
Defined.

(** C2, refuted as stated: three states in which the staging directory holds
    a readable marker and the staging tree is not promoted.  The live path
    names a regular file: [os.ilistdir] in [rmtree] raises.  [main_dir] is
    ['src/main'] and there is no ['src']: [os.rename] raises.  [main_dir] is
    ['next']: [rmtree] removes the staging tree itself, and [os.rename]
    raises. *)
Lemma marked_staging_not_promoted :
  let marked := Vfs.Dir [(".version", Vfs.File "v1.2"); ("a.py", Vfs.File "new")] in
  (let self := mk_updater "r" "main" "" in
   let w := mk_world (Vfs.Dir [("main", Vfs.File "x"); ("next", marked)]) [] [] in
   apply_pending_updates_if_available self 3 w = (inl OSError, w))
  /\ (let self := mk_updater "r" "src/main" "" in
      let w := mk_world (Vfs.Dir [("next", marked)]) [] [] in
      apply_pending_updates_if_available self 3 w = (inl OSError, w))
  /\ (let self := mk_updater "r" "next" "" in
      let w := mk_world (Vfs.Dir [("next", marked)]) [] [] in
      exists w',
        apply_pending_updates_if_available self 3 w = (inl OSError, w')
        /\ fs w' = Vfs.Dir []
        /\ map fst (trace w')
           = [OpRemove "next/.version"; OpRemove "next/a.py"; OpRmdir "next"]).
Proof.
  intros marked. split; [reflexivity|]. split; [reflexivity|].
  eexists. split; [vm_compute; reflexivity|]. split; reflexivity.
Qed.

(* ------------------------------------------------------------------ *)
(** ** Sockets and the HTTP exchange *)
(* ------------------------------------------------------------------ *)

Section Keeping.

Context {S : Type} (R : S -> S -> Prop).
Hypothesis R_refl : forall s, R s s.
Hypothesis R_trans : forall a b c, R a b -> R b c -> R a c.

Lemma keeps_ret {A : Type} (a : A) : keeps R (ret a).
Proof. intros s r s' [= <- <-]. apply R_refl. Qed.

Lemma keeps_raise {A : Type} (e : exn) : keeps R (@raise S A e).
Proof. intros s r s' [= <- <-]. apply R_refl. Qed.

Lemma keeps_lift {A : Type} (x : result A) : keeps R (lift x).
Proof. intros s r s' [= <- <-]. apply R_refl. Qed.

Lemma keeps_bind {A B : Type} (c : ST S A) (k : A -> ST S B) :
  keeps R c -> (forall a, keeps R (k a)) -> keeps R (bind c k).
Proof.
  intros Hc Hk s r s' H.
  destruct (bind_inv _ _ _ _ _ H) as [(e & He & _)|(a & s1 & Ha & Hb)].
  - exact (Hc _ _ _ He).
  - exact (R_trans _ _ _ (Hc _ _ _ Ha) (Hk a _ _ _ Hb)).
Qed.

Lemma keeps_when (b : bool) (c : ST S unit) : keeps R c -> keeps R (when b c).
Proof. destruct b; [auto | intros _; apply keeps_ret]. Qed.

Lemma keeps_for_each {A : Type} (xs : list A) (body : A -> ST S unit) :
  (forall x, keeps R (body x)) -> keeps R (for_each xs body).
Proof.
  intros Hb. induction xs as [|x xs IH]; cbn [for_each].
  - apply keeps_ret.
  - apply keeps_bind; [apply Hb | intros _; exact IH].
Qed.

Lemma keeps_try {A : Type} (c h : ST S A) :
  keeps R c -> keeps R h -> keeps R (try_except_OSError c h).
Proof.
  intros Hc Hh s r s'. unfold try_except_OSError.
  destruct (c s) as [[e|a] s1] eqn:E.
  - destruct e; try (intros [= <- <-]; exact (Hc _ _ _ E)).
    intros H. exact (R_trans _ _ _ (Hc _ _ _ E) (Hh _ _ _ H)).
  - intros [= <- <-]. exact (Hc _ _ _ E).
Qed.

End Keeping.

Section SocketFacts.

Lemma healthy_not_faulty s : healthy s -> Net.faulty s = false.
Proof. intros [Hc Hf]. unfold Net.faulty. now rewrite Hc, Hf. Qed.

Lemma sent_refl s : sent [] s s.
Proof. unfold sent. now rewrite app_nil_r. Qed.

Lemma sent_trans d1 d2 s s1 s2 :
  sent d1 s s1 -> sent d2 s1 s2 -> sent (d1 ++ d2) s s2.
Proof.
  intros (A1 & A2 & A3 & A4 & A5) (B1 & B2 & B3 & B4 & B5).
  unfold sent. rewrite B1, B2, B3, B4, B5, A2, app_assoc. auto.
Qed.

Lemma sent_healthy ds s s' : sent ds s s' -> healthy s -> healthy s'.
Proof. intros (A1 & _ & _ & _ & A5) [Hc Hf]. split; congruence. Qed.

Lemma only_lines_refl s : only_lines s s.
Proof. unfold only_lines. auto. Qed.

Lemma only_lines_trans a b c : only_lines a b -> only_lines b c -> only_lines a c.
Proof.
  intros (A1 & A2 & A3 & A4) (B1 & B2 & B3 & B4).
  unfold only_lines. repeat split; congruence.
Qed.

Lemma sends_ret {A : Type} (a : A) : sends [] (ret a) a.
Proof. intros s _. exists s. split; [reflexivity | apply sent_refl]. Qed.

Lemma sends_bind {A B : Type} d1 d2 (c : ST sock A) (k : A -> ST sock B) a b :
  sends d1 c a -> sends d2 (k a) b -> sends (d1 ++ d2) (bind c k) b.
Proof.
  intros Hc Hk s Hs. destruct (Hc s Hs) as (s1 & E1 & S1).
  destruct (Hk s1 (sent_healthy _ _ _ S1 Hs)) as (s2 & E2 & S2).
  exists s2. split; [now rewrite (bind_ret _ _ _ _ _ E1) | now apply sent_trans with s1].
Qed.

Lemma sends_seq {B : Type} d1 d2 (c : ST sock unit) (k : unit -> ST sock B) b :
  sends d1 c tt -> sends d2 (k tt) b -> sends (d1 ++ d2) (bind c k) b.
Proof. apply sends_bind. Qed.

Lemma sends_io_quiet (f : sock -> unit * sock) :
  (forall s, sent [] s (snd (f s))) -> sends [] (Net.io f) tt.
Proof.
  intros Hf s Hs. unfold Net.io. rewrite (healthy_not_faulty _ Hs).
  specialize (Hf (Net.bump s)). destruct (f (Net.bump s)) as [[] s'].
  exists s'. split; [reflexivity|]. exact Hf.
Qed.

Lemma sends_settimeout t : sends [] (Net.settimeout t) tt.
Proof.
  apply sends_io_quiet. intros s. unfold sent. cbn. now rewrite app_nil_r.
Qed.

Lemma sends_connect : sends [] Net.connect tt.
Proof. apply sends_io_quiet. intros s. apply sent_refl. Qed.

Lemma sends_wrap_socket : sends [] Net.wrap_socket tt.
Proof.
  apply sends_io_quiet. intros s. unfold sent. cbn. now rewrite app_nil_r.
Qed.

Lemma sends_write d : sends [d] (Net.write d) tt.
Proof.
  intros s Hs. unfold Net.write, Net.io. rewrite (healthy_not_faulty _ Hs).
  eexists. split; [reflexivity|]. unfold sent. cbn. auto.
Qed.

Lemma sends_when (b : bool) ds (c : ST sock unit) :
  sends ds c tt -> sends (if b then ds else []) (when b c) tt.
Proof. destruct b; [auto | intros _; apply sends_ret]. Qed.

Lemma sends_write_headers headers :
  sends (caller_headers headers) (write_headers headers) tt.
Proof.
  unfold write_headers, caller_headers.
  induction headers as [|[k v] hs IH]; cbn [for_each flat_map fst snd].
  - apply sends_ret.
  - apply (sends_seq [k; ": "; v; CRLF]); [|exact IH].
    apply (sends_seq [k] [": "; v; CRLF]); [apply sends_write|].
    apply (sends_seq [": "] [v; CRLF]); [apply sends_write|].
    apply (sends_seq [v] [CRLF]); apply sends_write.
Qed.

Lemma sends_send_request env method_ host path data json_ headers :
  json_ = None \/ data = None ->
  sends (wire_chunks env method_ host path data json_ headers)
        (send_request env method_ host path data json_ headers) tt.
Proof.
  intros Hdj. unfold send_request, wire_chunks.
  apply sends_seq; [apply sends_write|].
  apply sends_seq.
  { unfold host_header. destruct (Py.has_key "Host" headers); cbn [negb when].
    - apply sends_ret.
    - apply sends_write. }
  apply sends_seq; [apply sends_write_headers|].
  unfold user_agent.
  apply (sends_seq ["User-Agent"]); [apply sends_write|].
  apply (sends_seq [": "]); [apply sends_write|].
  apply (sends_seq ["MicroPython OTAUpdater"]); [apply sends_write|].
  apply (sends_seq [CRLF]); [apply sends_write|].
  apply (sends_bind (content_type json_) _ _ _
           (match json_ with
            | Some j => Some (ujson_dumps env j)
            | None => data
            end)).
  { destruct json_ as [j|]; cbn [content_type].
    - destruct Hdj as [Hj| ->]; [discriminate|].
      rewrite <- (app_nil_r [_]).
      apply sends_seq; [apply sends_write | apply sends_ret].
    - apply sends_ret. }
  assert (Hb : match match json_ with
                     | Some j => Some (ujson_dumps env j)
                     | None => data
                     end with
               | Some d => d
               | None => ""
               end = wire_body env data json_).
  { unfold wire_body. destruct json_; [reflexivity | destruct data; reflexivity]. }
  assert (Ht : match match json_ with
                     | Some j => Some (ujson_dumps env j)
                     | None => data
                     end with
               | Some d => PyStr.truthy d
               | None => false
               end = PyStr.truthy (wire_body env data json_)).
  { unfold wire_body. destruct json_; [reflexivity | destruct data; reflexivity]. }
  cbv zeta. rewrite Hb, Ht.
  apply sends_seq.
  { unfold content_length. apply sends_when, sends_write. }
  apply sends_seq; [apply sends_write|].
  unfold body_chunk. apply sends_when, sends_write.
Qed.

End SocketFacts.

Section ReadingFacts.

Lemma drop_add a b s : Net.drop (a + b) s = Net.drop b (Net.drop a s).
Proof.
  revert s; induction a as [|a IH]; intros s; [reflexivity|].
  destruct s as [|c s]; cbn [Nat.add Net.drop]; [now destruct b | apply IH].
Qed.

Lemma drop_app_length l r : Net.drop (String.length l) (l ++ r) = r.
Proof. induction l as [|c l IH]; [reflexivity | exact IH]. Qed.

Lemma take_line_line l rest :
  is_line l = true -> Net.take_line (l ++ rest) = l.
Proof.
  induction l as [|c l IH]; cbn [is_line]; [discriminate|].
  cbn [append Net.take_line]. destruct (Ascii.eqb c "010").
  - destruct l; [reflexivity | discriminate].
  - intros H. now rewrite IH.
Qed.

Lemma is_line_truthy l : is_line l = true -> PyStr.truthy l = true.
Proof. destruct l; [discriminate | reflexivity]. Qed.

Lemma concat_cons h hs :
  String.concat "" (h :: hs) = (h ++ String.concat "" hs)%string.
Proof. cbn [String.concat]. destruct hs; [now rewrite append_nil_r | reflexivity]. Qed.

Lemma is_lines_length hs :
  Forall (fun h => is_line h = true) hs ->
  List.length hs <= String.length (String.concat "" hs).
Proof.
  induction 1 as [|h hs Hh _ IH]; [simpl; lia|].
  rewrite concat_cons, append_length.
  destruct h; [discriminate|]. cbn [List.length String.length]. lia.
Qed.

Lemma keeps_io_lines {A : Type} (f : sock -> A * sock) :
  (forall s, only_lines s (snd (f s))) -> keeps only_lines (Net.io f).
Proof.
  intros Hf s r s'. unfold Net.io. destruct (Net.faulty s).
  - intros [= <- <-]. unfold only_lines. cbn. auto.
  - specialize (Hf (Net.bump s)). destruct (f (Net.bump s)) as [a s1].
    intros [= <- <-]. exact Hf.
Qed.

Lemma keeps_readline : keeps only_lines Net.readline.
Proof. apply keeps_io_lines. intros s. unfold only_lines. cbn. auto. Qed.

Lemma keeps_unread : keeps only_lines Net.unread.
Proof. intros s r s' [= <- <-]. apply only_lines_refl. Qed.

Lemma keeps_read_headers fuel status : keeps only_lines (read_headers fuel status).
Proof.
  induction fuel as [|f IH]; cbn [read_headers].
  - apply keeps_raise, only_lines_refl.
  - apply keeps_bind; [exact only_lines_trans | apply keeps_readline|].
    intros l. destruct (negb (PyStr.truthy l) || String.eqb l CRLF).
    + apply keeps_ret, only_lines_refl.
    + apply keeps_bind; [exact only_lines_trans| |intros _; exact IH].
      apply keeps_lift, only_lines_refl.
Qed.

Lemma keeps_read_response : keeps only_lines read_response.
Proof.
  unfold read_response.
  apply keeps_bind; [exact only_lines_trans | apply keeps_readline|]. intros l.
  apply keeps_bind; [exact only_lines_trans | apply keeps_lift, only_lines_refl|].
  intros [status reason_].
  apply keeps_bind; [exact only_lines_trans | apply keeps_unread|]. intros n.
  apply keeps_bind; [exact only_lines_trans | apply keeps_read_headers|]. intros _.
  apply keeps_ret, only_lines_refl.
Qed.

Lemma only_lines_healthy s s' : only_lines s s' -> healthy s -> healthy s'.
Proof. intros (A1 & _ & _ & A4) [Hc Hf]. split; congruence. Qed.

Lemma only_lines_incoming s s' : only_lines s s' -> Net.incoming s' = Net.incoming s.
Proof. intros (A1 & A2 & _). unfold Net.incoming. now rewrite A1, A2. Qed.

(** Reading a complete line. *)
Lemma readline_run s l rest :
  healthy s -> Net.pending s = (l ++ rest)%string -> is_line l = true ->
  exists s', Net.readline s = (inr l, s')
             /\ Net.pending s' = rest /\ only_lines s s'.
Proof.
  intros Hs Hp Hl.
  destruct (Net.readline s) as [r s'] eqn:E.
  pose proof (keeps_readline _ _ _ E) as Hk.
  unfold Net.readline, Net.io in E. rewrite (healthy_not_faulty _ Hs) in E.
  assert (Hpb : Net.pending (Net.bump s) = (l ++ rest)%string) by exact Hp.
  rewrite Hpb, (take_line_line _ _ Hl) in E. injection E as <- <-.
  eexists. split; [reflexivity|]. split; [|exact Hk].
  unfold Net.pending, Net.incoming in *. cbn in *.
  rewrite drop_add, Hp. apply drop_app_length.
Qed.

Lemma check_header_passes status l :
  passes status l = true -> check_header status l = inr tt.
Proof.
  unfold passes, declares_chunked, redirects, check_header. intros H.
  apply andb_true_iff in H as [H Hr]. apply andb_true_iff in H as [_ Hc].
  apply negb_true_iff in Hr, Hc.
  destruct (PyStr.startswith "Transfer-Encoding:" l).
  - cbn [andb] in Hc. now rewrite Hc.
  - now rewrite Hr.
Qed.

Lemma check_header_blank status : check_header status CRLF = inr tt.
Proof. reflexivity. Qed.

Lemma transfer_encoding_not_location l :
  PyStr.startswith "Transfer-Encoding:" l = true ->
  PyStr.startswith "Location:" l = false.
Proof.
  destruct l as [|c l]; [discriminate|]. cbn [PyStr.startswith].
  intros H. apply andb_true_iff in H as [H _].
  apply Ascii.eqb_eq in H. subst c. reflexivity.
Qed.

Lemma check_header_rejects status l :
  declares_chunked l = true \/ redirects status l = true ->
  exists e, check_header status l = inl e /\ e <> OSError
            /\ (redirects status l = true -> e = NotImplementedError).
Proof.
  unfold declares_chunked, redirects, check_header. intros [H|H].
  - apply andb_true_iff in H as [E1 E2].
    rewrite (transfer_encoding_not_location _ E1), E1, E2. cbn [Py.add andb].
    exists TypeError. repeat split; discriminate.
  - destruct (PyStr.startswith "Transfer-Encoding:" l) eqn:E1.
    + rewrite (transfer_encoding_not_location _ E1) in H. discriminate.
    + rewrite H. exists NotImplementedError. repeat split; discriminate.
Qed.

(** The header loop over lines it passes, up to a line it rejects. *)
Lemma read_headers_rejects status e bad rest :
  is_line bad = true -> check_header status bad = inl e ->
  forall hs fuel s,
    healthy s ->
    Net.pending s = (String.concat "" hs ++ bad ++ rest)%string ->
    Forall (fun h => passes status h = true) hs ->
    List.length hs < fuel ->
    exists s', read_headers fuel status s = (inl e, s') /\ only_lines s s'.
Proof.
  intros Hbl Hbad. induction hs as [|h hs IH]; intros fuel s Hs Hp Hall Hf.
  - destruct fuel as [|f]; [cbn in Hf; lia|]. cbn [read_headers].
    cbn [String.concat append] in Hp.
    destruct (readline_run s bad rest Hs Hp Hbl) as (s1 & E1 & _ & K1).
    rewrite (bind_ret _ _ _ _ _ E1).
    rewrite (is_line_truthy _ Hbl). cbn [negb orb].
    destruct (String.eqb bad CRLF) eqn:Eb.
    + apply String.eqb_eq in Eb. subst bad. discriminate.
    + exists s1. split; [|exact K1]. unfold bind, lift. now rewrite Hbad.
  - destruct fuel as [|f]; [cbn in Hf; lia|]. cbn [read_headers].
    inversion Hall as [|? ? Hh Hall']; subst.
    rewrite concat_cons, append_assoc in Hp.
    pose proof Hh as Hh'. unfold passes in Hh'.
    apply andb_true_iff in Hh' as [Hh' _]. apply andb_true_iff in Hh' as [Hh' _].
    apply andb_true_iff in Hh' as [Hline Hnb]. apply negb_true_iff in Hnb.
    destruct (readline_run s h _ Hs Hp Hline) as (s1 & E1 & P1 & K1).
    rewrite (bind_ret _ _ _ _ _ E1).
    rewrite (is_line_truthy _ Hline), Hnb. cbn [negb orb].
    destruct (IH f s1 (only_lines_healthy _ _ K1 Hs) P1 Hall') as (s2 & E2 & K2);
      [cbn in Hf; lia|].
    exists s2. split; [|exact (only_lines_trans _ _ _ K1 K2)].
    unfold bind at 1, lift. rewrite (check_header_passes _ _ Hh). exact E2.
Qed.

Lemma read_response_rejects status reason_ e sl hs bad rest s :
  healthy s ->
  Net.pending s = (sl ++ String.concat "" hs ++ bad ++ rest)%string ->
  is_line sl = true -> parse_status sl = inr (status, reason_) ->
  Forall (fun h => passes status h = true) hs ->
  is_line bad = true -> check_header status bad = inl e ->
  exists s', read_response s = (inl e, s') /\ only_lines s s'.
Proof.
  intros Hs Hp Hsl Hst Hall Hbl Hbad. unfold read_response.
  destruct (readline_run s sl _ Hs Hp Hsl) as (s1 & E1 & P1 & K1).
  rewrite (bind_ret _ _ _ _ _ E1).
  unfold bind at 1, lift. rewrite Hst.
  unfold bind at 1, Net.unread.
  destruct (read_headers_rejects status e bad rest Hbl Hbad hs
              (S (String.length (Net.pending s1))) s1
              (only_lines_healthy _ _ K1 Hs) P1 Hall) as (s2 & E2 & K2).
  { rewrite P1, append_length.
    assert (Hpl : Forall (fun h => is_line h = true) hs).
    { eapply Forall_impl; [|exact Hall]. intros h Hh. unfold passes in Hh.
      apply andb_true_iff in Hh as [Hh _]. apply andb_true_iff in Hh as [Hh _].
      now apply andb_true_iff in Hh as [Hh _]. }
    pose proof (is_lines_length hs Hpl). lia. }
  exists s2. split; [|exact (only_lines_trans _ _ _ K1 K2)].
  now rewrite (bind_raise _ _ _ _ _ E2).
Qed.

End ReadingFacts.

Section RequestFacts.

Variable env : Env.

Lemma nth_error_last {A : Type} (l : list A) (x : A) :
  nth_error (l ++ [x]) (List.length l) = Some x.
Proof. induction l as [|y l IH]; [reflexivity | exact IH]. Qed.

Lemma set_nth_last {A : Type} (l : list A) (x y : A) :
  set_nth (List.length l) y (l ++ [x]) = l ++ [y].
Proof. induction l as [|z l IH]; [reflexivity | cbn; now rewrite IH]. Qed.

(** Socket code run on the newest socket of the store. *)
Lemma on_sock_last {A : Type} (c : ST sock A) f t l s :
  on_sock (List.length l) c (mk_world f t (l ++ [s]))
  = (fst (c s), mk_world f t (l ++ [snd (c s)])).
Proof.
  unfold on_sock. cbn [socks fs trace]. rewrite nth_error_last.
  destruct (c s) as [r s']. now rewrite set_nth_last.
Qed.

(** [request], once the URL is parsed and the host resolved, is the
    exchange on a fresh socket followed by the hand-over or the handler. *)
Lemma request_run method_ url data json_ headers w proto host port path pl :
  parse_url url = inr (proto, host, port, path) ->
  server env host port = Some pl ->
  request env method_ url data json_ headers w
  = request_outcome (List.length (socks w)) w
      (exchange env proto method_ host path data json_ headers (Net.fresh pl)).
Proof.
  intros Hu Hs. unfold request.
  unfold bind at 1, lift. rewrite Hu.
  unfold bind at 1, getaddrinfo. rewrite Hs. unfold ret at 1.
  unfold bind at 1, socket.
  unfold bind at 1, try_except_OSError.
  rewrite on_sock_last.
  destruct (exchange env proto method_ host path data json_ headers (Net.fresh pl))
    as [[e|[status reason_]] s'].
  - cbn [fst snd request_outcome]. destruct e; try reflexivity.
    unfold bind. rewrite on_sock_last. reflexivity.
  - reflexivity.
Qed.

(** The exchange on a healthy socket writes the whole request, then reads
    the response. *)
Lemma exchange_split proto method_ host path data json_ headers s :
  healthy s -> json_ = None \/ data = None ->
  exists s1,
    sent (wire_chunks env method_ host path data json_ headers) s s1
    /\ exchange env proto method_ host path data json_ headers s
       = read_response s1.
Proof.
  intros Hs Hdj. unfold exchange.
  destruct (sends_settimeout 5 s Hs) as (s1 & E1 & S1).
  rewrite (bind_ret _ _ _ _ _ E1).
  pose proof (sent_healthy _ _ _ S1 Hs) as H1.
  destruct (sends_connect s1 H1) as (s2 & E2 & S2).
  rewrite (bind_ret _ _ _ _ _ E2).
  pose proof (sent_healthy _ _ _ S2 H1) as H2.
  destruct (sends_when (String.eqb proto "https:") [] _ sends_wrap_socket s2 H2)
    as (s3 & E3 & S3).
  rewrite (bind_ret _ _ _ _ _ E3).
  assert (S3' : sent [] s2 s3) by (destruct (String.eqb proto "https:"); exact S3).
  pose proof (sent_healthy _ _ _ S3' H2) as H3.
  destruct (sends_send_request env method_ host path data json_ headers Hdj s3 H3)
    as (s4 & E4 & S4).
  rewrite (bind_ret _ _ _ _ _ E4).
  exists s4. split; [|reflexivity].
  exact (sent_trans _ _ _ _ _ (sent_trans _ _ _ _ _ (sent_trans _ _ _ _ _ S1 S2) S3') S4).
Qed.

Lemma fresh_healthy pl : fault_at pl = None -> healthy (Net.fresh pl).
Proof. intros H. split; [reflexivity | exact H]. Qed.

(** The socket of a request, when the exchange did not raise [OSError]. *)
Lemma request_outcome_socket id w r s' :
  r <> inl OSError ->
  fst (request_outcome id w (r, s'))
  = match r with
    | inr (status, reason_) => inr (mk_response (Some id) None status reason_)
    | inl e => inl e
    end
  /\ socks (snd (request_outcome id w (r, s'))) = socks w ++ [s'].
Proof.
  intros H. destruct r as [e|[status reason_]]; [|split; reflexivity].
  destruct e; try (split; reflexivity). congruence.
Qed.

End RequestFacts.

(** C9 (as amended).  For every request whose URL parses, on a connection
    without faults, the chunks written are, in this order: the request line,
    a Host header unless the caller supplied one, the caller's headers, the
    User-Agent header, a Content-Type header when [json] is given, a
    Content-Length header when the body is non-empty, the blank line, and
    the body when it is non-empty. *)
Theorem request_wire_order (env : Env) (method_ url : string)
    (data : option string) (json_ : option json)
    (headers : list (string * string)) (w : World)
    (proto host path : string) (port : Z) (pl : plan) :
  parse_url url = inr (proto, host, port, path) ->
  server env host port = Some pl ->
  fault_at pl = None ->
  json_ = None \/ data = None ->
  exists s,
    nth_error (socks (snd (request env method_ url data json_ headers w)))
              (List.length (socks w)) = Some s
    /\ s_written s = wire_chunks env method_ host path data json_ headers.
Proof.
  intros Hu Hsv Hf Hdj.
  rewrite (request_run env method_ url data json_ headers w _ _ _ _ _ Hu Hsv).
  destruct (exchange_split env proto method_ host path data json_ headers
              (Net.fresh pl) (fresh_healthy _ Hf) Hdj) as (s1 & S1 & E1).
  rewrite E1. destruct (read_response s1) as [r s2] eqn:E2.
  pose proof (keeps_read_response _ _ _ E2) as (_ & K2 & _).
  destruct S1 as (_ & W1 & _). cbn [Net.fresh s_written app] in W1.
  assert (Hw : s_written s2 = wire_chunks env method_ host path data json_ headers)
    by congruence.
  destruct r as [e|[status reason_]]; [destruct e|];
    cbn [request_outcome snd socks]; rewrite nth_error_last;
    eexists; (split; [reflexivity|]); exact Hw.
Qed.

Lemma request_wire_order_witness :
  let env := mk_env (fun _ _ => Some (mk_plan (fun _ => "") None))
                    (fun _ => None) (fun _ => "{}") in
  exists s,
    nth_error (socks (snd (request env "POST" "http://example.com:8080/api/v1"
                             None (Some (JObj [])) [("Accept", "*/*")]
                             (mk_world (Vfs.Dir []) [] []))))
              0 = Some s
    /\ s_written s
       = wire_chunks env "POST" "example.com" "api/v1" None (Some (JObj []))
           [("Accept", "*/*")].
Proof.
  intros env.
  apply (request_wire_order env "POST" "http://example.com:8080/api/v1"
           None (Some (JObj [])) [("Accept", "*/*")]
           (mk_world (Vfs.Dir []) [] [])
           "http:" "example.com" "api/v1" 8080%Z (mk_plan (fun _ => "") None));
    [reflexivity | reflexivity | reflexivity | now right].
Defined.

(** C9, refuted as stated: with a caller-supplied header the bytes on the
    wire are not in the order the claim gives, which has the user agent
    before the caller's headers. *)
Lemma request_wire_order_as_claimed_fails :
  let env := mk_env (fun _ _ => Some (mk_plan (fun _ => "") None))
                    (fun _ => None) (fun _ => "") in
  let w' := snd (request env "GET" "http://example.com/index" None None
                   [("Accept", "*/*")] (mk_world (Vfs.Dir []) [] [])) in
  exists s,
    nth_error (socks w') 0 = Some s
    /\ String.concat "" (s_written s)
       <> String.concat ""
            (claimed_wire_chunks env "GET" "example.com" "index" None None
               [("Accept", "*/*")]).
Proof.
  intros env w'. eexists. split; [vm_compute; reflexivity|].
  vm_compute. discriminate.
Qed.

(** A reply whose header block, after lines the loop passes over, has a
    line [request] rejects: the request raises on that line, with the
    socket neither read with [read()] nor closed. *)
Lemma request_rejection (env : Env) (method_ url : string)
    (data : option string) (json_ : option json)
    (headers : list (string * string)) (w : World)
    (proto host path : string) (port : Z) (pl : plan)
    (sl : string) (status : Z) (reason_ : string)
    (hs : list string) (bad rest : string) :
  parse_url url = inr (proto, host, port, path) ->
  server env host port = Some pl ->
  fault_at pl = None ->
  json_ = None \/ data = None ->
  respond pl (String.concat ""
                (wire_chunks env method_ host path data json_ headers))
  = (sl ++ String.concat "" hs ++ bad ++ rest)%string ->
  is_line sl = true ->
  parse_status sl = inr (status, reason_) ->
  Forall (fun h => passes status h = true) hs ->
  is_line bad = true ->
  declares_chunked bad = true \/ redirects status bad = true ->
  exists e s w',
    request env method_ url data json_ headers w = (inl e, w')
    /\ check_header status bad = inl e
    /\ e <> OSError
    /\ (redirects status bad = true -> e = NotImplementedError)
    /\ socks w' = socks w ++ [s]
    /\ s_reads s = 0 /\ s_closed s = 0.
Proof.
  intros Hu Hsv Hf Hdj Hreply Hsl Hst Hall Hbl Hbad.
  destruct (check_header_rejects status bad Hbad) as (e & He & Hne & Hred).
  rewrite (request_run env method_ url data json_ headers w _ _ _ _ _ Hu Hsv).
  destruct (exchange_split env proto method_ host path data json_ headers
              (Net.fresh pl) (fresh_healthy _ Hf) Hdj) as (s1 & S1 & E1).
  rewrite E1.
  pose proof (sent_healthy _ _ _ S1 (fresh_healthy _ Hf)) as H1.
  destruct S1 as (P1 & W1 & R1 & D1 & C1).
  cbn [Net.fresh s_written s_plan s_rpos s_reads s_closed app] in *.
  assert (Hp : Net.pending s1 = (sl ++ String.concat "" hs ++ bad ++ rest)%string).
  { unfold Net.pending, Net.incoming. rewrite R1, P1, W1. exact Hreply. }
  destruct (read_response_rejects status reason_ e sl hs bad rest s1
              H1 Hp Hsl Hst Hall Hbl He) as (s2 & E2 & (_ & _ & D2 & C2)).
  rewrite E2. exists e, s2.
  assert (Hr : (inl e : result (Z * string)) <> inl OSError) by congruence.
  destruct (request_outcome_socket (List.length (socks w)) w _ s2 Hr) as [F1 F2].
  exists (snd (request_outcome (List.length (socks w)) w (inl e, s2))).
  split; [rewrite <- F1; apply surjective_pairing|].
  repeat split; try assumption; congruence.
Qed.

(** C5 (as amended).  [request] fails while it parses the headers, without
    any [read()] of a body, as soon as it reads a header line that starts
    with ['Transfer-Encoding:'] and contains ['chunked'], or a header line
    that starts with ['Location:'] while the status is outside [200, 299];
    in the second case the error is [NotImplementedError].  (A status in
    [300, 399] without such a line is not rejected.) *)
Theorem request_rejects_in_headers (env : Env) (method_ url : string)
    (data : option string) (json_ : option json)
    (headers : list (string * string)) (w : World)
    (proto host path : string) (port : Z) (pl : plan)
    (sl : string) (status : Z) (reason_ : string)
    (hs : list string) (bad rest : string) :
  parse_url url = inr (proto, host, port, path) ->
  server env host port = Some pl ->
  fault_at pl = None ->
  json_ = None \/ data = None ->
  respond pl (String.concat ""
                (wire_chunks env method_ host path data json_ headers))
  = (sl ++ String.concat "" hs ++ bad ++ rest)%string ->
  is_line sl = true ->
  parse_status sl = inr (status, reason_) ->
  Forall (fun h => passes status h = true) hs ->
  is_line bad = true ->
  declares_chunked bad = true \/ redirects status bad = true ->
  exists e s w',
    request env method_ url data json_ headers w = (inl e, w')
    /\ (redirects status bad = true -> e = NotImplementedError)
    /\ nth_error (socks w') (List.length (socks w)) = Some s
    /\ s_reads s = 0.
Proof.
  intros Hu Hsv Hf Hdj Hreply Hsl Hst Hall Hbl Hbad.
  destruct (request_rejection env method_ url data json_ headers w
              proto host path port pl sl status reason_ hs bad rest
              Hu Hsv Hf Hdj Hreply Hsl Hst Hall Hbl Hbad)
    as (e & s & w' & Hrun & _ & _ & Hred & Hsocks & Hreads & _).
  exists e, s, w'. repeat split; try assumption.
  rewrite Hsocks. apply nth_error_last.
Qed.

Lemma request_rejects_in_headers_witness :
  let reply := ("HTTP/1.0 302 Found" ++ CRLF
                ++ "Server: x" ++ CRLF
                ++ "Location: http://elsewhere/" ++ CRLF
                ++ CRLF ++ "moved")%string in
  let env := mk_env (fun _ _ => Some (mk_plan (fun _ => reply) None))
                    (fun _ => None) (fun _ => "") in
  let w := mk_world (Vfs.Dir []) [] [] in
  exists e s w',
    request env "GET" "https://example.com/a" None None [] w = (inl e, w')
    /\ (redirects 302 ("Location: http://elsewhere/" ++ CRLF) = true ->
        e = NotImplementedError)
    /\ nth_error (socks w') (List.length (socks w)) = Some s
    /\ s_reads s = 0.
Proof.
  intros reply env w.
  apply (request_rejects_in_headers env "GET" "https://example.com/a" None None []
           w "https:" "example.com" "a" 443%Z (mk_plan (fun _ => reply) None)
           ("HTTP/1.0 302 Found" ++ CRLF)%string 302%Z "Found"
           [("Server: x" ++ CRLF)%string]
           ("Location: http://elsewhere/" ++ CRLF)%string
           (CRLF ++ "moved")%string);
    [reflexivity | reflexivity | reflexivity | now left | reflexivity
    | reflexivity | reflexivity | repeat constructor | reflexivity | now right].
Defined.

(** C5, refuted as stated: a 304 response without a [Location] header is
    returned as a [Response]; [request] does not fail. *)
Lemma request_3xx_without_location_returns :
  let reply := ("HTTP/1.0 304 Not Modified" ++ CRLF
                ++ "ETag: abc" ++ CRLF ++ CRLF)%string in
  let env := mk_env (fun _ _ => Some (mk_plan (fun _ => reply) None))
                    (fun _ => None) (fun _ => "") in
  exists resp w',
    request env "GET" "http://example.com/a" None None []
            (mk_world (Vfs.Dir []) [] []) = (inr resp, w')
    /\ status_code resp = 304%Z
    /\ (300 <= status_code resp <= 399)%Z.
Proof.
  intros reply env. eexists. eexists.
  split; [vm_compute; reflexivity|]. cbn [status_code]. split; [reflexivity | lia].
Qed.

(** C6, evaluated where it fails: on a reply that declares chunked
    transfer-encoding, and on a redirect, [request] raises with the socket
    never closed ([except OSError] does not catch these exceptions); on a
    connection fault it closes the socket once before re-raising. *)
Theorem request_rejection_leaves_socket_open :
  let chunked := ("HTTP/1.0 200 OK" ++ CRLF
                  ++ "Transfer-Encoding: chunked" ++ CRLF ++ CRLF)%string in
  let moved := ("HTTP/1.0 301 Moved Permanently" ++ CRLF
                ++ "Location: http://elsewhere/" ++ CRLF ++ CRLF)%string in
  let env := mk_env (fun host _ =>
                       if String.eqb host "chunked.example" then
                         Some (mk_plan (fun _ => chunked) None)
                       else if String.eqb host "moved.example" then
                         Some (mk_plan (fun _ => moved) None)
                       else Some (mk_plan (fun _ => "") (Some 9)))
                    (fun _ => None) (fun _ => "") in
  let w := mk_world (Vfs.Dir []) [] [] in
  (exists e s w',
      request env "GET" "http://chunked.example/a" None None [] w = (inl e, w')
      /\ e <> OSError /\ socks w' = [s] /\ s_closed s = 0)
  /\ (exists s w',
         request env "GET" "http://moved.example/a" None None [] w
         = (inl NotImplementedError, w')
         /\ socks w' = [s] /\ s_closed s = 0)
  /\ (exists s w',
         request env "GET" "http://down.example/a" None None [] w
         = (inl OSError, w')
         /\ socks w' = [s] /\ s_closed s = 1).
Proof.
  intros chunked moved env w. split; [|split].
  - eexists. eexists. eexists.
    split; [vm_compute; reflexivity|].
    split; [discriminate|]. split; reflexivity.
  - eexists. eexists.
    split; [vm_compute; reflexivity|]. split; reflexivity.
  - eexists. eexists.
    split; [vm_compute; reflexivity|]. split; reflexivity.
Qed.

(* ------------------------------------------------------------------ *)
(** ** The latest version *)
(* ------------------------------------------------------------------ *)

Section LatestVersion.

Variable env : Env.

(** A [Response] as [request] returns it: socket attached, nothing cached. *)
Lemma request_response_fresh method_ url data json_ headers w resp w1 :
  request env method_ url data json_ headers w = (inr resp, w1) ->
  cached resp = None /\ exists id, raw resp = Some id.
Proof.
  unfold request, bind, lift.
  destruct (parse_url url) as [e|[[[proto host] port] path]]; [discriminate|].
  unfold getaddrinfo. destruct (server env host port) as [pl|]; [|discriminate].
  unfold ret at 1. unfold socket. unfold try_except_OSError.
  destruct (on_sock _ _ _) as [[e|[status reason_]] w2].
  - destruct e; try discriminate.
    destruct (on_sock _ Net.close w2) as [[e'|x] w3]; discriminate.
  - unfold ret. intros [= <- <-]. split; [reflexivity|].
    eexists. reflexivity.
Qed.

Lemma on_sock_close_ok id w x w' :
  on_sock id Net.close w = (x, w') -> x = inl OSError \/ x = inr tt.
Proof.
  unfold on_sock. destruct (nth_error (socks w) id); intros [= <- <-]; auto.
Qed.

(** After a body read that returned, the body is cached, and the socket is
    detached if the body was not cached before. *)
Lemma content_returns r w c r' w' :
  content r w = (inr c, r', w') ->
  cached r' = Some c /\ (cached r = None -> raw r' = None).
Proof.
  unfold content. destruct (cached r) as [c0|] eqn:Ec.
  - intros [= <- <- <-]. split; [exact Ec | discriminate].
  - destruct (raw r) as [id|]; [|discriminate].
    destruct (on_sock id Net.read w) as [x w1].
    destruct (on_sock id Net.close w1) as [y w2].
    destruct y as [e|[]]; [discriminate|].
    destruct x as [e|c0]; [discriminate|].
    intros [= <- <- <-]. split; reflexivity.
Qed.

Lemma content_cached r w c :
  cached r = Some c -> content r w = (inr c, r, w).
Proof. unfold content. now intros ->. Qed.

End LatestVersion.

(** C7.  Given that the request for the latest release returns a response
    whose body is read and decodes to a JSON object, [get_latest_version]
    returns without raising: [None] when the object has no ['tag_name']
    field, and otherwise the value of that field, which for a string tag is
    exactly that string. *)
Theorem get_latest_version_tag (env : Env) (self : OTAUpdater) (w : World)
    (resp : Response) (w1 : World) (c : string) (resp' : Response)
    (w2 : World) (kvs : list (string * json)) :
  get env (github_repo self ++ "/releases/latest") w = (inr resp, w1) ->
  content resp w1 = (inr c, resp', w2) ->
  ujson_loads env c = Some (JObj kvs) ->
  get_latest_version env self w
  = (inr (match Py.assoc "tag_name" kvs with Some v => v | None => JNull end), w2)
  /\ (Py.has_key "tag_name" kvs = false ->
      get_latest_version env self w = (inr JNull, w2))
  /\ (forall tag, Py.assoc "tag_name" kvs = Some (JStr tag) ->
                  get_latest_version env self w = (inr (JStr tag), w2)).
Proof.
  intros Hget Hcontent Hloads.
  assert (Hmain : get_latest_version env self w
                  = (inr (match Py.assoc "tag_name" kvs with
                          | Some v => v
                          | None => JNull
                          end), w2)).
  { unfold get_latest_version.
    rewrite (bind_ret _ _ _ _ _ Hget).
    destruct (request_response_fresh env _ _ _ _ _ _ _ _ Hget) as [Hc _].
    destruct (content_returns _ _ _ _ _ Hcontent) as [Hc' Hraw].
    specialize (Hraw Hc).
    assert (Hj1 : call (Response_json env) resp w1 = (inr (JObj kvs, resp'), w2)).
    { unfold call, Response_json. now rewrite Hcontent, Hloads. }
    rewrite (bind_ret _ _ _ _ _ Hj1).
    unfold bind at 1, lift. cbn [Py.contains]. unfold Py.has_key.
    destruct (Py.assoc "tag_name" kvs) as [v|] eqn:Ea; cbn [negb].
    - assert (Hj2 : call (Response_json env) resp' w2 = (inr (JObj kvs, resp'), w2)).
      { unfold call, Response_json.
        now rewrite (content_cached _ w2 _ Hc'), Hloads. }
      rewrite (bind_ret _ _ _ _ _ Hj2).
      unfold bind at 1, lift. cbn [Py.subscript]. rewrite Ea.
      unfold bind, call, Response_close. rewrite Hraw. reflexivity.
    - reflexivity. }
  split; [exact Hmain|]. split.
  - unfold Py.has_key. intros H. rewrite Hmain.
    destruct (Py.assoc "tag_name" kvs); [discriminate | reflexivity].
  - intros tag H. now rewrite Hmain, H.
Qed.

(* ------------------------------------------------------------------ *)
(** ** The log of mutations *)
(* ------------------------------------------------------------------ *)

Section Growing.

Variable P : fsop -> Prop.

Lemma grows_refl w : grows P w w.
Proof. exists []. rewrite app_nil_r. repeat split. constructor. Qed.

Lemma chain_app n tr1 m tr2 n' :
  chain n tr1 m -> chain m tr2 n' -> chain n (tr1 ++ tr2) n'.
Proof.
  revert n; induction tr1 as [|[op x] tr1 IH]; intros n H1 H2; cbn in *.
  - now subst m.
  - destruct H1 as [Ha Hc]. split; [exact Ha | now apply IH].
Qed.

Lemma grows_trans a b c : grows P a b -> grows P b c -> grows P a c.
Proof.
  intros (t1 & T1 & C1 & F1) (t2 & T2 & C2 & F2). exists (t1 ++ t2).
  split; [now rewrite T2, T1, app_assoc|].
  split; [now apply chain_app with (fs b) | now apply Forall_app].
Qed.

Lemma grows_quiet w w' : fs w' = fs w -> trace w' = trace w -> grows P w w'.
Proof.
  intros Hf Ht. exists []. rewrite app_nil_r. repeat split; auto.
Qed.

Lemma g_ret {A : Type} (a : A) : keeps (grows P) (ret a).
Proof. apply keeps_ret, grows_refl. Qed.

Lemma g_raise {A : Type} (e : exn) : keeps (grows P) (@raise World A e).
Proof. apply keeps_raise, grows_refl. Qed.

Lemma g_lift {A : Type} (x : result A) : keeps (grows P) (lift x).
Proof. apply keeps_lift, grows_refl. Qed.

Lemma g_bind {A B : Type} (c : M A) (k : A -> M B) :
  keeps (grows P) c -> (forall a, keeps (grows P) (k a)) ->
  keeps (grows P) (bind c k).
Proof. apply keeps_bind, grows_trans. Qed.

Lemma g_when (b : bool) (c : M unit) :
  keeps (grows P) c -> keeps (grows P) (when b c).
Proof. apply keeps_when, grows_refl. Qed.

Lemma g_for_each {A : Type} (xs : list A) (body : A -> M unit) :
  (forall x, keeps (grows P) (body x)) -> keeps (grows P) (for_each xs body).
Proof. apply keeps_for_each; [apply grows_refl | apply grows_trans]. Qed.

Lemma g_try {A : Type} (c h : M A) :
  keeps (grows P) c -> keeps (grows P) h ->
  keeps (grows P) (try_except_OSError c h).
Proof. apply keeps_try, grows_trans. Qed.

Lemma g_fs_get {A : Type} (f : Vfs.node -> option A) : keeps (grows P) (fs_get f).
Proof.
  intros w r w'. unfold fs_get. destruct (f (fs w)); intros [= <- <-];
    apply grows_refl.
Qed.

Lemma g_bind_fs_get {A B : Type} (f : Vfs.node -> option A) (k : A -> M B) :
  (forall n a, f n = Some a -> keeps (grows P) (k a)) ->
  keeps (grows P) (bind (fs_get f) k).
Proof.
  intros Hk w r w'. unfold bind, fs_get.
  destruct (f (fs w)) as [a|] eqn:E.
  - apply (Hk _ _ E).
  - intros [= <- <-]. apply grows_refl.
Qed.

Lemma g_for_each_in {A : Type} (xs : list A) (body : A -> M unit) :
  (forall x, In x xs -> keeps (grows P) (body x)) ->
  keeps (grows P) (for_each xs body).
Proof.
  induction xs as [|x xs IH]; intros H; cbn [for_each]; [apply g_ret|].
  apply g_bind; [apply H; now left|].
  intros _. apply IH. intros y Hy. apply H. now right.
Qed.

Lemma g_fs_do op : P op -> keeps (grows P) (fs_do op).
Proof.
  intros Hp w r w'. unfold fs_do.
  destruct (apply_op op (fs w)) as [n|] eqn:E; intros [= <- <-].
  - exists [(op, n)]. cbn. repeat split; auto.
  - apply grows_refl.
Qed.

Lemma g_on_sock {A : Type} id (c : ST sock A) : keeps (grows P) (on_sock id c).
Proof.
  intros w r w'. unfold on_sock. destruct (nth_error (socks w) id) as [s|].
  - destruct (c s) as [x s']. intros [= <- <-]. now apply grows_quiet.
  - intros [= <- <-]. apply grows_refl.
Qed.

Lemma g_getaddrinfo env host port : keeps (grows P) (getaddrinfo env host port).
Proof.
  unfold getaddrinfo. destruct (server env host port); [apply g_ret | apply g_raise].
Qed.

Lemma g_socket pl : keeps (grows P) (socket pl).
Proof. intros w r w' [= <- <-]. now apply grows_quiet. Qed.

Lemma g_request env method_ url data json_ headers :
  keeps (grows P) (request env method_ url data json_ headers).
Proof.
  unfold request. apply g_bind; [apply g_lift|]. intros [[[proto host] port] path].
  apply g_bind; [apply g_getaddrinfo|]. intros pl.
  apply g_bind; [apply g_socket|]. intros id.
  apply g_bind.
  - apply g_try; [apply g_on_sock|].
    apply g_bind; [apply g_on_sock | intros _; apply g_raise].
  - intros [status reason_]. apply g_ret.
Qed.

Lemma g_path_exists p : keeps (grows P) (path_exists p).
Proof.
  unfold path_exists. apply g_try; [|apply g_ret].
  apply g_bind; [apply g_fs_get | intros _; apply g_ret].
Qed.

Lemma g_get_version d : keeps (grows P) (get_version d).
Proof.
  unfold get_version. apply g_bind; [apply g_path_exists|]. intros e.
  apply g_bind.
  - destruct e; [|apply g_ret].
    apply g_bind; [apply g_fs_get | intros l; apply g_ret].
  - intros b. destruct b; [|apply g_ret].
    apply g_bind; [apply g_fs_get | intros v; apply g_ret].
Qed.

Lemma g_Response_close : method_keeps (grows P) Response_close.
Proof.
  intros r w x r' w'. unfold Response_close. destruct (raw r) as [id|].
  - destruct (on_sock id Net.close w) as [y w1] eqn:E.
    pose proof (g_on_sock _ _ _ _ _ E) as G.
    destruct y; intros [= <- <- <-]; exact G.
  - intros [= <- <- <-]. apply grows_refl.
Qed.

Lemma g_content : method_keeps (grows P) content.
Proof.
  intros r w x r' w'. unfold content. destruct (cached r).
  - intros [= <- <- <-]. apply grows_refl.
  - destruct (raw r) as [id|]; [|intros [= <- <- <-]; apply grows_refl].
    destruct (on_sock id Net.read w) as [a w1] eqn:E1.
    destruct (on_sock id Net.close w1) as [b w2] eqn:E2.
    pose proof (grows_trans _ _ _ (g_on_sock _ _ _ _ _ E1) (g_on_sock _ _ _ _ _ E2)) as G.
    destruct b; [|destruct a]; intros [= <- <- <-]; exact G.
Qed.

Lemma g_text : method_keeps (grows P) text.
Proof.
  intros r w x r' w'. unfold text.
  destruct (content r w) as [[a r1] w1] eqn:E.
  pose proof (g_content _ _ _ _ _ E) as G.
  destruct a as [e|c]; [|destruct (PyStr.utf8_valid c)];
    intros [= <- <- <-]; exact G.
Qed.

Lemma g_Response_json env : method_keeps (grows P) (Response_json env).
Proof.
  intros r w x r' w'. unfold Response_json.
  destruct (content r w) as [[a r1] w1] eqn:E.
  pose proof (g_content _ _ _ _ _ E) as G.
  destruct a as [e|c]; [|destruct (ujson_loads env c)]; intros [= <- <- <-]; exact G.
Qed.

Lemma g_call {A : Type} (m : method A) r :
  method_keeps (grows P) m -> keeps (grows P) (call m r).
Proof.
  intros Hm w x w'. unfold call. destruct (m r w) as [[a r1] w1] eqn:E.
  pose proof (Hm _ _ _ _ _ E) as G. destruct a; intros [= <- <-]; exact G.
Qed.

Lemma g_write_response env url outfile :
  (forall body, P (OpWrite outfile body)) ->
  keeps (grows P) (write_response env url outfile).
Proof.
  intros Hp w r w'. unfold write_response.
  destruct (get env url w) as [[e|resp] w1] eqn:E1;
    pose proof (g_request _ _ _ _ _ _ _ _ _ E1) as G1.
  - intros [= <- <-]. exact G1.
  - destruct (text resp w1) as [[t r1] w2] eqn:E2.
    pose proof (g_text _ _ _ _ _ E2) as G2.
    destruct (match t with
              | inr body => file_write outfile body w2
              | inl e => (inl e, w2)
              end) as [res w3] eqn:E3.
    assert (G3 : grows P w2 w3).
    { destruct t as [e|body].
      - injection E3 as <- <-. apply grows_refl.
      - exact (g_fs_do (OpWrite outfile body) (Hp body) _ _ _ E3). }
    destruct (Response_close r1 w3) as [[c r2] w4] eqn:E4.
    pose proof (g_Response_close _ _ _ _ _ E4) as G4.
    assert (G : grows P w w4).
    { eapply grows_trans; [exact G1|]. eapply grows_trans; [exact G2|].
      eapply grows_trans; [exact G3 | exact G4]. }
    destruct c; intros [= <- <-]; exact G.
Qed.

Lemma g_get_latest_version env self :
  keeps (grows P) (get_latest_version env self).
Proof.
  unfold get_latest_version, get.
  apply g_bind; [apply g_request|]. intros resp.
  apply g_bind; [apply g_call, g_Response_json|]. intros [j r1].
  apply g_bind; [apply g_lift|]. intros has_tag.
  destruct (negb has_tag); [apply g_ret|].
  apply g_bind; [apply g_call, g_Response_json|]. intros [j' r2].
  apply g_bind; [apply g_lift|]. intros version.
  apply g_bind; [apply g_call, g_Response_close | intros _; apply g_ret].
Qed.

End Growing.

Section Staging.

Variable env : Env.
Variable self : OTAUpdater.

Lemma g_download_file url path :
  keeps (grows staging_op) (download_file env url path).
Proof.
  unfold download_file. apply g_bind.
  { unfold open_w. apply g_bind; [apply g_fs_do; exact I | intros _; apply g_ret]. }
  intros outfile. apply g_write_response. intros body. exact I.
Qed.

Lemma g_download_entry (recurse : string -> json -> M unit) :
  (forall u v, keeps (grows staging_op) (recurse u v)) ->
  forall root_url version file,
    keeps (grows staging_op)
          (download_entry env self recurse root_url version file).
Proof.
  intros Hrec root_url version file. unfold download_entry.
  apply g_bind; [apply g_lift|]. intros ty.
  destruct (Py.eq_str ty "file").
  - apply g_bind; [apply g_lift|]. intros download_url.
    apply g_bind; [apply g_lift|]. intros download_path.
    apply g_bind; [apply g_lift|]. intros url.
    apply g_download_file.
  - destruct (Py.eq_str ty "dir"); [|apply g_ret].
    apply g_bind; [apply g_lift|]. intros path.
    apply g_bind; [apply g_fs_do; exact I|]. intros _.
    apply g_bind; [apply g_lift|]. intros name.
    apply g_bind; [apply g_lift|]. intros name'.
    apply Hrec.
Qed.

Lemma g_download_all_files fuel :
  forall root_url version,
    keeps (grows staging_op) (download_all_files env self fuel root_url version).
Proof.
  induction fuel as [|f IH]; intros root_url version; cbn [download_all_files].
  - apply g_raise.
  - apply g_bind; [apply g_lift|]. intros v.
    apply g_bind; [apply g_request|]. intros file_list.
    apply g_bind; [apply g_call, g_Response_json|]. intros [j r1].
    apply g_bind; [apply g_lift|]. intros files.
    apply g_bind.
    + apply g_for_each. intros file. now apply g_download_entry.
    + intros _. apply g_bind; [apply g_call, g_Response_close | intros _; apply g_ret].
Qed.

Lemma g_begin_staging : keeps (grows (begins self)) (begin_staging env self).
Proof.
  unfold begin_staging.
  apply g_bind; [apply g_get_version|]. intros current.
  apply g_bind; [apply g_get_latest_version|]. intros latest.
  apply g_bind; [apply g_lift|]. intros go.
  destruct go; [|apply g_ret].
  apply g_bind; [apply g_path_exists|]. intros e.
  apply g_bind; [apply g_when, g_fs_do; now left|]. intros _.
  apply g_bind; [apply g_fs_do; now right | intros _; apply g_ret].
Qed.

Lemma open_w_returns p w f w1 : open_w p w = (inr f, w1) -> f = p.
Proof.
  unfold open_w, bind, ret. destruct (fs_do (OpOpenW p) w) as [[e|[]] w2];
    [discriminate | now intros [= <- _]].
Qed.

Lemma g_open_w P p : P (OpOpenW p) -> keeps (grows P) (open_w p).
Proof.
  intros Hp. unfold open_w.
  apply g_bind; [now apply g_fs_do | intros _; apply g_ret].
Qed.

Lemma g_write_marker latest :
  keeps (grows (marks self)) (write_marker self latest).
Proof.
  intros w r w' H. unfold write_marker in H.
  destruct (bind_inv _ _ _ _ _ H) as [(e & He & _)|(f & w1 & Hf & Hk)].
  - exact (g_open_w (marks self) _ eq_refl _ _ _ He).
  - pose proof (open_w_returns _ _ _ _ Hf). subst f.
    apply grows_trans with w1; [exact (g_open_w (marks self) _ eq_refl _ _ _ Hf)|].
    revert Hk. apply g_bind; [apply g_lift|]. intros v.
    apply g_fs_do. reflexivity.
Qed.

End Staging.

Section Entries.

Variable env : Env.
Variable self : OTAUpdater.

(** The loop body on a file entry. *)
Lemma download_entry_file recurse root_url version file url path :
  Py.subscript file "type" = inr (JStr "file") ->
  Py.subscript file "download_url" = inr (JStr url) ->
  Py.subscript file "path" = inr (JStr path) ->
  download_entry env self recurse root_url version file
  = download_file env (PyStr.replace url "refs/tags/" "")
      (get_module_and_path self
         ("next/" ++ PyStr.replace path (main_dir self ++ "/") "")).
Proof.
  intros Hty Hurl Hpath. unfold download_entry, staging_path.
  rewrite Hty, Hurl, Hpath. reflexivity.
Qed.

(** A file entry that the loop of [download_all_files] reaches is opened
    for writing at its staging path. *)
Lemma download_all_files_opens (f : nat) (root_url v : string) (w : World)
    (resp : Response) (w1 : World) (j : json) (resp1 : Response) (w2 : World)
    (pre : list json) (file : json) (post : list json) (w3 : World)
    (url path : string) :
  get env (root_url ++ "?ref=refs/tags/" ++ v) w = (inr resp, w1) ->
  Response_json env resp w1 = (inr j, resp1, w2) ->
  Py.iter j = inr (pre ++ file :: post) ->
  for_each pre (download_entry env self (download_all_files env self f)
                               root_url (JStr v)) w2 = (inr tt, w3) ->
  Py.subscript file "type" = inr (JStr "file") ->
  Py.subscript file "download_url" = inr (JStr url) ->
  Py.subscript file "path" = inr (JStr path) ->
  let staged := get_module_and_path self
                  ("next/" ++ PyStr.replace path (main_dir self ++ "/") "") in
  (forall n, Vfs.create staged (fs w3) = Some n ->
     exists r w' tr,
       download_all_files env self (S f) root_url (JStr v) w = (r, w')
       /\ trace w' = trace w3 ++ (OpOpenW staged, n) :: tr)
  /\ (Vfs.create staged (fs w3) = None ->
      download_all_files env self (S f) root_url (JStr v) w = (inl OSError, w3)).
Proof.
  intros Hget Hjson Hiter Hpre Hty Hurl Hpath staged.
  set (body := download_entry env self (download_all_files env self f)
                              root_url (JStr v)).
  assert (Hcall : call (Response_json env) resp w1 = (inr (j, resp1), w2)).
  { unfold call. now rewrite Hjson. }
  assert (Hsp : staging_path self file = inr staged).
  { unfold staging_path. rewrite Hpath. reflexivity. }
  (* the run up to the entry *)
  assert (Hrun : download_all_files env self (S f) root_url (JStr v) w
                 = bind (open_w staged)
                     (fun o =>
                        bind (write_response env (PyStr.replace url "refs/tags/" "") o)
                          (fun _ => bind (for_each post body)
                                      (fun _ => bind (call Response_close resp1)
                                                  (fun _ => ret tt)))) w3).
  { cbn [download_all_files]. fold body. cbn [Py.as_str].
    rewrite (bind_ret _ _ _ _ _ (eq_refl : lift (inr v) w = (inr v, w))).
    rewrite (bind_ret _ _ _ _ _ Hget), (bind_ret _ _ _ _ _ Hcall), Hiter.
    rewrite (bind_ret _ _ _ _ _
               (eq_refl : lift (inr (pre ++ file :: post)) w2
                          = (inr (pre ++ file :: post), w2))).
    rewrite (bind_cong _ (bind (body file) (fun _ => for_each post body)) _ w2 w3).
    2:{ rewrite for_each_app, (bind_ret _ _ _ _ _ Hpre). reflexivity. }
    rewrite bind_assoc. unfold body at 1.
    rewrite (download_entry_file _ _ _ _ _ _ Hty Hurl Hpath). fold staged.
    unfold download_file. now rewrite bind_assoc. }
  split.
  - intros n Hn.
    assert (Ho : open_w staged w3
                 = (inr staged,
                    mk_world n (trace w3 ++ [(OpOpenW staged, n)]) (socks w3))).
    { unfold open_w. rewrite (bind_ret _ _ _ _ _ (fs_do_run (OpOpenW staged) w3 n Hn)).
      reflexivity. }
    rewrite (bind_ret _ _ _ _ _ Ho) in Hrun.
    destruct (download_all_files env self (S f) root_url (JStr v) w)
      as [r w'] eqn:E.
    exists r, w'.
    assert (K : keeps (grows staging_op)
                  (bind (write_response env (PyStr.replace url "refs/tags/" "") staged)
                        (fun _ => bind (for_each post body)
                                       (fun _ => bind (call Response_close resp1)
                                                      (fun _ => ret tt))))).
    { apply g_bind; [apply g_write_response; intros; exact I|]. intros _.
      apply g_bind.
      - apply g_for_each. intros x. apply g_download_entry.
        intros u v'. apply g_download_all_files.
      - intros _. apply g_bind; [apply g_call, g_Response_close | intros _; apply g_ret]. }
    destruct (K _ _ _ (eq_sym Hrun)) as (tr & T & _ & _).
    exists tr. split; [reflexivity|]. cbn [trace] in T. now rewrite T, <- app_assoc.
  - intros Hn. rewrite Hrun. unfold open_w.
    unfold bind, fs_do. cbn [apply_op]. now rewrite Hn.
Qed.

End Entries.

(** C10 (as amended).  In [download_all_files], a file entry that the loop
    reaches (the listing was fetched and decoded, the entries before it
    were processed without error) is opened for writing at the staging path
    [get_module_and_path('next/' + path.replace(main_dir + '/', ''))]: when
    the file can be created there that is the next file-system operation,
    otherwise the method raises [OSError].  For a path
    [main_dir + '/' + rel] in which [main_dir + '/'] occurs at offset 0 only
    the staging path is ['next/' + rel]; when the pattern occurs inside
    [rel] it is ['next/'] followed by a strictly shorter string, and differs
    from ['next/' + rel]. *)
Theorem download_all_files_stages_at_replaced_path
    (env : Env) (self : OTAUpdater) (f : nat) (root_url v : string) (w : World)
    (resp : Response) (w1 : World) (j : json) (resp1 : Response) (w2 : World)
    (pre : list json) (file : json) (post : list json) (w3 : World)
    (url path : string) :
  get env (root_url ++ "?ref=refs/tags/" ++ v) w = (inr resp, w1) ->
  Response_json env resp w1 = (inr j, resp1, w2) ->
  Py.iter j = inr (pre ++ file :: post) ->
  for_each pre (download_entry env self (download_all_files env self f)
                               root_url (JStr v)) w2 = (inr tt, w3) ->
  Py.subscript file "type" = inr (JStr "file") ->
  Py.subscript file "download_url" = inr (JStr url) ->
  Py.subscript file "path" = inr (JStr path) ->
  let staged := get_module_and_path self
                  ("next/" ++ PyStr.replace path (main_dir self ++ "/") "") in
  (forall n, Vfs.create staged (fs w3) = Some n ->
     exists r w' tr,
       download_all_files env self (S f) root_url (JStr v) w = (r, w')
       /\ trace w' = trace w3 ++ (OpOpenW staged, n) :: tr)
  /\ (Vfs.create staged (fs w3) = None ->
      download_all_files env self (S f) root_url (JStr v) w = (inl OSError, w3))
  /\ (forall rel, path = (main_dir self ++ "/" ++ rel)%string ->
        ((forall i, occurs_at (main_dir self ++ "/") path i -> i = 0) ->
         staged = get_module_and_path self ("next/" ++ rel))
        /\ ((exists i, occurs_at (main_dir self ++ "/") rel i) ->
            exists collapsed,
              staged = get_module_and_path self ("next/" ++ collapsed)
              /\ String.length collapsed < String.length rel
              /\ staged <> get_module_and_path self ("next/" ++ rel))).
Proof.
  intros Hget Hjson Hiter Hpre Hty Hurl Hpath staged.
  destruct (download_all_files_opens env self f root_url v w resp w1 j resp1 w2
              pre file post w3 url path Hget Hjson Hiter Hpre Hty Hurl Hpath)
    as [Hopen Hfail].
  split; [exact Hopen|]. split; [exact Hfail|].
  intros rel Hrel.
  destruct (staging_path_occurrences self file path rel Hpath Hrel)
    as (Hsp & Honly & Hagain).
  fold staged in Hsp. split.
  - intros H. specialize (Honly H). rewrite Hsp in Honly. now injection Honly.
  - intros H. destruct (Hagain H) as (c & Hc & Hlen & Hne).
    rewrite Hsp in Hc, Hne. exists c.
    split; [now injection Hc|]. split; [exact Hlen|].
    intros E. apply Hne. now rewrite E.
Qed.

Lemma download_all_files_stages_at_replaced_path_witness :
  let w := mk_world (Vfs.Dir [("next", Vfs.Dir [])]) [] [] in
  let root := contents_url Sample.updater in
  let w2 := snd (Response_json Sample.env (mk_response (Some 0) None 200 "OK")
                   (snd (get Sample.env (root ++ "?ref=refs/tags/" ++ "v1.2") w))) in
  exists r w' tr,
    download_all_files Sample.env Sample.updater 2 root (JStr "v1.2") w = (r, w')
    /\ trace w'
       = trace w2
         ++ (OpOpenW "next/a.py", Vfs.Dir [("next", Vfs.Dir [("a.py", Vfs.File "")])])
            :: tr.
Proof.
  intros w root w2.
  refine (proj1 (download_all_files_stages_at_replaced_path
                   Sample.env Sample.updater 1 root "v1.2" w
                   (mk_response (Some 0) None 200 "OK")
                   (snd (get Sample.env (root ++ "?ref=refs/tags/" ++ "v1.2") w))
                   (JArr [Sample.entry "file" "main/a.py" "a.py"
                            "https://raw.example.com/u/r/refs/tags/v1.2/main/a.py";
                          Sample.entry "dir" "main/sub" "sub" ""])
                   (mk_response None (Some "[listing of main]") 200 "OK") w2
                   []
                   (Sample.entry "file" "main/a.py" "a.py"
                      "https://raw.example.com/u/r/refs/tags/v1.2/main/a.py")
                   [Sample.entry "dir" "main/sub" "sub" ""] w2
                   "https://raw.example.com/u/r/refs/tags/v1.2/main/a.py"
                   "main/a.py" _ _ _ _ _ _ _) _ _);
    [vm_compute; reflexivity | vm_compute; reflexivity | reflexivity
    | reflexivity | reflexivity | reflexivity | reflexivity
    | vm_compute; reflexivity].
Defined.

(** C10, refuted as stated: with [main_dir] ['a/a'], the path
    ['a/a/a/x.py'] of the file [x.py] in the directory [a] of the
    application contains [main_dir + '/'] again at offset 2, yet the file
    is written to ['next/' + 'a/x.py'], its relative path: [replace] takes
    the occurrences from left to right and passes over one that overlaps
    the occurrence before it. *)
Lemma overlapping_occurrence_is_not_collapsed :
  let w := mk_world (Vfs.Dir [("next", Vfs.Dir [])]) [] [] in
  main_dir Sample.nested_updater = "a/a"
  /\ occurs_at "a/a/" "a/a/a/x.py" 0 /\ occurs_at "a/a/" "a/a/a/x.py" 2
  /\ exists w',
       download_all_files Sample.nested_env Sample.nested_updater 2
         (contents_url Sample.nested_updater) (JStr "v1") w = (inr tt, w')
       /\ map fst (trace w')
          = [OpMkdir "next/a"; OpOpenW ("next/" ++ "a/x.py");
             OpWrite ("next/" ++ "a/x.py") "print(3)"]
       /\ Vfs.read_file "next/a/x.py" (fs w') = Some "print(3)".
Proof.
  intros w. split; [reflexivity|].
  split; [exists "", "a/x.py"; split; reflexivity|].
  split; [exists "a/", "x.py"; split; reflexivity|].
  eexists. split; [vm_compute; reflexivity|]. split; reflexivity.
Qed.

(* ------------------------------------------------------------------ *)
(** ** The staging marker *)
(* ------------------------------------------------------------------ *)

Section Marker.

Import Vfs.

(** Putting a file or an empty directory somewhere else does not make a
    missing path appear. *)
Lemma set_at_keeps_absent q v n m mk :
  set_at q (Some v) n = Some m ->
  (forall c x, lookup (c :: x) v = None) ->
  lookup mk n = None -> q <> mk -> lookup mk m = None.
Proof.
  intros Hset Hleaf. revert n m mk Hset.
  induction q as [|c q IH]; intros n m mk Hset Habs Hne; [discriminate|].
  destruct n as [|es]; [discriminate|].
  destruct mk as [|b mk]; [discriminate|].
  destruct (String.eqb c b) eqn:Ecb.
  - apply String.eqb_eq in Ecb; subst b.
    destruct q as [|d q].
    + cbn [set_at] in Hset. injection Hset as <-.
      rewrite lookup_cons, find_put_same.
      destruct mk as [|x mk]; [congruence | apply Hleaf].
    + rewrite set_at_cons2 in Hset. rewrite lookup_cons in Habs.
      destruct (find c es) as [x|] eqn:Ef; [|discriminate].
      destruct (set_at (d :: q) (Some v) x) as [x'|] eqn:E; [|discriminate].
      injection Hset as <-. rewrite lookup_cons, find_put_same.
      apply (IH x x' mk E Habs). congruence.
  - assert (Hcb : c <> b) by (intros ->; rewrite String.eqb_refl in Ecb; discriminate).
    rewrite lookup_cons in Habs.
    destruct q as [|d q].
    + cbn [set_at] in Hset. injection Hset as <-.
      now rewrite lookup_cons, (find_put_other _ _ _ _ Hcb).
    + rewrite set_at_cons2 in Hset.
      destruct (find c es) as [x|] eqn:Ef; [|discriminate].
      destruct (set_at (d :: q) (Some v) x) as [x'|] eqn:E; [|discriminate].
      injection Hset as <-.
      now rewrite lookup_cons, (find_put_other _ _ _ _ Hcb).
Qed.

Lemma staging_op_keeps_absent op n m mk :
  staging_op op -> apply_op op n = Some m ->
  split_path (op_path op) <> mk ->
  lookup mk n = None -> lookup mk m = None.
Proof.
  intros Hop Happ Hne Habs.
  destruct op as [p|p|p d|p|p|a b]; try contradiction; cbn [apply_op op_path] in *.
  - unfold mkdir in Happ. destruct (lookup (split_path p) n); [discriminate|].
    apply (set_at_keeps_absent _ _ _ _ _ Happ); auto.
  - unfold create in Happ.
    destruct (lookup (split_path p) n) as [[x|es]|]; try discriminate;
      apply (set_at_keeps_absent _ _ _ _ _ Happ); auto.
  - unfold append in Happ.
    destruct (lookup (split_path p) n) as [[x|es]|]; try discriminate;
      apply (set_at_keeps_absent _ _ _ _ _ Happ); auto.
Qed.

(** A directory just made is empty. *)
Lemma mkdir_empty p n m c x :
  mkdir p n = Some m -> lookup (split_path p ++ c :: x) m = None.
Proof.
  unfold mkdir. destruct (lookup (split_path p) n); [discriminate|].
  intros H. now rewrite lookup_app, (lookup_set_at_same _ _ _ _ H).
Qed.

Variable self : OTAUpdater.

Lemma begins_leaves_no_marker op n m :
  begins self op -> apply_op op n = Some m -> lookup (marker_path self) m = None.
Proof.
  intros [-> | ->]; cbn [apply_op]; intros H.
  - rewrite marker_path_eq, next_dir_eq, <- app_assoc.
    exact (mkdir_empty _ _ _ _ _ H).
  - rewrite marker_path_eq. exact (mkdir_empty _ _ _ _ _ H).
Qed.

Lemma chain_begins n tr n' :
  chain n tr n' -> Forall (fun e => begins self (fst e)) tr ->
  Forall (fun e => lookup (marker_path self) (snd e) = None) tr.
Proof.
  revert n; induction tr as [|[op m] tr IH]; intros n Hc Hf; constructor.
  - inversion Hf; subst. destruct Hc as [Ha _].
    exact (begins_leaves_no_marker _ _ _ H1 Ha).
  - inversion Hf; subst. destruct Hc as [_ Hc]. now apply IH with m.
Qed.

Lemma chain_staging n tr n' :
  lookup (marker_path self) n = None ->
  chain n tr n' ->
  Forall (fun e => staging_op (fst e)) tr ->
  Forall (fun e => split_path (op_path (fst e)) <> marker_path self) tr ->
  Forall (fun e => lookup (marker_path self) (snd e) = None) tr
  /\ lookup (marker_path self) n' = None.
Proof.
  revert n; induction tr as [|[op m] tr IH]; intros n Hn Hc Hf Hp.
  - cbn in Hc. subst n'. split; [constructor | exact Hn].
  - inversion Hf; subst. inversion Hp; subst. destruct Hc as [Ha Hc].
    cbn [fst snd] in *.
    pose proof (staging_op_keeps_absent _ _ _ _ H1 Ha H3 Hn) as Hm.
    destruct (IH m Hm Hc H2 H4) as [Hall Hlast].
    split; [constructor; assumption | exact Hlast].
Qed.

Lemma app_split_mid {A : Type} (l1 l2 pre : list A) (x : A) (post : list A) :
  l1 ++ l2 = pre ++ x :: post ->
  In x l1 \/ exists d, pre = l1 ++ d /\ l2 = d ++ x :: post.
Proof.
  revert pre; induction l1 as [|a l1 IH]; intros pre H.
  - right. exists pre. split; [reflexivity | exact H].
  - destruct pre as [|b pre]; cbn in H.
    + injection H as -> _. left. now left.
    + injection H as -> H. destruct (IH _ H) as [Hin|(d & -> & ->)].
      * left. now right.
      * right. exists d. split; reflexivity.
Qed.

End Marker.

Section BeginStaging.

Variable env : Env.
Variable self : OTAUpdater.

(** When [begin_staging] returns a version to stage, the staging directory
    was just created: there is no marker. *)
Lemma begin_staging_no_marker w latest w1 :
  begin_staging env self w = (inr (Some latest), w1) ->
  Vfs.lookup (marker_path self) (fs w1) = None.
Proof.
  unfold begin_staging. intros H.
  destruct (bind_inv _ _ _ _ _ H) as [(e & _ & He)|(cur & wa & _ & Ha)];
    [discriminate|]. clear H.
  destruct (bind_inv _ _ _ _ _ Ha) as [(e & _ & He)|(lat & wb & _ & Hb)];
    [discriminate|]. clear Ha.
  destruct (bind_inv _ _ _ _ _ Hb) as [(e & _ & He)|(go & wc & _ & Hc)];
    [discriminate|]. clear Hb.
  destruct go; [|discriminate].
  destruct (bind_inv _ _ _ _ _ Hc) as [(e & _ & He)|(ex & wd & _ & Hd)];
    [discriminate|]. clear Hc.
  destruct (bind_inv _ _ _ _ _ Hd) as [(e & _ & He)|(u1 & we & _ & He)];
    [discriminate|]. clear Hd.
  destruct (bind_inv _ _ _ _ _ He) as [(e & _ & Hx)|(u2 & wf & Hf & Hg)];
    [discriminate|]. clear He.
  injection Hg as _ <-.
  unfold os_mkdir, fs_do in Hf.
  destruct (apply_op (OpMkdir (get_module_and_path self "next")) (fs we))
    as [n|] eqn:E; [|discriminate].
  injection Hf as _ <-. cbn [fs].
  apply (begins_leaves_no_marker self _ _ _ (or_intror eq_refl) E).
Qed.

End BeginStaging.

(** C1 (as amended).  Take any execution of [download_updates_if_available]
    in which no file-system operation of [download_all_files] targets the
    marker: none is at a path that resolves to ['next/.version'], directly
    or through ['.'] and ['..'] components (no entry of the remote tree is
    staged there).  Then every file-system state the execution passes
    through in which the marker exists comes after [download_all_files] has
    returned normally, and is the result of one of the two marker writes of
    lines 98-99.  A staging tree left by an execution that stopped earlier
    has no marker. *)
Theorem marker_written_after_downloads (env : Env) (self : OTAUpdater)
    (fuel : nat) (w : World) (r : result bool) (w' : World) :
  download_updates_if_available env self fuel w = (r, w') ->
  (forall latest w1 r2 w2 op n,
      begin_staging env self w = (inr (Some latest), w1) ->
      download_all_files env self fuel (contents_url self) latest w1 = (r2, w2) ->
      In (op, n) (skipn (List.length (trace w1)) (trace w2)) ->
      Vfs.split_path (op_path op) <> marker_path self) ->
  forall pre op n post,
    trace w' = trace w ++ pre ++ (op, n) :: post ->
    Vfs.lookup (marker_path self) n <> None ->
    exists latest w1 w2 later,
      begin_staging env self w = (inr (Some latest), w1)
      /\ download_all_files env self fuel (contents_url self) latest w1
         = (inr tt, w2)
      /\ trace w ++ pre = trace w2 ++ later
      /\ op_path op = get_module_and_path self "next/.version".
Proof.
  intros Hrun Hno pre op n post Htr Hmark.
  unfold download_updates_if_available in Hrun.
  destruct (begin_staging env self w) as [staged w1] eqn:Eb.
  destruct (g_begin_staging env self _ _ _ Eb) as (tr0 & T0 & C0 & F0).
  pose proof (chain_begins self _ _ _ C0 F0) as A0.
  assert (Hearly : forall tr, Forall (fun e => Vfs.lookup (marker_path self) (snd e) = None) tr ->
                              ~ In (op, n) tr).
  { intros tr Hall Hin. rewrite Forall_forall in Hall.
    apply Hmark. exact (Hall _ Hin). }
  assert (Hstop : forall tr, trace w' = trace w ++ tr ->
                             Forall (fun e => Vfs.lookup (marker_path self) (snd e) = None) tr ->
                             False).
  { intros tr Ht Hall. rewrite Ht in Htr. apply app_inv_head in Htr.
    apply (Hearly tr Hall). rewrite Htr. apply in_or_app. right. now left. }
  unfold bind in Hrun at 1. rewrite Eb in Hrun.
  destruct staged as [e|[latest|]].
  - injection Hrun as _ <-. exfalso. exact (Hstop tr0 T0 A0).
  - fold (contents_url self) in Hrun.
    destruct (download_all_files env self fuel (contents_url self) latest w1)
      as [r2 w2] eqn:Ed.
    destruct (g_download_all_files env self fuel _ _ _ _ _ Ed) as (tr2 & T2 & C2 & F2).
    assert (Hp : Forall (fun e => Vfs.split_path (op_path (fst e)) <> marker_path self) tr2).
    { apply Forall_forall. intros [o m] Hin. cbn [fst].
      apply (Hno latest w1 r2 w2 o m eq_refl Ed).
      rewrite T2, skipn_app, skipn_all, Nat.sub_diag. exact Hin. }
    destruct (chain_staging self _ _ _ (begin_staging_no_marker env self _ _ _ Eb)
                C2 F2 Hp) as [A2 _].
    assert (A02 : Forall (fun e => Vfs.lookup (marker_path self) (snd e) = None)
                         (tr0 ++ tr2)) by now apply Forall_app.
    unfold bind in Hrun at 1. rewrite Ed in Hrun.
    destruct r2 as [e|[]].
    + injection Hrun as _ <-. exfalso. apply (Hstop (tr0 ++ tr2)); [|exact A02].
      now rewrite T2, T0, app_assoc.
    + destruct (write_marker self latest w2) as [r3 w3] eqn:Em.
      destruct (g_write_marker self latest _ _ _ Em) as (tr3 & T3 & _ & F3).
      assert (Hw' : w' = w3).
      { unfold bind in Hrun. rewrite Em in Hrun.
        destruct r3; injection Hrun as _ <-; reflexivity. }
      subst w'.
      assert (Hall : (tr0 ++ tr2) ++ tr3 = pre ++ (op, n) :: post).
      { apply (app_inv_head (trace w)). rewrite <- Htr, T3, T2, T0.
        now rewrite !app_assoc. }
      destruct (app_split_mid _ _ _ _ _ Hall) as [Hin|(d & Hpre & Htr3)].
      * exfalso. exact (Hearly _ A02 Hin).
      * exists latest, w1, w2, d. split; [reflexivity|]. split; [exact Ed|].
        split; [rewrite Hpre, T2, T0; now rewrite !app_assoc|].
        rewrite Forall_forall in F3. apply (F3 (op, n)).
        rewrite Htr3. apply in_or_app. right. now left.
  - injection Hrun as _ <-. exfalso. exact (Hstop tr0 T0 A0).
Qed.

Lemma marker_written_after_downloads_witness :
  let tr := trace (snd Sample.staged) in
  exists latest w1 w2 later,
    begin_staging Sample.env Sample.updater Sample.flash
    = (inr (Some latest), w1)
    /\ download_all_files Sample.env Sample.updater 3
         (contents_url Sample.updater) latest w1 = (inr tt, w2)
    /\ trace Sample.flash ++ firstn 7 tr = trace w2 ++ later
    /\ op_path (OpWrite "next/.version" "v1.2")
       = get_module_and_path Sample.updater "next/.version".
Proof.
  intros tr.
  refine (marker_written_after_downloads Sample.env Sample.updater 3
            Sample.flash (fst Sample.staged) (snd Sample.staged) _ _
            (firstn 7 tr) (OpWrite "next/.version" "v1.2")
            (fs (snd Sample.staged)) [] _ _).
  - unfold Sample.staged. apply surjective_pairing.
  - intros latest w1 r2 w2 op n Hb Hd Hin.
    vm_compute in Hb. injection Hb as <- <-.
    vm_compute in Hd. injection Hd as <- <-.
    vm_compute in Hin.
    repeat (destruct Hin as [Hin|Hin];
            [injection Hin as <- _; vm_compute; discriminate|]).
    destruct Hin.
  - vm_compute. reflexivity.
  - vm_compute. discriminate.
Defined.

(** C1, refuted as stated: the remote tree has a [.version] file of its own
    under [main_dir]; the download of the next file fails and the execution
    is abandoned before the marker write of line 98, yet the staging tree
    has a readable marker. *)
Lemma abandoned_staging_tree_has_marker :
  exists e w',
    download_updates_if_available Sample.env_with_marker Sample.updater 3
      Sample.flash = (inl e, w')
    /\ map fst (trace w')
       = [OpMkdir "next"; OpOpenW "next/.version";
          OpWrite "next/.version" "v0.9"; OpOpenW "next/a.py"]
    /\ Vfs.read_file (get_module_and_path Sample.updater "next/.version") (fs w')
       = Some "v0.9"
    /\ Vfs.lookup (marker_path Sample.updater) (fs w') <> None.
Proof.
  eexists. eexists. split; [vm_compute; reflexivity|].
  split; [reflexivity|]. split; [reflexivity|]. vm_compute. discriminate.
Qed.

Lemma get_latest_version_tag_witness :
  let url := (github_repo Sample.updater ++ "/releases/latest")%string in
  let w1 := snd (get Sample.env url Sample.flash) in
  let w2 := snd (content (mk_response (Some 0) None 200 "OK") w1) in
  get_latest_version Sample.env Sample.updater Sample.flash
  = (inr (JStr "v1.2"), w2).
Proof.
  intros url w1 w2.
  apply (proj2 (proj2
           (get_latest_version_tag Sample.env Sample.updater Sample.flash
              (mk_response (Some 0) None 200 "OK") w1 "[release]"
              (mk_response None (Some "[release]") 200 "OK") w2
              [("name", JStr "Release 1.2"); ("tag_name", JStr "v1.2")]
              ltac:(vm_compute; reflexivity) ltac:(vm_compute; reflexivity)
              ltac:(reflexivity))));
    reflexivity.
Defined.

(* ------------------------------------------------------------------ *)
(** ** Supporting facts *)
(* ------------------------------------------------------------------ *)

(** When the decision is [False] the method returns [False] and has done
    nothing but read the two versions. *)
Lemma download_skipped (env : Env) (self : OTAUpdater) (fuel : nat)
    (w wa wb : World) (current : option string) (latest : json) :
  get_version (get_module_and_path self (main_dir self)) w = (inr current, wa) ->
  get_latest_version env self wa = (inr latest, wb) ->
  update_decision current latest = inr false ->
  download_updates_if_available env self fuel w = (inr false, wb).
Proof.
  intros Hv Hl Hd. unfold download_updates_if_available, begin_staging.
  assert (Hb : begin_staging env self w = (inr None, wb)).
  { unfold begin_staging. rewrite (bind_ret _ _ _ _ _ Hv), (bind_ret _ _ _ _ _ Hl).
    unfold bind, lift. now rewrite Hd. }
  unfold begin_staging in Hb. now rewrite (bind_ret _ _ _ _ _ Hb).
Qed.

(** A [Response] closes its socket once: the body read closes it and
    detaches it, after which [close()] and further reads leave it alone. *)
Lemma response_read_closes_once f t l s status reason_ :
  let r := mk_response (Some (List.length l)) None status reason_ in
  let w := mk_world f t (l ++ [s]) in
  exists x r' s',
    content r w = (x, r', mk_world f t (l ++ [s']))
    /\ s_closed s' = S (s_closed s)
    /\ raw r' = None
    /\ Response_close r' (mk_world f t (l ++ [s']))
       = (inr tt, mk_response None None status reason_, mk_world f t (l ++ [s']))
    /\ forall c, x = inr c ->
                 content r' (mk_world f t (l ++ [s']))
                 = (inr c, r', mk_world f t (l ++ [s'])).
Proof.
  intros r w. subst r w. unfold content. cbn [cached raw].
  rewrite on_sock_last.
  destruct (Net.read s) as [x s1] eqn:E1.
  assert (Hc : s_closed s1 = s_closed s).
  { unfold Net.read, Net.io in E1. destruct (Net.faulty s);
      injection E1 as _ <-; reflexivity. }
  rewrite on_sock_last. cbn [fst snd Net.close].
  destruct x as [e|c]; eexists; eexists; eexists;
    (split; [reflexivity|]); cbn [s_closed raw cached];
    (split; [now rewrite Hc|]); (split; [reflexivity|]);
    (split; [reflexivity|]); intros c' [= <-]; reflexivity.
Qed.

(** [close()] closes the socket once; a second [close()] does nothing. *)
Lemma response_close_idempotent f t l s status reason_ c :
  let r := mk_response (Some (List.length l)) c status reason_ in
  let w := mk_world f t (l ++ [s]) in
  exists r' s',
    Response_close r w = (inr tt, r', mk_world f t (l ++ [s']))
    /\ s_closed s' = S (s_closed s)
    /\ Response_close r' (mk_world f t (l ++ [s']))
       = (inr tt, r', mk_world f t (l ++ [s'])).
Proof.
  intros r w. subst r w. unfold Response_close. cbn [raw].
  rewrite on_sock_last. cbn [fst snd Net.close].
  eexists. eexists. split; [reflexivity|]. split; reflexivity.
Qed.

(* ------------------------------------------------------------------ *)
(** ** URLs *)
(* ------------------------------------------------------------------ *)

Section UrlFacts.

Lemma split_char_cut sep n a b :
  PyStr.has_char sep a = false ->
  PyStr.split_char sep (S n) (a ++ String sep b) = a :: PyStr.split_char sep n b.
Proof.
  induction a as [|c a IH]; intros H.
  - cbn [append PyStr.split_char]. now rewrite Ascii.eqb_refl.
  - cbn [PyStr.has_char] in H. apply orb_false_iff in H as [Hc Ha].
    cbn [append PyStr.split_char]. rewrite Hc. now rewrite (IH Ha).
Qed.

Lemma split_char_whole sep n a :
  PyStr.has_char sep a = false -> PyStr.split_char sep n a = [a].
Proof.
  revert n; induction a as [|c a IH]; intros n H; [reflexivity|].
  cbn [PyStr.has_char] in H. apply orb_false_iff in H as [Hc Ha].
  cbn [PyStr.split_char]. destruct n; [reflexivity|].
  now rewrite Hc, (IH (S n) Ha).
Qed.

Lemma split_char_zero sep s : PyStr.split_char sep 0 s = [s].
Proof. destruct s; reflexivity. Qed.

Lemma split_char_once sep s :
  (exists a, PyStr.split_char sep 1 s = [a])
  \/ (exists a b, PyStr.split_char sep 1 s = [a; b]).
Proof.
  induction s as [|c s IH]; [left; now exists ""|].
  cbn [PyStr.split_char]. destruct (Ascii.eqb c sep).
  - right. exists "", s. now rewrite split_char_zero.
  - destruct IH as [[a ->]|(a & b & ->)]; [left | right]; eauto.
Qed.

Lemma has_char_app sep a b :
  PyStr.has_char sep (a ++ b) = PyStr.has_char sep a || PyStr.has_char sep b.
Proof.
  induction a as [|c a IH]; [reflexivity|]. cbn [append PyStr.has_char].
  now rewrite IH, orb_assoc.
Qed.

(** The pieces of [proto//rest] at its first three slashes and at its first
    two. *)
Lemma split_url proto rest :
  PyStr.has_char "/" proto = false ->
  PyStr.split_char "/" 3 (proto ++ "//" ++ rest)
  = proto :: "" :: PyStr.split_char "/" 1 rest
  /\ PyStr.split_char "/" 2 (proto ++ "//" ++ rest) = [proto; ""; rest].
Proof.
  intros H. change ("//" ++ rest)%string with (String "/" (String "/" rest)).
  rewrite !(split_char_cut "/" _ proto _ H).
  change (String "/" rest) with ("" ++ String "/" rest)%string.
  rewrite !(split_char_cut "/" _ "" rest eq_refl).
  now rewrite split_char_zero.
Qed.

End UrlFacts.

(** A URL [proto//host/path] with a supported protocol and no port is taken
    apart into its protocol, host and path, with port 80 for [http:] and 443
    for [https:]; the path may contain further slashes. *)
Theorem parse_url_with_path (proto host path : string) :
  proto = "http:" \/ proto = "https:" ->
  PyStr.has_char "/" host = false ->
  PyStr.has_char ":" host = false ->
  parse_url (proto ++ "//" ++ host ++ "/" ++ path)
  = inr (proto, host, if String.eqb proto "http:" then 80%Z else 443%Z, path).
Proof.
  intros Hp Hs Hc.
  assert (Hps : PyStr.has_char "/" proto = false) by (destruct Hp; subst; reflexivity).
  unfold parse_url.
  destruct (split_url proto (host ++ "/" ++ path) Hps) as [-> _].
  change ("/" ++ path)%string with (String "/" path).
  rewrite (split_char_cut "/" 0 host path Hs), split_char_zero, Hc.
  destruct Hp; subst; reflexivity.
Qed.

Lemma parse_url_with_path_witness :
  parse_url ("https:" ++ "//" ++ "api.github.com" ++ "/" ++ "repos/u/r/releases/latest")
  = inr ("https:", "api.github.com", 443%Z, "repos/u/r/releases/latest").
Proof.
  apply (parse_url_with_path "https:" "api.github.com" "repos/u/r/releases/latest");
    [now right | reflexivity | reflexivity].
Defined.

(** A URL [proto//host] without a path: the four-way unpacking fails and
    the three-way one gives the empty path. *)
Theorem parse_url_without_path (proto host : string) :
  proto = "http:" \/ proto = "https:" ->
  PyStr.has_char "/" host = false ->
  PyStr.has_char ":" host = false ->
  parse_url (proto ++ "//" ++ host)
  = inr (proto, host, if String.eqb proto "http:" then 80%Z else 443%Z, "").
Proof.
  intros Hp Hs Hc.
  assert (Hps : PyStr.has_char "/" proto = false) by (destruct Hp; subst; reflexivity).
  unfold parse_url.
  destruct (split_url proto host Hps) as [-> ->].
  rewrite (split_char_whole "/" 1 host Hs), Hc.
  destruct Hp; subst; reflexivity.
Qed.

Lemma parse_url_without_path_witness :
  parse_url ("http:" ++ "//" ++ "example.com")
  = inr ("http:", "example.com", 80%Z, "").
Proof.
  apply (parse_url_without_path "http:" "example.com");
    [now left | reflexivity | reflexivity].
Defined.

Section PortFacts.

Lemma to_uint_nonnil (n : nat) : Nat.to_uint n <> Decimal.Nil.
Proof.
  intros H. pose proof (Unsigned.of_to n) as E. rewrite H in E.
  cbn in E. subst n. discriminate H.
Qed.

Lemma numeral_lstrip (u : Decimal.uint) :
  PyStr.lstrip (NilEmpty.string_of_uint u) = NilEmpty.string_of_uint u.
Proof. destruct u; reflexivity. Qed.

Lemma numeral_rstrip (u : Decimal.uint) :
  PyStr.rstrip (NilEmpty.string_of_uint u) = NilEmpty.string_of_uint u.
Proof.
  induction u; cbn [NilEmpty.string_of_uint PyStr.rstrip]; try reflexivity;
    rewrite IHu; destruct (NilEmpty.string_of_uint u); reflexivity.
Qed.

Lemma numeral_no_char (c : ascii) (u : Decimal.uint) :
  PyStr.is_digit c = false ->
  PyStr.has_char c (NilEmpty.string_of_uint u) = false.
Proof.
  intros Hc. induction u; cbn [NilEmpty.string_of_uint PyStr.has_char];
    try reflexivity; rewrite IHu, orb_false_r;
    (destruct (Ascii.eqb _ c) eqn:E; [|reflexivity]);
    apply Ascii.eqb_eq in E; subst c; discriminate Hc.
Qed.

(** The digit loop of [int] on a numeral computes its value. *)
Lemma numeral_value (u : Decimal.uint) :
  forall acc : nat,
    PyStr.digits_value (Z.of_nat acc) true (NilEmpty.string_of_uint u)
    = Some (Z.of_nat (Nat.of_uint_acc u acc)).
Proof.
  induction u; intros acc; cbn [NilEmpty.string_of_uint Nat.of_uint_acc];
    try reflexivity;
    cbn [PyStr.digits_value];
    match goal with
    | |- context [PyStr.is_digit ?c] =>
        change (PyStr.is_digit c) with true; cbv iota
    end;
    rewrite <- IHu; f_equal; rewrite Nat.tail_mul_spec; cbn [nat_of_ascii];
    vm_compute (nat_of_ascii _ - 48); lia.
Qed.

(** [int] reads back the decimal numeral of every natural number. *)
Lemma int_of_numeral (n : nat) : PyStr.int_of (PyStr.of_nat n) = Some (Z.of_nat n).
Proof.
  unfold PyStr.of_nat, NilZero.string_of_uint.
  pose proof (to_uint_nonnil n) as Hn. pose proof (Unsigned.of_to n) as E.
  unfold Nat.of_uint in E.
  destruct (Nat.to_uint n) as [|u|u|u|u|u|u|u|u|u|u] eqn:Eu; [congruence| ..];
    unfold PyStr.int_of; rewrite numeral_lstrip, numeral_rstrip;
    cbn [NilEmpty.string_of_uint];
    match goal with
    | |- context [String ?c _] =>
        change (Ascii.eqb c "-") with false; change (Ascii.eqb c "+") with false;
        cbv iota
    end;
    cbn [Nat.of_uint_acc] in E;
    cbn [PyStr.digits_value];
    match goal with
    | |- context [PyStr.is_digit ?c] =>
        change (PyStr.is_digit c) with true; cbv iota
    end;
    match goal with
    | |- PyStr.digits_value ?z true _ = _ =>
        let k := eval vm_compute in (Z.to_nat z) in
        change z with (Z.of_nat k)
    end;
    rewrite numeral_value; f_equal; f_equal; rewrite <- E; reflexivity.
Qed.

Lemma numeral_no_slash (n : nat) : PyStr.has_char "/" (PyStr.of_nat n) = false.
Proof.
  unfold PyStr.of_nat, NilZero.string_of_uint.
  destruct (Nat.to_uint n) eqn:E; [reflexivity| ..];
    rewrite <- E; apply numeral_no_char; reflexivity.
Qed.

(** The port of a URL [proto//host:port/path] is what [int] makes of the
    text after the first colon of the host part. *)
Lemma parse_url_port (proto host port path : string) :
  proto = "http:" \/ proto = "https:" ->
  PyStr.has_char "/" host = false ->
  PyStr.has_char ":" host = false ->
  PyStr.has_char "/" port = false ->
  parse_url (proto ++ "//" ++ (host ++ ":" ++ port) ++ "/" ++ path)
  = match PyStr.int_of port with
    | Some n => inr (proto, host, n, path)
    | None => inl ValueError
    end.
Proof.
  intros Hp Hs Hc Hps.
  assert (Hpr : PyStr.has_char "/" proto = false) by (destruct Hp; subst; reflexivity).
  assert (Hhp : PyStr.has_char "/" (host ++ ":" ++ port) = false).
  { rewrite !has_char_app, Hs, Hps. reflexivity. }
  assert (Hcol : PyStr.has_char ":" (host ++ ":" ++ port) = true).
  { rewrite !has_char_app. cbn. apply orb_true_r. }
  unfold parse_url.
  destruct (split_url proto ((host ++ ":" ++ port) ++ "/" ++ path) Hpr) as [-> _].
  change ("/" ++ path)%string with (String "/" path).
  rewrite (split_char_cut "/" 0 _ path Hhp), split_char_zero, Hcol.
  change (":" ++ port)%string with (String ":" port).
  rewrite (split_char_cut ":" 0 host port Hc), split_char_zero.
  destruct Hp; subst; cbn [String.eqb Ascii.eqb Bool.eqb];
    destruct (PyStr.int_of port); reflexivity.
Qed.

End PortFacts.

(** A URL [proto//host:port/path] whose port is the decimal numeral of a
    natural number [n]: the host is the text before the first colon of the
    host part and the port is [n], whatever the protocol's default port.
    With nothing after the colon, [int('')] raises [ValueError]. *)
Theorem parse_url_with_port (proto host path : string) (n : nat) :
  proto = "http:" \/ proto = "https:" ->
  PyStr.has_char "/" host = false ->
  PyStr.has_char ":" host = false ->
  parse_url (proto ++ "//" ++ (host ++ ":" ++ PyStr.of_nat n) ++ "/" ++ path)
  = inr (proto, host, Z.of_nat n, path)
  /\ parse_url (proto ++ "//" ++ (host ++ ":") ++ "/" ++ path) = inl ValueError.
Proof.
  intros Hp Hs Hc. split.
  - rewrite (parse_url_port proto host (PyStr.of_nat n) path Hp Hs Hc
               (numeral_no_slash n)).
    now rewrite int_of_numeral.
  - exact (parse_url_port proto host "" path Hp Hs Hc eq_refl).
Qed.

Lemma parse_url_with_port_witness :
  parse_url ("http:" ++ "//" ++ ("localhost" ++ ":" ++ PyStr.of_nat 3128) ++ "/" ++ "a/b")
  = inr ("http:", "localhost", Z.of_nat 3128, "a/b")
  /\ parse_url ("http:" ++ "//" ++ ("localhost" ++ ":") ++ "/" ++ "a/b")
     = inl ValueError.
Proof.
  apply (parse_url_with_port "http:" "localhost" "a/b" 3128);
    [now left | reflexivity | reflexivity].
Defined.

(** A URL [proto//rest] whose protocol is neither [http:] nor [https:] makes
    [request] raise [ValueError] before anything else happens: no name is
    resolved and no socket is created. *)
Theorem request_unsupported_protocol (env : Env) (method_ proto rest : string)
    (data : option string) (json_ : option json)
    (headers : list (string * string)) (w : World) :
  PyStr.has_char "/" proto = false ->
  proto <> "http:" -> proto <> "https:" ->
  request env method_ (proto ++ "//" ++ rest) data json_ headers w
  = (inl ValueError, w).
Proof.
  intros Hs H1 H2.
  assert (E1 : String.eqb proto "http:" = false) by now apply String.eqb_neq.
  assert (E2 : String.eqb proto "https:" = false) by now apply String.eqb_neq.
  assert (Hu : parse_url (proto ++ "//" ++ rest) = inl ValueError).
  { unfold parse_url. destruct (split_url proto rest Hs) as [-> ->].
    destruct (split_char_once "/" rest) as [[a ->]|(a & b & ->)];
      now rewrite E1, E2. }
  unfold request, bind, lift. now rewrite Hu.
Qed.

Lemma request_unsupported_protocol_witness :
  request Sample.env "GET" ("ftp:" ++ "//" ++ "example.com/file") None None []
          Sample.flash
  = (inl ValueError, Sample.flash).
Proof.
  apply (request_unsupported_protocol Sample.env "GET" "ftp:" "example.com/file");
    [reflexivity | discriminate | discriminate].
Defined.

(* ------------------------------------------------------------------ *)
(** ** Who closes the socket *)
(* ------------------------------------------------------------------ *)

Section Ownership.

Lemma still_open_refl s : still_open s s.
Proof. split; reflexivity. Qed.

Lemma still_open_trans a b c : still_open a b -> still_open b c -> still_open a c.
Proof. intros [A1 A2] [B1 B2]. split; congruence. Qed.

Lemma keeps_io_open {A : Type} (f : sock -> A * sock) :
  (forall s, still_open s (snd (f s))) -> keeps still_open (Net.io f).
Proof.
  intros Hf s r s'. unfold Net.io. destruct (Net.faulty s).
  - intros [= <- <-]. split; reflexivity.
  - specialize (Hf (Net.bump s)). destruct (f (Net.bump s)) as [a s1].
    intros [= <- <-]. exact Hf.
Qed.

Lemma keeps_write_open d : keeps still_open (Net.write d).
Proof. apply keeps_io_open. intros s. split; reflexivity. Qed.

Lemma keeps_unread_open : keeps still_open Net.unread.
Proof. intros s r s' [= <- <-]. apply still_open_refl. Qed.

(** Goals [keeps still_open c] for code built from the socket calls. *)
Ltac open_all :=
  cbv zeta;
  lazymatch goal with
  | |- keeps still_open (bind _ _) =>
      apply keeps_bind; [exact still_open_trans | open_all | intros ?; open_all]
  | |- keeps still_open (when _ _) =>
      apply keeps_when; [exact still_open_refl | open_all]
  | |- keeps still_open (for_each _ _) =>
      apply keeps_for_each;
      [exact still_open_refl | exact still_open_trans | intros ?; open_all]
  | |- keeps still_open (ret _) => apply keeps_ret; exact still_open_refl
  | |- keeps still_open (raise _) => apply keeps_raise; exact still_open_refl
  | |- keeps still_open (lift _) => apply keeps_lift; exact still_open_refl
  | |- keeps still_open (Net.write _) => apply keeps_write_open
  | |- keeps still_open (Net.io _) =>
      apply keeps_io_open; intros ?; split; reflexivity
  | |- keeps still_open Net.unread => apply keeps_unread_open
  | |- keeps still_open Net.readline => unfold Net.readline; open_all
  | |- keeps still_open Net.connect => unfold Net.connect; open_all
  | |- keeps still_open Net.wrap_socket => unfold Net.wrap_socket; open_all
  | |- keeps still_open (Net.settimeout _) => unfold Net.settimeout; open_all
  | |- keeps still_open (match ?x with _ => _ end) => destruct x; open_all
  | |- _ => solve [auto]
  end.

Lemma keeps_send_request_open env method_ host path data json_ headers :
  keeps still_open (send_request env method_ host path data json_ headers).
Proof. unfold send_request, write_headers. open_all. Qed.

Lemma keeps_read_headers_open fuel status :
  keeps still_open (read_headers fuel status).
Proof. induction fuel as [|f IH]; cbn [read_headers]; open_all. Qed.

Lemma keeps_exchange_open env proto method_ host path data json_ headers :
  keeps still_open (exchange env proto method_ host path data json_ headers).
Proof.
  pose proof keeps_send_request_open. pose proof keeps_read_headers_open.
  unfold exchange, read_response. open_all.
Qed.

End Ownership.

(** Once the URL is parsed and the host resolved, [request] creates exactly
    one socket and never calls [read()] on it; it calls [close()] on it once
    if it raises [OSError] and not at all otherwise, whether it returns a
    [Response] or raises another exception.  The file system is not
    touched. *)
Theorem request_socket_accounting (env : Env) (method_ url : string)
    (data : option string) (json_ : option json)
    (headers : list (string * string)) (w : World)
    (proto host path : string) (port : Z) (pl : plan) :
  parse_url url = inr (proto, host, port, path) ->
  server env host port = Some pl ->
  exists x s w',
    request env method_ url data json_ headers w = (x, w')
    /\ socks w' = socks w ++ [s]
    /\ fs w' = fs w /\ trace w' = trace w
    /\ s_reads s = 0
    /\ s_closed s = match x with inl OSError => 1 | _ => 0 end.
Proof.
  intros Hu Hsv.
  rewrite (request_run env method_ url data json_ headers w _ _ _ _ _ Hu Hsv).
  destruct (exchange env proto method_ host path data json_ headers (Net.fresh pl))
    as [r s] eqn:E.
  destruct (keeps_exchange_open _ _ _ _ _ _ _ _ _ _ _ E) as [Hc Hr].
  cbn [Net.fresh s_closed s_reads] in Hc, Hr.
  destruct r as [e|[status reason_]]; [destruct e|];
    cbn [request_outcome]; eexists; eexists; eexists;
    (split; [reflexivity|]); cbn [socks fs trace];
    (split; [reflexivity|]); (split; [reflexivity|]); (split; [reflexivity|]);
    cbn [Net.close snd s_reads s_closed]; (split; [exact Hr|]);
    rewrite ?Hc; reflexivity.
Qed.

Lemma request_socket_accounting_witness :
  exists x s w',
    request Sample.env "GET" "https://api.github.com/repos/u/r/releases/latest"
            None None [] Sample.flash = (x, w')
    /\ socks w' = socks Sample.flash ++ [s]
    /\ fs w' = fs Sample.flash /\ trace w' = trace Sample.flash
    /\ s_reads s = 0
    /\ s_closed s = match x with inl OSError => 1 | _ => 0 end.
Proof.
  apply (request_socket_accounting Sample.env "GET"
           "https://api.github.com/repos/u/r/releases/latest" None None []
           Sample.flash "https:" "api.github.com" "repos/u/r/releases/latest"
           443%Z (mk_plan Sample.api None));
    reflexivity.
Defined.

(* ------------------------------------------------------------------ *)
(** ** The exchange, further *)
(* ------------------------------------------------------------------ *)

Section ExchangeFacts.

Lemma raises_now {A : Type} (e : exn) : raises_after [] (@raise sock A e) e.
Proof. intros s _. exists s. split; [reflexivity | apply sent_refl]. Qed.

Lemma raises_seq {A B : Type} d1 d2 (c : ST sock A) (k : A -> ST sock B) a e :
  sends d1 c a -> raises_after d2 (k a) e -> raises_after (d1 ++ d2) (bind c k) e.
Proof.
  intros Hc Hk s Hs. destruct (Hc s Hs) as (s1 & E1 & S1).
  destruct (Hk s1 (sent_healthy _ _ _ S1 Hs)) as (s2 & E2 & S2).
  exists s2. split; [now rewrite (bind_ret _ _ _ _ _ E1) | now apply sent_trans with s1].
Qed.

Lemma raises_first {A B : Type} ds (c : ST sock A) (k : A -> ST sock B) e :
  raises_after ds c e -> raises_after ds (bind c k) e.
Proof.
  intros Hc s Hs. destruct (Hc s Hs) as (s1 & E1 & S1).
  exists s1. split; [now rewrite (bind_raise _ _ _ _ _ E1) | exact S1].
Qed.

Lemma send_request_asserts env method_ host path d j headers :
  raises_after (head_chunks method_ host path headers)
    (send_request env method_ host path (Some d) (Some j) headers)
    AssertionError.
Proof.
  unfold send_request, head_chunks.
  apply (raises_seq _ _ _ _ tt); [apply sends_write|].
  apply (raises_seq _ _ _ _ tt).
  { unfold host_header. destruct (Py.has_key "Host" headers); cbn [negb when].
    - apply sends_ret.
    - apply sends_write. }
  apply (raises_seq _ _ _ _ tt); [apply sends_write_headers|].
  unfold user_agent.
  apply (raises_seq ["User-Agent"] _ _ _ tt); [apply sends_write|].
  apply (raises_seq [": "] _ _ _ tt); [apply sends_write|].
  apply (raises_seq ["MicroPython OTAUpdater"] _ _ _ tt); [apply sends_write|].
  apply (raises_seq [CRLF] [] _ _ tt); [apply sends_write|].
  apply raises_first, raises_now.
Qed.

(** The header loop over lines it passes, up to the blank line. *)
Lemma read_headers_accepts status body :
  forall hs fuel s,
    healthy s ->
    Net.pending s = (String.concat "" hs ++ CRLF ++ body)%string ->
    Forall (fun h => passes status h = true) hs ->
    List.length hs < fuel ->
    exists s', read_headers fuel status s = (inr tt, s')
               /\ Net.pending s' = body /\ only_lines s s'.
Proof.
  induction hs as [|h hs IH]; intros fuel s Hs Hp Hall Hf.
  - destruct fuel as [|f]; [cbn in Hf; lia|]. cbn [read_headers].
    cbn [String.concat append] in Hp.
    destruct (readline_run s CRLF body Hs Hp eq_refl) as (s1 & E1 & P1 & K1).
    rewrite (bind_ret _ _ _ _ _ E1). rewrite String.eqb_refl, orb_true_r.
    exists s1. split; [reflexivity | split; assumption].
  - destruct fuel as [|f]; [cbn in Hf; lia|]. cbn [read_headers].
    inversion Hall as [|? ? Hh Hall']; subst.
    rewrite concat_cons, append_assoc in Hp.
    pose proof Hh as Hh'. unfold passes in Hh'.
    apply andb_true_iff in Hh' as [Hh' _]. apply andb_true_iff in Hh' as [Hh' _].
    apply andb_true_iff in Hh' as [Hline Hnb]. apply negb_true_iff in Hnb.
    destruct (readline_run s h _ Hs Hp Hline) as (s1 & E1 & P1 & K1).
    rewrite (bind_ret _ _ _ _ _ E1).
    rewrite (is_line_truthy _ Hline), Hnb. cbn [negb orb].
    destruct (IH f s1 (only_lines_healthy _ _ K1 Hs) P1 Hall') as (s2 & E2 & P2 & K2);
      [cbn in Hf; lia|].
    exists s2. split; [|split; [exact P2 | exact (only_lines_trans _ _ _ K1 K2)]].
    unfold bind at 1, lift. rewrite (check_header_passes _ _ Hh). exact E2.
Qed.

Lemma read_response_accepts status reason_ sl hs body s :
  healthy s ->
  Net.pending s = (sl ++ String.concat "" hs ++ CRLF ++ body)%string ->
  is_line sl = true -> parse_status sl = inr (status, reason_) ->
  Forall (fun h => passes status h = true) hs ->
  exists s', read_response s = (inr (status, reason_), s')
             /\ Net.pending s' = body /\ only_lines s s'.
Proof.
  intros Hs Hp Hsl Hst Hall. unfold read_response.
  destruct (readline_run s sl _ Hs Hp Hsl) as (s1 & E1 & P1 & K1).
  rewrite (bind_ret _ _ _ _ _ E1).
  unfold bind at 1, lift. rewrite Hst.
  unfold bind at 1, Net.unread.
  destruct (read_headers_accepts status body hs
              (S (String.length (Net.pending s1))) s1
              (only_lines_healthy _ _ K1 Hs) P1 Hall) as (s2 & E2 & P2 & K2).
  { rewrite P1, append_length.
    assert (Hpl : Forall (fun h => is_line h = true) hs).
    { eapply Forall_impl; [|exact Hall]. intros h Hh. unfold passes in Hh.
      apply andb_true_iff in Hh as [Hh _]. apply andb_true_iff in Hh as [Hh _].
      now apply andb_true_iff in Hh as [Hh _]. }
    pose proof (is_lines_length hs Hpl). lia. }
  exists s2. split; [|split; [exact P2 | exact (only_lines_trans _ _ _ K1 K2)]].
  rewrite (bind_ret _ _ _ _ _ E2). reflexivity.
Qed.

End ExchangeFacts.

(** When both [json] and [data] are given, [request] raises
    [AssertionError] after it has written the request line and all headers
    up to the user agent, and leaves the socket open: the partial request is
    on the wire and [close()] is never called. *)
Theorem request_json_and_data_asserts (env : Env) (method_ url : string)
    (d : string) (j : json) (headers : list (string * string)) (w : World)
    (proto host path : string) (port : Z) (pl : plan) :
  parse_url url = inr (proto, host, port, path) ->
  server env host port = Some pl ->
  fault_at pl = None ->
  exists s,
    request env method_ url (Some d) (Some j) headers w
    = (inl AssertionError, mk_world (fs w) (trace w) (socks w ++ [s]))
    /\ s_written s = head_chunks method_ host path headers
    /\ s_closed s = 0.
Proof.
  intros Hu Hsv Hf.
  rewrite (request_run env method_ url (Some d) (Some j) headers w _ _ _ _ _ Hu Hsv).
  pose proof (fresh_healthy _ Hf) as Hs.
  unfold exchange.
  destruct (sends_settimeout 5 _ Hs) as (s1 & E1 & S1).
  rewrite (bind_ret _ _ _ _ _ E1).
  pose proof (sent_healthy _ _ _ S1 Hs) as H1.
  destruct (sends_connect s1 H1) as (s2 & E2 & S2).
  rewrite (bind_ret _ _ _ _ _ E2).
  pose proof (sent_healthy _ _ _ S2 H1) as H2.
  destruct (sends_when (String.eqb proto "https:") [] _ sends_wrap_socket s2 H2)
    as (s3 & E3 & S3).
  rewrite (bind_ret _ _ _ _ _ E3).
  assert (S3' : sent [] s2 s3) by (destruct (String.eqb proto "https:"); exact S3).
  pose proof (sent_healthy _ _ _ S3' H2) as H3.
  destruct (send_request_asserts env method_ host path d j headers s3 H3)
    as (s4 & E4 & S4).
  rewrite (bind_raise _ _ _ _ _ E4). cbn [request_outcome].
  exists s4. split; [reflexivity|].
  pose proof (sent_trans _ _ _ _ _ (sent_trans _ _ _ _ _ (sent_trans _ _ _ _ _ S1 S2) S3') S4)
    as (_ & W & _ & _ & C).
  cbn [Net.fresh s_written s_closed app] in W, C. split; assumption.
Qed.

Lemma request_json_and_data_asserts_witness :
  let pl := mk_plan (fun _ => "") None in
  let env := mk_env (fun _ _ => Some pl) (fun _ => None) (fun _ => "{}") in
  let w := mk_world (Vfs.Dir []) [] [] in
  exists s,
    request env "POST" "http://example.com/api" (Some "raw") (Some (JObj []))
            [("Accept", "*/*")] w
    = (inl AssertionError, mk_world (fs w) (trace w) (socks w ++ [s]))
    /\ s_written s = head_chunks "POST" "example.com" "api" [("Accept", "*/*")]
    /\ s_closed s = 0.
Proof.
  intros pl env w.
  apply (request_json_and_data_asserts env "POST" "http://example.com/api" "raw"
           (JObj []) [("Accept", "*/*")] w "http:" "example.com" "api" 80%Z pl);
    reflexivity.
Defined.

(** The round trip of a GET: when the reply is a status line, header lines
    that are not rejected, a blank line and a body, [request] returns a
    [Response] with the status code and reason of the status line, and the
    first read of its content returns exactly the body, closes the socket
    (one [close()] call) and detaches it. *)
Theorem request_then_content (env : Env) (method_ url : string)
    (data : option string) (json_ : option json)
    (headers : list (string * string)) (w : World)
    (proto host path : string) (port : Z) (pl : plan)
    (sl : string) (status : Z) (reason_ : string)
    (hs : list string) (body : string) :
  parse_url url = inr (proto, host, port, path) ->
  server env host port = Some pl ->
  fault_at pl = None ->
  json_ = None \/ data = None ->
  respond pl (String.concat ""
                (wire_chunks env method_ host path data json_ headers))
  = (sl ++ String.concat "" hs ++ CRLF ++ body)%string ->
  is_line sl = true ->
  parse_status sl = inr (status, reason_) ->
  Forall (fun h => passes status h = true) hs ->
  exists resp w1 resp' s w2,
    request env method_ url data json_ headers w = (inr resp, w1)
    /\ status_code resp = status /\ reason resp = reason_
    /\ content resp w1 = (inr body, resp', w2)
    /\ raw resp' = None /\ cached resp' = Some body
    /\ socks w2 = socks w ++ [s] /\ s_closed s = 1 /\ s_reads s = 1.
Proof.
  intros Hu Hsv Hf Hdj Hreply Hsl Hst Hall.
  rewrite (request_run env method_ url data json_ headers w _ _ _ _ _ Hu Hsv).
  destruct (exchange_split env proto method_ host path data json_ headers
              (Net.fresh pl) (fresh_healthy _ Hf) Hdj) as (s1 & S1 & E1).
  rewrite E1.
  pose proof (sent_healthy _ _ _ S1 (fresh_healthy _ Hf)) as H1.
  destruct S1 as (P1 & W1 & R1 & D1 & C1).
  cbn [Net.fresh s_written s_plan s_rpos s_reads s_closed app] in *.
  assert (Hp : Net.pending s1 = (sl ++ String.concat "" hs ++ CRLF ++ body)%string).
  { unfold Net.pending, Net.incoming. rewrite R1, P1, W1. exact Hreply. }
  destruct (read_response_accepts status reason_ sl hs body s1 H1 Hp Hsl Hst Hall)
    as (s2 & E2 & P2 & K2).
  rewrite E2. cbn [request_outcome].
  pose proof (only_lines_healthy _ _ K2 H1) as H2.
  destruct K2 as (_ & _ & D2 & C2).
  eexists. eexists. eexists. eexists. eexists.
  split; [reflexivity|]. split; [reflexivity|]. split; [reflexivity|].
  unfold content. cbn [cached raw]. rewrite on_sock_last.
  unfold Net.read at 1 2, Net.io. rewrite (healthy_not_faulty _ H2).
  cbn [fst snd]. rewrite on_sock_last. cbn [fst snd Net.close].
  assert (Hpb : Net.pending (Net.bump s2) = body) by exact P2.
  rewrite Hpb.
  split; [reflexivity|]. split; [reflexivity|]. split; [reflexivity|].
  split; [reflexivity|]. cbn [s_closed s_reads Net.bump]. split; congruence.
Qed.

Lemma request_then_content_witness :
  exists resp w1 resp' s w2,
    request Sample.env "GET" "https://raw.example.com/u/r/v1.2/main/a.py"
            None None [] Sample.flash = (inr resp, w1)
    /\ status_code resp = 200%Z /\ reason resp = "OK"
    /\ content resp w1 = (inr "print(1)", resp', w2)
    /\ raw resp' = None /\ cached resp' = Some "print(1)"
    /\ socks w2 = socks Sample.flash ++ [s] /\ s_closed s = 1 /\ s_reads s = 1.
Proof.
  apply (request_then_content Sample.env "GET"
           "https://raw.example.com/u/r/v1.2/main/a.py" None None []
           Sample.flash "https:" "raw.example.com" "u/r/v1.2/main/a.py" 443%Z
           (mk_plan Sample.raw_files None)
           ("HTTP/1.0 200 OK" ++ CRLF)%string 200%Z "OK"
           [("Content-Type: text/plain" ++ CRLF)%string] "print(1)");
    [reflexivity | reflexivity | reflexivity | now left | reflexivity
    | reflexivity | reflexivity | repeat constructor].
Defined.

(* ------------------------------------------------------------------ *)
(** ** The life of a Response *)
(* ------------------------------------------------------------------ *)

Section ResponseFacts.

Lemma nth_error_set_nth {A : Type} (l : list A) i x y :
  nth_error l i = Some x -> nth_error (set_nth i y l) i = Some y.
Proof.
  revert i; induction l as [|z l IH]; intros [|i] H; try discriminate.
  - reflexivity.
  - cbn in *. now apply IH.
Qed.

Lemma set_nth_twice {A : Type} (l : list A) i x y :
  set_nth i y (set_nth i x l) = set_nth i y l.
Proof.
  revert i; induction l as [|z l IH]; intros [|i]; cbn; try reflexivity.
  now rewrite IH.
Qed.

(** Socket code run on a socket object of the store. *)
Lemma on_sock_at {A : Type} (c : ST sock A) id w s :
  nth_error (socks w) id = Some s ->
  on_sock id c w
  = (fst (c s), mk_world (fs w) (trace w) (set_nth id (snd (c s)) (socks w))).
Proof. unfold on_sock. intros ->. now destruct (c s). Qed.

End ResponseFacts.

(** The first [json()] on a fresh [Response] closes the socket exactly once
    and detaches it, whether the read fails, the body does not decode
    ([ValueError]) or a document is returned; [close()] afterwards does not
    touch the socket, and when the body was read a second [json()] gives the
    same outcome from the cache without touching the socket either. *)
Theorem response_json_closes_once (env : Env) (id : nat) (status : Z)
    (reason_ : string) (w : World) (s : sock) :
  nth_error (socks w) id = Some s ->
  exists x r' s' w',
    Response_json env (mk_response (Some id) None status reason_) w = (x, r', w')
    /\ w' = mk_world (fs w) (trace w) (set_nth id s' (socks w))
    /\ s_closed s' = S (s_closed s)
    /\ raw r' = None
    /\ (forall e, x = inl e -> e = OSError \/ e = ValueError)
    /\ Response_close r' w'
       = (inr tt, mk_response None None status reason_, w')
    /\ (cached r' <> None -> Response_json env r' w' = (x, r', w')).
Proof.
  intros Hs. unfold Response_json at 1, content. cbn [cached raw].
  rewrite (on_sock_at Net.read id w s Hs).
  destruct (Net.read s) as [a s1] eqn:E1. cbn [fst snd].
  assert (Hc : s_closed s1 = s_closed s).
  { unfold Net.read, Net.io in E1. destruct (Net.faulty s);
      injection E1 as _ <-; reflexivity. }
  assert (He : forall e, a = inl e -> e = OSError).
  { unfold Net.read, Net.io in E1. destruct (Net.faulty s);
      injection E1 as <- _; intros e [= <-]. reflexivity. }
  rewrite (on_sock_at Net.close id
             (mk_world (fs w) (trace w) (set_nth id s1 (socks w))) s1
             (nth_error_set_nth _ _ _ _ Hs)).
  cbn [fst snd Net.close socks fs trace]. rewrite set_nth_twice.
  destruct a as [e|c].
  - eexists. eexists. eexists. eexists. split; [reflexivity|].
    split; [reflexivity|]. cbn [s_closed raw cached].
    split; [now rewrite Hc|]. split; [reflexivity|].
    split; [intros e' [= <-]; left; now apply He|].
    split; [reflexivity | congruence].
  - destruct (ujson_loads env c) as [j|] eqn:El;
      (eexists; eexists; eexists; eexists; split; [reflexivity|];
       split; [reflexivity|]; cbn [s_closed raw cached];
       split; [now rewrite Hc|]; split; [reflexivity|];
       split; [intros e' [=]; try (subst; now right)|];
       split; [reflexivity|]; intros _;
       unfold Response_json, content; cbn [cached]; now rewrite El).
Qed.

Lemma response_json_closes_once_witness :
  let s := Net.fresh (mk_plan (fun _ => "[release]") None) in
  let w := mk_world (Vfs.Dir []) [] [s] in
  exists x r' s' w',
    Response_json Sample.env (mk_response (Some 0) None 200 "OK") w = (x, r', w')
    /\ w' = mk_world (fs w) (trace w) (set_nth 0 s' (socks w))
    /\ s_closed s' = S (s_closed s)
    /\ raw r' = None
    /\ (forall e, x = inl e -> e = OSError \/ e = ValueError)
    /\ Response_close r' w' = (inr tt, mk_response None None 200 "OK", w')
    /\ (cached r' <> None -> Response_json Sample.env r' w' = (x, r', w')).
Proof.
  intros s w.
  apply (response_json_closes_once Sample.env 0 200 "OK" w s). reflexivity.
Defined.

(** [close()] on a [Response] that still holds its socket closes the socket
    once and drops the cache; a second [close()] changes nothing, and the
    content can no longer be read: it raises [AttributeError]. *)
Theorem response_close_then_content (id : nat) (c : option string)
    (status : Z) (reason_ : string) (w : World) (s : sock) :
  nth_error (socks w) id = Some s ->
  exists s' w',
    Response_close (mk_response (Some id) c status reason_) w
    = (inr tt, mk_response None None status reason_, w')
    /\ w' = mk_world (fs w) (trace w) (set_nth id s' (socks w))
    /\ s_closed s' = S (s_closed s) /\ s_reads s' = s_reads s
    /\ Response_close (mk_response None None status reason_) w'
       = (inr tt, mk_response None None status reason_, w')
    /\ content (mk_response None None status reason_) w'
       = (inl AttributeError, mk_response None None status reason_, w').
Proof.
  intros Hs. unfold Response_close at 1. cbn [raw].
  rewrite (on_sock_at Net.close id w s Hs). cbn [fst snd Net.close].
  eexists. eexists. split; [reflexivity|]. split; [reflexivity|].
  cbn [s_closed s_reads]. repeat split; reflexivity.
Qed.

Lemma response_close_then_content_witness :
  let s := Net.fresh (mk_plan Sample.api None) in
  let w := mk_world (Vfs.Dir []) [] [s] in
  exists s' w',
    Response_close (mk_response (Some 0) (Some "body") 200 "OK") w
    = (inr tt, mk_response None None 200 "OK", w')
    /\ w' = mk_world (fs w) (trace w) (set_nth 0 s' (socks w))
    /\ s_closed s' = S (s_closed s) /\ s_reads s' = s_reads s
    /\ Response_close (mk_response None None 200 "OK") w'
       = (inr tt, mk_response None None 200 "OK", w')
    /\ content (mk_response None None 200 "OK") w'
       = (inl AttributeError, mk_response None None 200 "OK", w').
Proof.
  intros s w.
  apply (response_close_then_content 0 (Some "body") 200 "OK" w s). reflexivity.
Defined.

(* ------------------------------------------------------------------ *)
(** ** Versions on flash and the cases of applying *)
(* ------------------------------------------------------------------ *)

(** [get_version] returns [None], without raising and without any effect,
    when the directory does not exist and when it exists but has no
    ['.version'] entry. *)
Theorem get_version_none (directory : string) (w : World) :
  Vfs.lookup (Vfs.split_path directory) (fs w) = None
  \/ (exists es, Vfs.lookup (Vfs.split_path directory) (fs w) = Some (Vfs.Dir es)
                 /\ Py.mem ".version" (map fst es) = false) ->
  get_version directory w = (inr None, w).
Proof.
  intros [H|(es & H & Hm)]; unfold get_version;
    rewrite (bind_ret _ _ _ _ _ (path_exists_run directory w));
    unfold Vfs.stat; rewrite H.
  - reflexivity.
  - rewrite (bind_ret _ _ _ _ _ (bind_ret _ _ _ _ _ (os_listdir_run directory w es H))).
    unfold ret at 1. now rewrite (mem_listed_false _ _ Hm).
Qed.

Lemma get_version_none_witness :
  get_version "next" Sample.flash = (inr None, Sample.flash).
Proof. apply (get_version_none "next" Sample.flash). now left. Defined.

(** [get_version] raises [OSError], without any effect, when the path names
    a regular file (the path exists, listing it fails) and when the
    ['.version'] entry of the directory is itself a directory. *)
Theorem get_version_raises (directory : string) (w : World) :
  (exists data, Vfs.lookup (Vfs.split_path directory) (fs w)
                = Some (Vfs.File data))
  \/ (exists es sub, Vfs.lookup (Vfs.split_path directory) (fs w)
                     = Some (Vfs.Dir es)
                     /\ Vfs.find ".version" es = Some (Vfs.Dir sub)) ->
  get_version directory w = (inl OSError, w).
Proof.
  intros [(data & H)|(es & sub & H & Hf)]; unfold get_version;
    rewrite (bind_ret _ _ _ _ _ (path_exists_run directory w));
    unfold Vfs.stat; rewrite H.
  - unfold bind, os_listdir, fs_get, Vfs.listdir. now rewrite H.
  - rewrite (bind_ret _ _ _ _ _ (bind_ret _ _ _ _ _ (os_listdir_run directory w es H))).
    unfold ret at 1. rewrite mem_listed by reflexivity. rewrite mem_find, Hf.
    unfold bind, open_read, fs_get, Vfs.read_file.
    rewrite (split_path_child directory ".version" eq_refl), lookup_app, H.
    cbn [Vfs.lookup]. now rewrite Hf.
Qed.

Lemma get_version_raises_witness :
  get_version "boot.py" Sample.flash = (inl OSError, Sample.flash).
Proof.
  apply (get_version_raises "boot.py" Sample.flash). left. now exists "import main".
Defined.

(** With no staging directory — the module directory does not exist, or it
    has no ['next'] entry — [apply_pending_updates_if_available] returns and
    changes nothing. *)
Theorem apply_without_staging (self : OTAUpdater) (fuel : nat) (w : World) :
  Vfs.lookup (Vfs.split_path (module_ self)) (fs w) = None
  \/ (exists es, Vfs.lookup (Vfs.split_path (module_ self)) (fs w)
                 = Some (Vfs.Dir es)
                 /\ Py.mem "next" (map fst es) = false) ->
  apply_pending_updates_if_available self fuel w = (inr tt, w).
Proof.
  intros [H|(es & H & Hm)]; unfold apply_pending_updates_if_available;
    rewrite (bind_ret _ _ _ _ _ (path_exists_run (module_ self) w));
    unfold Vfs.stat; rewrite H.
  - reflexivity.
  - rewrite (bind_ret _ _ _ _ _ (bind_ret _ _ _ _ _ (os_listdir_run _ w es H))).
    unfold ret at 1. now rewrite (mem_listed_false _ _ Hm).
Qed.

Lemma apply_without_staging_witness :
  apply_pending_updates_if_available Sample.updater 3 Sample.flash
  = (inr tt, Sample.flash).
Proof.
  apply (apply_without_staging Sample.updater 3 Sample.flash).
  right. eexists. split; reflexivity.
Defined.

(** When a complete staging tree is pending but the live path names a
    regular file, [apply_pending_updates_if_available] raises [OSError] from
    the listing in [rmtree] and changes nothing: the staging tree stays. *)
Theorem apply_fails_on_live_file (self : OTAUpdater) (fuel : nat) (w : World)
    (es : list (string * Vfs.node)) (v data : string) :
  Vfs.lookup (next_dir self) (fs w) = Some (Vfs.Dir es) ->
  Vfs.find ".version" es = Some (Vfs.File v) ->
  Vfs.lookup (live_dir self) (fs w) = Some (Vfs.File data) ->
  apply_pending_updates_if_available self (S fuel) w = (inl OSError, w).
Proof.
  intros Hl Hmark Hlive. unfold apply_pending_updates_if_available.
  destruct (staging_found self w es Hl) as [H1 H2].
  rewrite (bind_ret _ _ _ _ _ H1). rewrite (bind_ret _ _ _ _ _ H2).
  rewrite (bind_ret _ _ _ _ _ (os_listdir_run _ w es Hl)).
  rewrite mem_listed by reflexivity. rewrite mem_find, Hmark.
  rewrite (bind_ret _ _ _ _ _ (get_version_run _ w es v Hl Hmark)).
  rewrite (bind_ret _ _ _ _ _ (path_exists_run _ w)).
  unfold Vfs.stat. fold (live_dir self). rewrite Hlive.
  cbn [when rmtree]. unfold bind, os_ilistdir, fs_get, Vfs.ilistdir.
  fold (live_dir self). now rewrite Hlive.
Qed.

Lemma apply_fails_on_live_file_witness :
  let self := mk_updater "r" "main" "" in
  let w := mk_world
             (Vfs.Dir [("main", Vfs.File "not a directory");
                       ("next", Vfs.Dir [(".version", Vfs.File "v2")])]) [] [] in
  apply_pending_updates_if_available self 1 w = (inl OSError, w).
Proof.
  intros self w.
  apply (apply_fails_on_live_file self 0 w [(".version", Vfs.File "v2")]
           "v2" "not a directory"); reflexivity.
Defined.

(* ------------------------------------------------------------------ *)
(** ** What is never touched *)
(* ------------------------------------------------------------------ *)

Section Frames.

Import Vfs.

Lemma is_prefix_refl p : is_prefix p p = true.
Proof. induction p as [|c p IH]; [reflexivity|]. cbn. now rewrite String.eqb_refl. Qed.

Lemma is_prefix_app p q x : is_prefix p q = true -> is_prefix p (q ++ x) = true.
Proof.
  revert q; induction p as [|c p IH]; intros q H; [reflexivity|].
  destruct q as [|d q]; [discriminate|]. cbn in *.
  apply andb_true_iff in H as [-> H]. now rewrite (IH q H).
Qed.

Lemma is_prefix_app_self p x : is_prefix p (p ++ x) = true.
Proof. apply is_prefix_app, is_prefix_refl. Qed.

Lemma is_prefix_trans p q r :
  is_prefix p q = true -> is_prefix q r = true -> is_prefix p r = true.
Proof.
  revert q r; induction p as [|c p IH]; intros q r H1 H2; [reflexivity|].
  destruct q as [|d q]; [discriminate|]. destruct r as [|e r]; [discriminate|].
  cbn in *. apply andb_true_iff in H1 as [E1 H1].
  apply andb_true_iff in H2 as [E2 H2].
  apply String.eqb_eq in E1, E2. subst. rewrite String.eqb_refl.
  exact (IH q r H1 H2).
Qed.

Lemma is_prefix_split p q :
  is_prefix p q = true -> exists x, q = p ++ x.
Proof.
  revert q; induction p as [|c p IH]; intros q H; [now exists q|].
  destruct q as [|d q]; [discriminate|]. cbn in H.
  apply andb_true_iff in H as [E H]. apply String.eqb_eq in E; subst d.
  destruct (IH q H) as [x ->]. now exists x.
Qed.

(** A path apart from [root] is apart from everything below [root]. *)
Lemma apart_below root p q :
  is_prefix root p = true -> apart root q = true -> apart p q = true.
Proof.
  unfold apart. revert p q; induction root as [|a r IH]; intros p q Hp Hq.
  - cbn in Hq. discriminate.
  - destruct p as [|b p]; [discriminate|].
    cbn [is_prefix] in Hp. apply andb_true_iff in Hp as [E Hp].
    apply String.eqb_eq in E; subst b.
    destruct q as [|c q]; [cbn in Hq; discriminate|].
    cbn [is_prefix] in *. destruct (String.eqb a c) eqn:Eac.
    + apply String.eqb_eq in Eac; subst c. rewrite String.eqb_refl in *.
      cbn [andb] in *. now apply IH.
    + assert (Eca : String.eqb c a = false).
      { apply String.eqb_neq. intros ->. now rewrite String.eqb_refl in Eac. }
      now rewrite Eca.
Qed.

Lemma removal_frame root q o n m :
  removal_under root o -> apart root q = true ->
  apply_op o n = Some m -> lookup q m = lookup q n.
Proof.
  intros Ho Hq Ha.
  destruct o as [p|p|p d|p|p|a b]; try contradiction; cbn [apply_op removal_under] in *.
  - unfold remove in Ha. destruct (lookup (split_path p) n) as [[x|es]|]; try discriminate.
    exact (lookup_set_at_apart _ _ _ _ _ Ha (apart_below _ _ _ Ho Hq)).
  - unfold rmdir in Ha.
    destruct (lookup (split_path p) n) as [[x|[|e es]]|]; try discriminate.
    exact (lookup_set_at_apart _ _ _ _ _ Ha (apart_below _ _ _ Ho Hq)).
Qed.

Lemma staging_frame root q o n m :
  staging_under root o -> apart root q = true ->
  apply_op o n = Some m -> lookup q m = lookup q n.
Proof.
  intros Ho Hq Ha.
  destruct o as [p|p|p d|p|p|a b]; try contradiction; cbn [apply_op staging_under] in *.
  - unfold mkdir in Ha. destruct (lookup (split_path p) n); [discriminate|].
    exact (lookup_set_at_apart _ _ _ _ _ Ha (apart_below _ _ _ Ho Hq)).
  - unfold create in Ha.
    destruct (lookup (split_path p) n) as [[x|es]|]; try discriminate;
      exact (lookup_set_at_apart _ _ _ _ _ Ha (apart_below _ _ _ Ho Hq)).
  - unfold append in Ha.
    destruct (lookup (split_path p) n) as [[x|es]|]; try discriminate;
      exact (lookup_set_at_apart _ _ _ _ _ Ha (apart_below _ _ _ Ho Hq)).
Qed.

Lemma rename_frame a b q n m :
  apart (split_path a) q = true -> apart (split_path b) q = true ->
  rename a b n = Some m -> lookup q m = lookup q n.
Proof.
  intros Ha Hb. unfold rename.
  destruct (lookup (split_path a) n) as [x|]; [|discriminate].
  destruct (set_at (split_path a) None n) as [n1|] eqn:E1; [|discriminate].
  intros H.
  assert (H' : set_at (split_path b) (Some x) n1 = Some m).
  { destruct (lookup (split_path b) n1) as [[y|es]|]; [exact H | discriminate | exact H]. }
  rewrite (lookup_set_at_apart _ _ _ _ _ H' Hb).
  exact (lookup_set_at_apart _ _ _ _ _ E1 Ha).
Qed.

(** Making a directory changes no path that is not above the new one. *)
Lemma mkdir_frame p q n m :
  is_prefix q (split_path p) = false ->
  mkdir p n = Some m -> lookup q m = lookup q n.
Proof.
  intros Hq. unfold mkdir.
  destruct (lookup (split_path p) n) eqn:El; [discriminate|]. intros H.
  destruct (is_prefix (split_path p) q) eqn:Ep.
  - destruct (is_prefix_split _ _ Ep) as [x ->].
    rewrite !lookup_app, El, (lookup_set_at_same _ _ _ _ H).
    destruct x as [|c x]; [|reflexivity].
    rewrite app_nil_r, is_prefix_refl in Hq. discriminate.
  - apply (lookup_set_at_apart _ _ _ _ _ H). unfold apart. now rewrite Ep, Hq.
Qed.

(** Along a run of mutations that each leave an observation of the file
    system alone, every state logged and the final one show what the first
    one showed. *)
Lemma chain_frame {X : Type} (obs : node -> X) (P : fsop -> Prop) :
  (forall o a b, P o -> apply_op o a = Some b -> obs b = obs a) ->
  forall tr n n',
    chain n tr n' -> Forall (fun e => P (fst e)) tr ->
    Forall (fun e => obs (snd e) = obs n) tr /\ obs n' = obs n.
Proof.
  intros Hstep. induction tr as [|[o m] tr IH]; intros n n' Hc Hf.
  - cbn in Hc. subst. split; [constructor | reflexivity].
  - inversion Hf; subst. destruct Hc as [Ha Hc]. cbn [fst snd] in *.
    pose proof (Hstep _ _ _ H1 Ha) as Hm.
    destruct (IH m n' Hc H2) as [Hall Hlast].
    split; [|congruence]. constructor; [exact Hm|].
    eapply Forall_impl; [|exact Hall]. cbn. intros e He. congruence.
Qed.

Lemma grows_frame {X : Type} (obs : node -> X) (P : fsop -> Prop) w w' :
  (forall o a b, P o -> apply_op o a = Some b -> obs b = obs a) ->
  grows P w w' ->
  obs (fs w') = obs (fs w)
  /\ forall o n, In (o, n) (logged w w') -> obs n = obs (fs w).
Proof.
  intros Hstep (tr & T & C & F).
  destruct (chain_frame obs P Hstep tr _ _ C F) as [Hall Hlast].
  split; [exact Hlast|]. intros o n Hin. unfold logged in Hin.
  rewrite T, skipn_app, skipn_all, Nat.sub_diag in Hin. cbn in Hin.
  rewrite Forall_forall in Hall. exact (Hall _ Hin).
Qed.

Lemma grows_weaken (P Q : fsop -> Prop) w w' :
  (forall o, P o -> Q o) -> grows P w w' -> grows Q w w'.
Proof.
  intros H (tr & T & C & F). exists tr. repeat split; try assumption.
  eapply Forall_impl; [|exact F]. intros e. apply H.
Qed.

(** [rmtree] only removes, and only at or below the path it is given. *)
Lemma g_rmtree root :
  forall fuel directory,
    is_prefix root (split_path directory) = true ->
    keeps (grows (removal_under root)) (rmtree fuel directory).
Proof.
  induction fuel as [|f IH]; intros directory Hd; cbn [rmtree].
  - apply g_raise.
  - unfold os_ilistdir. apply g_bind_fs_get. intros n entries Hls.
    apply g_bind.
    + apply g_for_each_in. intros entry Hin.
      assert (Hc : is_prefix root (split_path (directory ++ "/" ++ fst entry)) = true).
      { rewrite (split_path_child _ _ (ilistdir_valid _ _ _ Hls _ Hin)).
        now apply is_prefix_app. }
      destruct (Z.eqb (snd entry) 16384); [now apply IH | now apply g_fs_do].
    + intros _. now apply g_fs_do.
Qed.

End Frames.

(** Whatever [rmtree] does — return, fail part of the way with [OSError], or
    run out of depth — it touches nothing outside the directory it is given:
    every path that is neither below nor above that directory resolves to
    the same object in every file-system state the call passes through and
    in the final one. *)
Theorem rmtree_leaves_rest_alone (fuel : nat) (directory : string) (w : World)
    (r : result unit) (w' : World) (q : Vfs.path) :
  rmtree fuel directory w = (r, w') ->
  apart (Vfs.split_path directory) q = true ->
  Vfs.lookup q (fs w') = Vfs.lookup q (fs w)
  /\ forall o n, In (o, n) (logged w w') -> Vfs.lookup q n = Vfs.lookup q (fs w).
Proof.
  intros Hrun Hq.
  apply (grows_frame (Vfs.lookup q) (removal_under (Vfs.split_path directory))).
  - intros o a b Ho Ha. exact (removal_frame _ _ _ _ _ Ho Hq Ha).
  - exact (g_rmtree _ fuel directory (is_prefix_refl _) _ _ _ Hrun).
Qed.

Lemma rmtree_leaves_rest_alone_witness :
  let w := mk_world
             (Vfs.Dir [("keep.txt", Vfs.File "k");
                       ("main", Vfs.Dir [("x.py", Vfs.File "");
                                         ("a", Vfs.Dir [("b", Vfs.Dir [])])])])
             [] [] in
  let run := rmtree 2 "main" w in
  Vfs.lookup ["keep.txt"] (fs (snd run)) = Vfs.lookup ["keep.txt"] (fs w)
  /\ forall o n, In (o, n) (logged w (snd run)) ->
                 Vfs.lookup ["keep.txt"] n = Vfs.lookup ["keep.txt"] (fs w).
Proof.
  intros w run.
  apply (rmtree_leaves_rest_alone 2 "main" w (fst run) (snd run) ["keep.txt"]);
    [apply surjective_pairing | reflexivity].
Defined.

Section MoreFrames.

Import Vfs.

Variable env : Env.
Variable self : OTAUpdater.

Lemma g_weaken {A : Type} (P Q : fsop -> Prop) (c : M A) :
  (forall o, P o -> Q o) -> keeps (grows P) c -> keeps (grows Q) c.
Proof. intros H Hc w r w' E. exact (grows_weaken P Q _ _ H (Hc _ _ _ E)). Qed.

Lemma g_bind_lift {A B : Type} (P : fsop -> Prop) (x : result A) (k : A -> M B) :
  (forall a, x = inr a -> keeps (grows P) (k a)) ->
  keeps (grows P) (bind (lift x) k).
Proof.
  intros Hk w r w'. unfold bind, lift. destruct x as [e|a].
  - intros [= <- <-]. apply grows_refl.
  - apply (Hk a eq_refl).
Qed.

Lemma g_bind_open_w {B : Type} (P : fsop -> Prop) p (k : string -> M B) :
  P (OpOpenW p) -> keeps (grows P) (k p) -> keeps (grows P) (bind (open_w p) k).
Proof.
  intros Hp Hk w r w' H.
  destruct (bind_inv _ _ _ _ _ H) as [(e & He & _)|(f & w1 & Hf & Hr)].
  - exact (g_open_w P p Hp _ _ _ He).
  - pose proof (open_w_returns _ _ _ _ Hf). subst f.
    exact (grows_trans P _ _ _ (g_open_w P p Hp _ _ _ Hf) (Hk _ _ _ Hr)).
Qed.

Lemma g_apply fuel :
  keeps (grows (promotion_op self)) (apply_pending_updates_if_available self fuel).
Proof.
  unfold apply_pending_updates_if_available.
  apply g_bind; [apply g_path_exists|]. intros e.
  apply g_bind.
  { destruct e; [|apply g_ret].
    apply g_bind; [apply g_fs_get | intros l; apply g_ret]. }
  intros pending. destruct pending; [|apply g_ret].
  apply g_bind; [apply g_fs_get|]. intros l.
  destruct (Py.mem ".version" l).
  - apply g_bind; [apply g_get_version|]. intros _.
    apply g_bind; [apply g_path_exists|]. intros e'.
    apply g_bind.
    + apply g_when.
      apply (g_weaken (removal_under (live_dir self))); [intros o Ho; now left|].
      apply g_rmtree, is_prefix_refl.
    + intros _. apply g_fs_do. right. now right.
  - apply (g_weaken (removal_under (next_dir self))); [intros o Ho; right; now left|].
    apply g_rmtree, is_prefix_refl.
Qed.

Lemma promotion_frame q o a b :
  apart (live_dir self) q = true -> apart (next_dir self) q = true ->
  promotion_op self o -> apply_op o a = Some b -> lookup q b = lookup q a.
Proof.
  intros Hl Hn [Ho|[Ho| ->]] Ha.
  - exact (removal_frame _ _ _ _ _ Ho Hl Ha).
  - exact (removal_frame _ _ _ _ _ Ho Hn Ha).
  - exact (rename_frame _ _ _ _ _ Hn Hl Ha).
Qed.

Lemma staging_path_at file p :
  staging_path self file = inr p ->
  exists rel, p = get_module_and_path self ("next/" ++ rel).
Proof.
  unfold staging_path. destruct (Py.subscript file "path") as [e|v]; [discriminate|].
  destruct (Py.as_str AttributeError v) as [e|x]; [discriminate|].
  intros [= <-]. eexists. reflexivity.
Qed.

Lemma g_download_file_at url path :
  (exists rel, path = get_module_and_path self ("next/" ++ rel)) ->
  keeps (grows (staged_at self)) (download_file env url path).
Proof.
  intros Hp. unfold download_file.
  apply g_bind_open_w; [split; [exact I | exact Hp]|].
  apply g_write_response. intros body. split; [exact I | exact Hp].
Qed.

Lemma g_download_all_files_at fuel :
  forall root_url version,
    keeps (grows (staged_at self))
          (download_all_files env self fuel root_url version).
Proof.
  induction fuel as [|f IH]; intros root_url version; cbn [download_all_files].
  - apply g_raise.
  - apply g_bind; [apply g_lift|]. intros v.
    apply g_bind; [apply g_request|]. intros file_list.
    apply g_bind; [apply g_call, g_Response_json|]. intros [j r1].
    apply g_bind; [apply g_lift|]. intros files.
    apply g_bind.
    + apply g_for_each. intros file. unfold download_entry.
      apply g_bind; [apply g_lift|]. intros ty.
      destruct (Py.eq_str ty "file").
      * apply g_bind; [apply g_lift|]. intros download_url.
        apply g_bind_lift. intros download_path Hpath.
        apply g_bind; [apply g_lift|]. intros url.
        apply g_download_file_at. exact (staging_path_at _ _ Hpath).
      * destruct (Py.eq_str ty "dir"); [|apply g_ret].
        apply g_bind_lift. intros path Hpath.
        apply g_bind.
        { apply g_fs_do. split; [exact I | exact (staging_path_at _ _ Hpath)]. }
        intros _.
        apply g_bind; [apply g_lift|]. intros name.
        apply g_bind; [apply g_lift|]. intros name'.
        apply IH.
    + intros _. apply g_bind; [apply g_call, g_Response_close | intros _; apply g_ret].
Qed.

Lemma g_download_updates_at fuel :
  keeps (grows (download_step self)) (download_updates_if_available env self fuel).
Proof.
  unfold download_updates_if_available.
  apply g_bind.
  { apply (g_weaken (begins self)); [|apply g_begin_staging].
    intros o [-> | ->]; [now left | right; now left]. }
  intros [latest|]; [|apply g_ret].
  apply g_bind.
  { apply (g_weaken (staged_at self)); [intros o Ho; right; now right|].
    apply g_download_all_files_at. }
  intros _. apply g_bind; [|intros _; apply g_ret].
  apply (g_weaken (staged_at self)); [intros o Ho; right; now right|].
  assert (Hm : exists rel, get_module_and_path self "next/.version"
                           = get_module_and_path self ("next/" ++ rel))
    by now exists ".version".
  unfold write_marker. apply g_bind_open_w; [split; [exact I | exact Hm]|].
  apply g_bind; [apply g_lift|]. intros v.
  apply g_fs_do. split; [exact I | exact Hm].
Qed.

Lemma components_module (x : string) :
  components (get_module_and_path self x)
  = components (module_ self) ++ components x.
Proof.
  unfold get_module_and_path. destruct (module_ self) as [|c m] eqn:E.
  - reflexivity.
  - cbn [PyStr.truthy]. apply components_join.
Qed.

(** A path string [<module>/next/<rel>] without ['.'] and ['..'] names
    something at or below the staging directory. *)
Lemma plain_under_next (rel : string) :
  plain (get_module_and_path self ("next/" ++ rel)) = true ->
  is_prefix (next_dir self)
            (split_path (get_module_and_path self ("next/" ++ rel))) = true.
Proof.
  intros Hp. rewrite (split_path_plain _ Hp).
  unfold plain in Hp. rewrite components_module in *.
  assert (E : components ("next/" ++ rel) = ["next"] ++ components rel)
    by exact (components_join "next" rel).
  rewrite E in *. rewrite forallb_app in Hp. apply andb_true_iff in Hp as [Hm _].
  rewrite next_dir_eq. unfold split_path. rewrite (resolve_plain [] _ Hm).
  cbn [app]. change ("next" :: components rel) with (["next"] ++ components rel).
  rewrite app_assoc. apply is_prefix_app_self.
Qed.

Lemma staged_plain_under (o : fsop) :
  staged_at self o -> plain (op_path o) = true ->
  staging_under (next_dir self) o.
Proof.
  intros [Hop (rel & Hrel)] Hp. rewrite Hrel in Hp.
  pose proof (plain_under_next rel Hp) as H. rewrite <- Hrel in H.
  destruct o; try contradiction; exact H.
Qed.

Lemma download_step_plain (o : fsop) :
  download_step self o -> plain (op_path o) = true -> download_op self o.
Proof.
  intros [-> | [-> | Ho]] Hp.
  - now left.
  - right. cbn [staging_under]. apply is_prefix_refl.
  - right. now apply staged_plain_under.
Qed.

(** A run of [download_updates_if_available] whose operations are all at
    paths without ['.'] and ['..'] changed the file system only at and
    below the staging directory, the module directory it may have made
    apart. *)
Lemma download_plain_grows fuel w r w' :
  download_updates_if_available env self fuel w = (r, w') ->
  (forall o n, In (o, n) (logged w w') -> plain (op_path o) = true) ->
  grows (download_op self) w w'.
Proof.
  intros Hrun Hplain.
  destruct (g_download_updates_at fuel _ _ _ Hrun) as (tr & T & C & F).
  exists tr. split; [exact T|]. split; [exact C|].
  apply Forall_forall. intros [o n] Hin. cbn [fst].
  rewrite Forall_forall in F. apply download_step_plain.
  - exact (F _ Hin).
  - apply (Hplain o n). unfold logged.
    rewrite T, skipn_app, skipn_all, Nat.sub_diag. exact Hin.
Qed.

Lemma download_frame q o a b :
  apart (next_dir self) q = true ->
  download_op self o -> apply_op o a = Some b -> lookup q b = lookup q a.
Proof.
  intros Hq [-> | Ho] Ha.
  - cbn [apply_op] in Ha. refine (mkdir_frame _ _ _ _ _ Ha).
    destruct (is_prefix q (split_path (module_ self))) eqn:E; [|reflexivity].
    unfold apart in Hq. apply andb_true_iff in Hq as [_ Hq].
    rewrite next_dir_eq, (is_prefix_app _ _ ["next"] E) in Hq. discriminate.
  - exact (staging_frame _ _ _ _ _ Ho Hq Ha).
Qed.

End MoreFrames.

(** Whatever [apply_pending_updates_if_available] does — promote, discard,
    nothing, or fail part of the way — it touches nothing outside the live
    tree and the staging tree: every path apart from both resolves to the
    same object in every file-system state the call passes through and in
    the final one. *)
Theorem apply_leaves_rest_alone (self : OTAUpdater) (fuel : nat) (w : World)
    (r : result unit) (w' : World) (q : Vfs.path) :
  apply_pending_updates_if_available self fuel w = (r, w') ->
  apart (live_dir self) q = true ->
  apart (next_dir self) q = true ->
  Vfs.lookup q (fs w') = Vfs.lookup q (fs w)
  /\ forall o n, In (o, n) (logged w w') -> Vfs.lookup q n = Vfs.lookup q (fs w).
Proof.
  intros Hrun Hl Hn.
  apply (grows_frame (Vfs.lookup q) (promotion_op self)).
  - intros o a b. now apply promotion_frame.
  - exact (g_apply self fuel _ _ _ Hrun).
Qed.

Lemma apply_leaves_rest_alone_witness :
  let run := apply_pending_updates_if_available Sample.updater 3
               (snd Sample.staged) in
  Vfs.lookup ["boot.py"] (fs (snd run)) = Vfs.lookup ["boot.py"] (fs (snd Sample.staged))
  /\ forall o n, In (o, n) (logged (snd Sample.staged) (snd run)) ->
                 Vfs.lookup ["boot.py"] n
                 = Vfs.lookup ["boot.py"] (fs (snd Sample.staged)).
Proof.
  intros run.
  apply (apply_leaves_rest_alone Sample.updater 3 (snd Sample.staged)
           (fst run) (snd run) ["boot.py"]);
    [apply surjective_pairing | reflexivity | reflexivity].
Defined.

(** When every operation a run of [download_updates_if_available] performs
    is at a path without ['.'] and ['..'] components — the remote listings
    name no such path — the run touches nothing outside the staging tree,
    whether it stages a release, decides against it, or fails part of the
    way: every path that is neither below nor above the staging directory,
    the live tree among them when it is such a path, resolves to the same
    object in every file-system state the call passes through and in the
    final one.  (A listing entry ['main/../boot.py'] is staged at
    ['next/../boot.py'], which is ['boot.py'].) *)
Theorem staging_leaves_rest_alone (env : Env) (self : OTAUpdater) (fuel : nat)
    (w : World) (r : result bool) (w' : World) (q : Vfs.path) :
  download_updates_if_available env self fuel w = (r, w') ->
  (forall o n, In (o, n) (logged w w') -> Vfs.plain (op_path o) = true) ->
  apart (next_dir self) q = true ->
  Vfs.lookup q (fs w') = Vfs.lookup q (fs w)
  /\ forall o n, In (o, n) (logged w w') -> Vfs.lookup q n = Vfs.lookup q (fs w).
Proof.
  intros Hrun Hplain Hq.
  apply (grows_frame (Vfs.lookup q) (download_op self)).
  - intros o a b. now apply download_frame.
  - exact (download_plain_grows env self fuel _ _ _ Hrun Hplain).
Qed.

Lemma staging_leaves_rest_alone_witness :
  Vfs.lookup (live_dir Sample.updater) (fs (snd Sample.interrupted))
  = Vfs.lookup (live_dir Sample.updater) (fs Sample.flash)
  /\ forall o n, In (o, n) (logged Sample.flash (snd Sample.interrupted)) ->
                 Vfs.lookup (live_dir Sample.updater) n
                 = Vfs.lookup (live_dir Sample.updater) (fs Sample.flash).
Proof.
  apply (staging_leaves_rest_alone Sample.env_with_marker Sample.updater 3
           Sample.flash (fst Sample.interrupted) (snd Sample.interrupted)
           (live_dir Sample.updater));
    [unfold Sample.interrupted; apply surjective_pairing | | reflexivity].
  intros o n Hin. vm_compute in Hin.
  repeat (destruct Hin as [Hin|Hin]; [injection Hin as <- _; reflexivity|]).
  destruct Hin.
Defined.

(** Without that condition the property fails: the entry
    ['main/../boot.py'] of a listing is written over [boot.py]. *)
Example staging_steps_out_of_tree :
  exists w',
    download_updates_if_available Sample.env_escaping Sample.updater 3 Sample.flash
    = (inr true, w')
    /\ map fst (trace w')
       = [OpMkdir "next"; OpOpenW "next/../boot.py";
          OpWrite "next/../boot.py" "print(1)"; OpOpenW "next/.version";
          OpWrite "next/.version" "v1.2"]
    /\ Vfs.read_file "boot.py" (fs Sample.flash) = Some "import main"
    /\ Vfs.read_file "boot.py" (fs w') = Some "print(1)".
Proof.
  eexists. split; [vm_compute; reflexivity|]. repeat split; reflexivity.
Qed.

(* ------------------------------------------------------------------ *)
(** ** Staging: the cases around the download *)
(* ------------------------------------------------------------------ *)

Section StagingCases.

Variable env : Env.
Variable self : OTAUpdater.

Lemma grows_nothing w w' :
  grows (fun _ => False) w w' -> fs w' = fs w /\ trace w' = trace w.
Proof.
  intros (tr & T & C & F). destruct tr as [|e tr].
  - cbn in C. rewrite app_nil_r in T. now split.
  - inversion F; contradiction.
Qed.

(** Reading the two versions changes neither the file system nor the log. *)
Lemma versions_read_only w current wa latest wb :
  get_version (get_module_and_path self (main_dir self)) w = (inr current, wa) ->
  get_latest_version env self wa = (inr latest, wb) ->
  fs wb = fs w /\ trace wb = trace w.
Proof.
  intros Hv Hl.
  destruct (grows_nothing _ _ (g_get_version _ _ _ _ _ Hv)) as [F1 T1].
  destruct (grows_nothing _ _ (g_get_latest_version _ _ _ _ _ _ Hl)) as [F2 T2].
  split; congruence.
Qed.

Lemma create_then_append path n n1 :
  Vfs.create path n = Some n1 ->
  forall body, exists n2,
    Vfs.append path body n1 = Some n2
    /\ Vfs.read_file path n2 = Some body
    /\ Vfs.read_file path n1 = Some "".
Proof.
  intros Hc body.
  assert (Hset : Vfs.set_at (Vfs.split_path path) (Some (Vfs.File "")) n = Some n1).
  { unfold Vfs.create in Hc.
    destruct (Vfs.lookup (Vfs.split_path path) n) as [[x|es]|];
      [exact Hc | discriminate | exact Hc]. }
  pose proof (lookup_set_at_same _ _ _ _ Hset) as Hl.
  assert (Hne : Vfs.split_path path <> []).
  { intros E. rewrite E in Hset. discriminate. }
  destruct (set_at_present _ _ (Some (Vfs.File ("" ++ body))) _ Hne Hl) as [n2 Hn2].
  exists n2. unfold Vfs.append, Vfs.read_file. rewrite Hl.
  split; [exact Hn2|]. split; [|reflexivity].
  now rewrite (lookup_set_at_same _ _ _ _ Hn2).
Qed.

End StagingCases.

Section Decision.

Variable env : Env.
Variable self : OTAUpdater.

(** After the two versions are read, the method either returns [False] or
    goes on with lines 93-102, as the test of lines 89-92 says. *)
Lemma download_updates_decided fuel w current wa latest wb go :
  get_version (get_module_and_path self (main_dir self)) w = (inr current, wa) ->
  get_latest_version env self wa = (inr latest, wb) ->
  update_decision current latest = inr go ->
  download_updates_if_available env self fuel w
  = if go then stage_update env self fuel latest wb else (inr false, wb).
Proof.
  intros Hv Hl Hd. unfold download_updates_if_available, begin_staging.
  unfold bind at 1. unfold bind at 1. rewrite Hv.
  unfold bind at 1. rewrite Hl.
  unfold bind at 1, lift at 1. rewrite Hd.
  destruct go; [|reflexivity].
  unfold stage_update, bind, ret.
  destruct (path_exists (module_ self) wb) as [[e|ex] w1]; [reflexivity|].
  destruct (when (negb ex) (os_mkdir (module_ self)) w1) as [[e|[]] w2];
    [reflexivity|].
  destruct (os_mkdir (get_module_and_path self "next") w2) as [[e|[]] w3];
    reflexivity.
Qed.

(** The branch that updates returns [True] or raises. *)
Lemma stage_update_not_false fuel latest w r w' :
  stage_update env self fuel latest w = (r, w') -> r <> inr false.
Proof.
  unfold stage_update. intros H.
  repeat (apply bind_inv in H as [(e & _ & ->)|(? & ? & _ & H)]; [discriminate|]).
  injection H as <- _. discriminate.
Qed.

End Decision.

(** C4 (as amended).  Let [get_version] return the installed version
    [current] and [get_latest_version] a non-empty string [b].  When
    [current] is a non-empty string [a], [download_updates_if_available]
    goes on to stage the update (lines 93-102) exactly when [b > a], which is
    the strict lexicographic order on the bytes of the two strings, and
    returns [False] otherwise; when [get_version] returned [None] it always
    goes on to stage.  The staging branch never returns [False], so the
    decision shows in the result; the two reads leave the file system and
    the log as they were. *)
Theorem download_decides_lexicographically (env : Env) (self : OTAUpdater)
    (fuel : nat) (w wa wb : World) (current : option string) (b : string) :
  get_version (get_module_and_path self (main_dir self)) w = (inr current, wa) ->
  get_latest_version env self wa = (inr (JStr b), wb) ->
  b <> "" ->
  (forall a, current = Some a -> a <> "" ->
     download_updates_if_available env self fuel w
     = (if PyStr.gt b a then stage_update env self fuel (JStr b) wb
        else (inr false, wb))
     /\ (PyStr.gt b a = true <-> lex_lt a b))
  /\ (current = None ->
      download_updates_if_available env self fuel w
      = stage_update env self fuel (JStr b) wb)
  /\ fst (stage_update env self fuel (JStr b) wb) <> inr false
  /\ fs wb = fs w /\ trace wb = trace w.
Proof.
  intros Hv Hl Hb. split; [|split; [|split]].
  - intros a -> Ha. split; [|apply gt_lex_lt].
    exact (download_updates_decided env self fuel w (Some a) wa (JStr b) wb
             (PyStr.gt b a) Hv Hl (update_decision_strings a b Ha Hb)).
  - intros ->.
    exact (download_updates_decided env self fuel w None wa (JStr b) wb true
             Hv Hl (update_decision_fresh b Hb)).
  - destruct (stage_update env self fuel (JStr b) wb) as [r w'] eqn:E.
    exact (stage_update_not_false env self fuel _ _ _ _ E).
  - exact (versions_read_only env self w current wa (JStr b) wb Hv Hl).
Qed.

Lemma download_decides_lexicographically_witness :
  let wb := snd (get_latest_version Sample.env Sample.updater Sample.flash) in
  (forall a, Some "v1.0" = Some a -> a <> "" ->
     download_updates_if_available Sample.env Sample.updater 3 Sample.flash
     = (if PyStr.gt "v1.2" a
        then stage_update Sample.env Sample.updater 3 (JStr "v1.2") wb
        else (inr false, wb))
     /\ (PyStr.gt "v1.2" a = true <-> lex_lt a "v1.2"))
  /\ (Some "v1.0" = None ->
      download_updates_if_available Sample.env Sample.updater 3 Sample.flash
      = stage_update Sample.env Sample.updater 3 (JStr "v1.2") wb)
  /\ fst (stage_update Sample.env Sample.updater 3 (JStr "v1.2") wb) <> inr false
  /\ fs wb = fs Sample.flash /\ trace wb = trace Sample.flash.
Proof.
  intros wb.
  apply (download_decides_lexicographically Sample.env Sample.updater 3
           Sample.flash Sample.flash wb (Some "v1.0") "v1.2");
    [reflexivity | vm_compute; reflexivity | discriminate].
Defined.

(** C4, refuted as stated: the live directory has a ['.version'] entry that
    cannot be read (it is a directory), a latest version exists, and the
    method raises [OSError] from [open] in [get_version]; it neither updates
    nor returns. *)
Lemma unreadable_marker_raises :
  let w := mk_world
             (Vfs.Dir [("main", Vfs.Dir [(".version", Vfs.Dir []);
                                         ("a.py", Vfs.File "print(0)")])])
             [] [] in
  Vfs.read_file "main/.version" (fs w) = None
  /\ (exists wb, get_latest_version Sample.env Sample.updater w
                 = (inr (JStr "v1.2"), wb))
  /\ download_updates_if_available Sample.env Sample.updater 3 w
     = (inl OSError, w).
Proof.
  intros w. split; [reflexivity|]. split; [|vm_compute; reflexivity].
  eexists. vm_compute. reflexivity.
Qed.

(** When the decision of lines 89-92 is [False] — no release is published,
    or the installed version is not lexicographically below the latest —
    [download_updates_if_available] returns [False], and neither the file
    system nor the log of mutations has changed. *)
Theorem download_skipped_untouched (env : Env) (self : OTAUpdater)
    (fuel : nat) (w wa wb : World) (current : option string) (latest : json) :
  get_version (get_module_and_path self (main_dir self)) w = (inr current, wa) ->
  get_latest_version env self wa = (inr latest, wb) ->
  update_decision current latest = inr false ->
  download_updates_if_available env self fuel w = (inr false, wb)
  /\ fs wb = fs w /\ trace wb = trace w.
Proof.
  intros Hv Hl Hd. split.
  - exact (download_skipped env self fuel w wa wb current latest Hv Hl Hd).
  - exact (versions_read_only env self w current wa latest wb Hv Hl).
Qed.

Lemma download_skipped_untouched_witness :
  let w := snd (apply_pending_updates_if_available Sample.updater 3
                  (snd Sample.staged)) in
  let wa := snd (get_version "main" w) in
  let wb := snd (get_latest_version Sample.env Sample.updater wa) in
  download_updates_if_available Sample.env Sample.updater 3 w = (inr false, wb)
  /\ fs wb = fs w /\ trace wb = trace w.
Proof.
  intros w wa wb.
  apply (download_skipped_untouched Sample.env Sample.updater 3 w wa wb
           (Some "v1.2") (JStr "v1.2"));
    [vm_compute; reflexivity | vm_compute; reflexivity | reflexivity].
Defined.

(** When an update is decided but a ['next'] entry is already there, left
    by an earlier run, [download_updates_if_available] raises [OSError] from
    [os.mkdir] before it fetches any listing, and the file system is
    unchanged: the stale staging tree is neither reused nor cleared. *)
Theorem download_refuses_stale_staging (env : Env) (self : OTAUpdater)
    (fuel : nat) (w wa wb : World) (current : option string) (latest : json)
    (stale : Vfs.node) :
  Vfs.lookup (next_dir self) (fs w) = Some stale ->
  get_version (get_module_and_path self (main_dir self)) w = (inr current, wa) ->
  get_latest_version env self wa = (inr latest, wb) ->
  update_decision current latest = inr true ->
  download_updates_if_available env self fuel w = (inl OSError, wb)
  /\ fs wb = fs w /\ trace wb = trace w.
Proof.
  intros Hst Hv Hl Hd.
  destruct (versions_read_only env self w current wa latest wb Hv Hl) as [Hf Ht].
  split; [|now split].
  unfold download_updates_if_available, begin_staging.
  assert (Hb : begin_staging env self w = (inl OSError, wb)).
  { unfold begin_staging.
    rewrite (bind_ret _ _ _ _ _ Hv), (bind_ret _ _ _ _ _ Hl).
    unfold bind at 1, lift. rewrite Hd.
    rewrite (bind_ret _ _ _ _ _ (path_exists_run (module_ self) wb)).
    unfold Vfs.stat. rewrite Hf.
    rewrite next_dir_eq in Hst.
    destruct (lookup_parent _ _ _ _ Hst) as (esm & Hm & _). rewrite Hm.
    cbn [negb when]. unfold bind at 1, ret at 1.
    unfold bind, os_mkdir, fs_do. cbn [apply_op]. unfold Vfs.mkdir.
    fold (next_dir self). rewrite next_dir_eq, Hf, Hst. reflexivity. }
  unfold begin_staging in Hb. now rewrite (bind_raise _ _ _ _ _ Hb).
Qed.

Lemma download_refuses_stale_staging_witness :
  let w := snd Sample.interrupted in
  let wa := snd (get_version "main" w) in
  let wb := snd (get_latest_version Sample.env Sample.updater wa) in
  download_updates_if_available Sample.env Sample.updater 3 w = (inl OSError, wb)
  /\ fs wb = fs w /\ trace wb = trace w.
Proof.
  intros w wa wb.
  apply (download_refuses_stale_staging Sample.env Sample.updater 3 w wa wb
           (Some "v1.0") (JStr "v1.2")
           (Vfs.Dir [(".version", Vfs.File "v0.9"); ("a.py", Vfs.File "")]));
    [vm_compute; reflexivity | vm_compute; reflexivity
    | vm_compute; reflexivity | reflexivity].
Defined.

(** The round trip of [download_file]: when the file can be created at
    [path] and the GET and the read of its body succeed, then, if the body
    is well-formed UTF-8, the method returns and the file at [path] holds
    exactly the body, whatever it held before, the two mutations being the
    creation and one write; if the body is not well-formed UTF-8 (a binary
    file), [response.text] raises [UnicodeError], nothing is written and
    the file is left created and empty. *)
Theorem download_file_round_trip (env : Env) (url path : string) (w : World)
    (n1 : Vfs.node) (resp : Response) (w2 : World) (body : string)
    (resp' : Response) (w3 : World) :
  Vfs.create path (fs w) = Some n1 ->
  get env url (mk_world n1 (trace w ++ [(OpOpenW path, n1)]) (socks w))
  = (inr resp, w2) ->
  content resp w2 = (inr body, resp', w3) ->
  (PyStr.utf8_valid body = true ->
   exists n2,
     download_file env url path w
     = (inr tt,
        mk_world n2 (trace w ++ [(OpOpenW path, n1); (OpWrite path body, n2)])
                 (socks w3))
     /\ Vfs.read_file path n2 = Some body)
  /\ (PyStr.utf8_valid body = false ->
      download_file env url path w
      = (inl UnicodeError,
         mk_world n1 (trace w ++ [(OpOpenW path, n1)]) (socks w3))
      /\ Vfs.read_file path n1 = Some "").
Proof.
  intros Hc Hget Hcontent.
  destruct (grows_nothing _ _ (g_request _ _ _ _ _ _ _ _ _ _ Hget)) as [F2 T2].
  destruct (grows_nothing _ _ (g_content _ _ _ _ _ _ Hcontent)) as [F3 T3].
  cbn [fs trace] in F2, T2.
  destruct (create_then_append path (fs w) n1 Hc body) as (n2 & Happ & Hread & Hempty).
  assert (Ho : open_w path w
               = (inr path, mk_world n1 (trace w ++ [(OpOpenW path, n1)]) (socks w))).
  { unfold open_w. rewrite (bind_ret _ _ _ _ _ (fs_do_run (OpOpenW path) w n1 Hc)).
    reflexivity. }
  destruct (request_response_fresh env _ _ _ _ _ _ _ _ Hget) as [Hcached _].
  destruct (content_returns _ _ _ _ _ Hcontent) as [_ Hraw].
  split; intros Hutf.
  - exists n2. split; [|exact Hread].
    unfold download_file. rewrite (bind_ret _ _ _ _ _ Ho).
    unfold write_response. rewrite Hget.
    unfold text. rewrite Hcontent, Hutf.
    unfold file_write, fs_do. cbn [apply_op]. rewrite F3, F2, Happ.
    unfold Response_close. rewrite (Hraw Hcached).
    rewrite T3, T2, <- app_assoc. reflexivity.
  - split; [|exact Hempty].
    unfold download_file. rewrite (bind_ret _ _ _ _ _ Ho).
    unfold write_response. rewrite Hget.
    unfold text. rewrite Hcontent, Hutf.
    unfold Response_close. rewrite (Hraw Hcached).
    destruct w3 as [f3 t3 s3]. cbn [fs trace socks] in F3, T3 |- *.
    rewrite F3, T3, F2, T2. reflexivity.
Qed.

Lemma download_file_round_trip_witness :
  let url := "https://raw.example.com/u/r/v1.2/main/a.py" in
  let n1 := Vfs.Dir [("boot.py", Vfs.File "import main");
                     ("main", Vfs.Dir [(".version", Vfs.File "v1.0");
                                       ("a.py", Vfs.File "")])] in
  let w1 := mk_world n1 (trace Sample.flash ++ [(OpOpenW "main/a.py", n1)])
                     (socks Sample.flash) in
  let w3 := snd (content (mk_response (Some 0) None 200 "OK")
                         (snd (get Sample.env url w1))) in
  exists n2,
    download_file Sample.env url "main/a.py" Sample.flash
    = (inr tt,
       mk_world n2 (trace Sample.flash
                    ++ [(OpOpenW "main/a.py", n1); (OpWrite "main/a.py" "print(1)", n2)])
                (socks w3))
    /\ Vfs.read_file "main/a.py" n2 = Some "print(1)".
Proof.
  intros url n1 w1 w3.
  refine (proj1 (download_file_round_trip Sample.env url "main/a.py" Sample.flash n1
                   (mk_response (Some 0) None 200 "OK") (snd (get Sample.env url w1))
                   "print(1)" (mk_response None (Some "print(1)") 200 "OK") w3
                   _ _ _) _);
    [reflexivity | vm_compute; reflexivity | vm_compute; reflexivity | reflexivity].
Defined.

(** When the GET in [download_file] raises, whatever the exception, the
    method raises [NameError] in its place ([response] is unbound in the
    [finally] block), and the file at [path] is left created and empty: any
    earlier content is lost. *)
Theorem download_file_fetch_fails (env : Env) (url path : string) (w : World)
    (n1 : Vfs.node) (e : exn) (w2 : World) :
  Vfs.create path (fs w) = Some n1 ->
  get env url (mk_world n1 (trace w ++ [(OpOpenW path, n1)]) (socks w))
  = (inl e, w2) ->
  download_file env url path w = (inl NameError, w2)
  /\ Vfs.read_file path (fs w2) = Some ""
  /\ trace w2 = trace w ++ [(OpOpenW path, n1)].
Proof.
  intros Hc Hget.
  destruct (grows_nothing _ _ (g_request _ _ _ _ _ _ _ _ _ _ Hget)) as [F2 T2].
  cbn [fs trace] in F2, T2.
  destruct (create_then_append path (fs w) n1 Hc "") as (_ & _ & _ & Hread).
  split; [|split; [now rewrite F2 | exact T2]].
  unfold download_file.
  assert (Ho : open_w path w
               = (inr path, mk_world n1 (trace w ++ [(OpOpenW path, n1)]) (socks w))).
  { unfold open_w. rewrite (bind_ret _ _ _ _ _ (fs_do_run (OpOpenW path) w n1 Hc)).
    reflexivity. }
  rewrite (bind_ret _ _ _ _ _ Ho). unfold write_response. now rewrite Hget.
Qed.

Lemma download_file_fetch_fails_witness :
  let url := "https://down.example.com/u/r/v1.2/main/a.py" in
  let n1 := Vfs.Dir [("boot.py", Vfs.File "import main");
                     ("main", Vfs.Dir [(".version", Vfs.File "v1.0");
                                       ("a.py", Vfs.File "")])] in
  let w2 := mk_world n1 (trace Sample.flash ++ [(OpOpenW "main/a.py", n1)])
                     (socks Sample.flash) in
  download_file Sample.env url "main/a.py" Sample.flash = (inl NameError, w2)
  /\ Vfs.read_file "main/a.py" (fs w2) = Some ""
  /\ trace w2 = trace Sample.flash ++ [(OpOpenW "main/a.py", n1)].
Proof.
  intros url n1 w2.
  apply (download_file_fetch_fails Sample.env url "main/a.py" Sample.flash n1
           OSError w2); reflexivity.
Defined.

(* ------------------------------------------------------------------ *)
(** ** From staging to the installed version *)
(* ------------------------------------------------------------------ *)

Section EndToEnd.

Variable env : Env.
Variable self : OTAUpdater.

Lemma open_w_inv p w f w' :
  open_w p w = (inr f, w') ->
  f = p /\ Vfs.create p (fs w) = Some (fs w').
Proof.
  intros H. split; [exact (open_w_returns _ _ _ _ H)|].
  unfold open_w, bind, fs_do, ret in H. cbn [apply_op] in H.
  destruct (Vfs.create p (fs w)) as [n|]; [|discriminate].
  now injection H as _ <-.
Qed.

Lemma file_write_inv f data w w' :
  file_write f data w = (inr tt, w') ->
  Vfs.append f data (fs w) = Some (fs w').
Proof.
  unfold file_write, fs_do. cbn [apply_op].
  destruct (Vfs.append f data (fs w)) as [n|]; [|discriminate].
  now intros [= <-].
Qed.

(** What a run of [download_updates_if_available] that returns [True] went
    through. *)
Lemma download_returns_true fuel w w1 :
  download_updates_if_available env self fuel w = (inr true, w1) ->
  exists current v wa wb,
    get_version (get_module_and_path self (main_dir self)) w = (inr current, wa)
    /\ get_latest_version env self wa = (inr (JStr v), wb)
    /\ Vfs.read_file (get_module_and_path self "next/.version") (fs w1) = Some v.
Proof.
  unfold download_updates_if_available. intros H.
  destruct (bind_inv _ _ _ _ _ H) as [(e & _ & He)|(staged & w2 & Hb & Hk)];
    [discriminate|]. clear H.
  destruct staged as [latest|]; [|discriminate].
  destruct (bind_inv _ _ _ _ _ Hk) as [(e & _ & He)|([] & w3 & _ & Hm)];
    [discriminate|]. clear Hk.
  destruct (bind_inv _ _ _ _ _ Hm) as [(e & _ & He)|([] & w4 & Hw & Hr)];
    [discriminate|]. clear Hm.
  injection Hr as <-.
  (* the latest version *)
  unfold begin_staging in Hb.
  destruct (bind_inv _ _ _ _ _ Hb) as [(e & _ & He)|(cur & wa & Hcur & Hb1)];
    [discriminate|]. clear Hb.
  destruct (bind_inv _ _ _ _ _ Hb1) as [(e & _ & He)|(lat & wb & Hlat & Hb2)];
    [discriminate|]. clear Hb1.
  assert (Hsame : lat = latest).
  { destruct (bind_inv _ _ _ _ _ Hb2) as [(e & _ & He)|(go & wc & _ & Hb3)];
      [discriminate|].
    destruct go; [|discriminate].
    destruct (bind_inv _ _ _ _ _ Hb3) as [(e & _ & He)|(x1 & wd & _ & Hb4)];
      [discriminate|].
    destruct (bind_inv _ _ _ _ _ Hb4) as [(e & _ & He)|(x2 & we & _ & Hb5)];
      [discriminate|].
    destruct (bind_inv _ _ _ _ _ Hb5) as [(e & _ & He)|(x3 & wf & _ & Hb6)];
      [discriminate|].
    now injection Hb6 as -> _. }
  subst lat.
  (* the marker *)
  unfold write_marker in Hw.
  destruct (bind_inv _ _ _ _ _ Hw) as [(e & _ & He)|(f & w5 & Ho & Hw1)];
    [discriminate|]. clear Hw.
  destruct (open_w_inv _ _ _ _ Ho) as [-> Hc].
  destruct (bind_inv _ _ _ _ _ Hw1) as [(e & _ & He)|(v & w6 & Hv & Hw2)];
    [discriminate|]. clear Hw1.
  unfold lift in Hv. destruct latest; try discriminate. injection Hv as <- <-.
  pose proof (file_write_inv _ _ _ _ Hw2) as Ha.
  destruct (create_then_append _ _ _ Hc s) as (n2 & Hn2 & Hread & _).
  rewrite Hn2 in Ha. injection Ha as ->.
  exists cur, s, wa, wb. split; [exact Hcur | split; [exact Hlat | exact Hread]].
Qed.

End EndToEnd.

(** The core of the promotion, with the live tree alone required to be
    well formed. *)
Lemma apply_promotes_core (self : OTAUpdater) (fuel : nat)
    (w : World) (es : list (string * Vfs.node)) (v : string) :
  (forall les, Vfs.lookup (live_dir self) (fs w) = Some (Vfs.Dir les) ->
               Vfs.wf (Vfs.Dir les) = true) ->
  Vfs.valid_name (main_dir self) = true ->
  main_dir self <> "next" ->
  Vfs.lookup (next_dir self) (fs w) = Some (Vfs.Dir es) ->
  Vfs.find ".version" es = Some (Vfs.File v) ->
  (forall data, Vfs.lookup (live_dir self) (fs w) <> Some (Vfs.File data)) ->
  (forall n, Vfs.lookup (live_dir self) (fs w) = Some n -> Vfs.depth n <= fuel) ->
  exists w',
    apply_pending_updates_if_available self fuel w = (inr tt, w')
    /\ Vfs.lookup (live_dir self) (fs w') = Some (Vfs.Dir es)
    /\ Vfs.lookup (next_dir self) (fs w') = None
    /\ get_version (get_module_and_path self (main_dir self)) w'
       = (inr (Some v), w')
    /\ (forall q, apart (next_dir self) q = true ->
                  apart (live_dir self) q = true ->
                  Vfs.lookup q (fs w') = Vfs.lookup q (fs w))
    /\ exists tr,
         trace w'
         = trace w ++ tr
           ++ [(OpRename (get_module_and_path self "next")
                         (get_module_and_path self (main_dir self)), fs w')]
         /\ map fst tr
            = match Vfs.lookup (live_dir self) (fs w) with
              | Some n => postorder (get_module_and_path self (main_dir self)) n
              | None => []
              end.
Proof.
  intros Hwf Hvalid Hnext Hl Hmark Hnofile Hdepth.
  set (live := get_module_and_path self (main_dir self)).
  set (next := get_module_and_path self "next").
  assert (Hlive : live_dir self = Vfs.split_path (module_ self) ++ [main_dir self])
    by now apply live_dir_eq.
  assert (Hap : apart (live_dir self) (next_dir self) = true).
  { rewrite Hlive, next_dir_eq. now apply apart_siblings. }
  (* the removal of the live tree *)
  assert (Hrm : exists fs1 tr,
             bind (path_exists live) (fun e => when e (rmtree fuel live)) w
             = (inr tt, mk_world fs1 (trace w ++ tr) (socks w))
             /\ Vfs.lookup (live_dir self) fs1 = None
             /\ (forall q, apart (live_dir self) q = true ->
                           Vfs.lookup q fs1 = Vfs.lookup q (fs w))
             /\ map fst tr
                = match Vfs.lookup (live_dir self) (fs w) with
                  | Some n => postorder live n
                  | None => []
                  end).
  { rewrite (bind_ret _ _ _ _ _ (path_exists_run live w)).
    unfold Vfs.stat. change (Vfs.split_path live) with (live_dir self).
    destruct (Vfs.lookup (live_dir self) (fs w)) as [[data|les]|] eqn:El.
    - exfalso. now apply (Hnofile data).
    - assert (Hne : Vfs.split_path live <> []).
      { change (Vfs.split_path live) with (live_dir self). rewrite Hlive.
        destruct (Vfs.split_path (module_ self)); discriminate. }
      destruct (rmtree_run fuel live w les Hne El
                  (Hwf _ eq_refl) (Hdepth _ eq_refl))
        as (fs1 & tr & Hfs1 & Hrun & Htr).
      exists fs1, tr. split; [exact Hrun|].
      split; [exact (lookup_set_at_same _ _ _ _ Hfs1)|].
      split; [|exact Htr].
      intros q Hq. exact (lookup_set_at_apart _ _ _ _ _ Hfs1 Hq).
    - exists (fs w), []. cbn [when]. unfold ret. rewrite app_nil_r.
      split; [now destruct w|]. split; [exact El|]. split; [auto | reflexivity]. }
  destruct Hrm as (fs1 & tr & Hrun1 & Hgone1 & Hframe1 & Htr).
  (* the rename *)
  assert (Hl1 : Vfs.lookup (next_dir self) fs1 = Some (Vfs.Dir es))
    by (rewrite (Hframe1 _ Hap); exact Hl).
  destruct (set_at_present (next_dir self) (Vfs.Dir es) None fs1
              (next_dir_nonempty self) Hl1) as [fs2 Hfs2].
  assert (Hgone2 : Vfs.lookup (live_dir self) fs2 = None).
  { rewrite (lookup_set_at_apart _ _ _ _ _ Hfs2); [exact Hgone1|].
    now rewrite apart_sym. }
  assert (Hparent : exists esm, Vfs.lookup (Vfs.split_path (module_ self)) fs2
                                = Some (Vfs.Dir esm)).
  { rewrite next_dir_eq in Hl1, Hfs2.
    destruct (lookup_parent _ _ _ _ Hl1) as (esm & Hm & _).
    destruct (set_at_in_dir _ "next" None _ _ Hm) as (r' & Hr' & Hlr').
    rewrite Hfs2 in Hr'. injection Hr' as <-. eauto. }
  destruct Hparent as [esm Hesm].
  destruct (set_at_in_dir _ (main_dir self) (Some (Vfs.Dir es)) _ _ Hesm)
    as (fs3 & Hfs3 & _).
  rewrite <- Hlive in Hfs3.
  assert (Hren : Vfs.rename next live fs1 = Some fs3).
  { unfold Vfs.rename.
    change (Vfs.split_path live) with (live_dir self).
    change (Vfs.split_path next) with (next_dir self).
    now rewrite Hl1, Hfs2, Hgone2. }
  assert (Hl3 : Vfs.lookup (live_dir self) fs3 = Some (Vfs.Dir es))
    by exact (lookup_set_at_same _ _ _ _ Hfs3).
  exists (mk_world fs3 ((trace w ++ tr) ++ [(OpRename next live, fs3)]) (socks w)).
  cbn [fs trace]. split.
  { unfold apply_pending_updates_if_available.
    destruct (staging_found self w es Hl) as [H1 H2].
    rewrite (bind_ret _ _ _ _ _ H1). rewrite (bind_ret _ _ _ _ _ H2).
    rewrite (bind_ret _ _ _ _ _ (os_listdir_run _ w es Hl)).
    rewrite mem_listed by reflexivity. rewrite mem_find, Hmark.
    rewrite (bind_ret _ _ _ _ _ (get_version_run _ w es v Hl Hmark)).
    fold live. fold next.
    destruct (bind_inv _ _ _ _ _ Hrun1) as [(e & _ & He)|(a & w1 & Ha & Hb)];
      [discriminate|].
    rewrite (bind_ret _ _ _ _ _ Ha). rewrite (bind_ret _ _ _ _ _ Hb).
    unfold os_rename, fs_do. cbn [fs trace socks apply_op].
    rewrite Hren. reflexivity. }
  split; [exact Hl3|]. split.
  { rewrite (lookup_set_at_apart _ _ _ _ _ Hfs3 Hap).
    exact (lookup_set_at_same _ _ _ _ Hfs2). }
  split.
  { apply get_version_run with es; [exact Hl3 | exact Hmark]. }
  split.
  { intros q Hq1 Hq2.
    rewrite (lookup_set_at_apart _ _ _ _ _ Hfs3 Hq2).
    rewrite (lookup_set_at_apart _ _ _ _ _ Hfs2 Hq1). now apply Hframe1. }
  exists tr. split; [now rewrite <- app_assoc | exact Htr].
Qed.
(** When [download_updates_if_available] returns [True], the staging marker
    holds exactly the tag that [get_latest_version] returned in that run,
    that is, in the state [get_version] left. *)
Theorem staged_marker_is_latest (env : Env) (self : OTAUpdater) (fuel : nat)
    (w w1 : World) :
  download_updates_if_available env self fuel w = (inr true, w1) ->
  exists current v wa wb,
    get_version (get_module_and_path self (main_dir self)) w = (inr current, wa)
    /\ get_latest_version env self wa = (inr (JStr v), wb)
    /\ Vfs.read_file (get_module_and_path self "next/.version") (fs w1) = Some v.
Proof. exact (download_returns_true env self fuel w w1). Qed.

Lemma staged_marker_is_latest_witness :
  exists current v wa wb,
    get_version (get_module_and_path Sample.updater (main_dir Sample.updater))
                Sample.flash = (inr current, wa)
    /\ get_latest_version Sample.env Sample.updater wa = (inr (JStr v), wb)
    /\ Vfs.read_file (get_module_and_path Sample.updater "next/.version")
                     (fs (snd Sample.staged)) = Some v.
Proof.
  apply (staged_marker_is_latest Sample.env Sample.updater 3 Sample.flash
           (snd Sample.staged)).
  vm_compute. reflexivity.
Defined.

(** Staging composed with applying: after a run of
    [download_updates_if_available] that returns [True], all of whose
    operations were at paths without ['.'] and ['..'] components, from a
    state whose live tree is absent or a well-formed directory,
    [apply_pending_updates_if_available] returns, the staging directory is
    gone, and [get_version] on the live tree returns the tag that
    [get_latest_version] returned during staging.  [main_dir] is a single
    name other than ['next']. *)
Theorem stage_then_apply (env : Env) (self : OTAUpdater) (fuel fuel' : nat)
    (w w1 : World) :
  Vfs.valid_name (main_dir self) = true ->
  main_dir self <> "next" ->
  (forall data, Vfs.lookup (live_dir self) (fs w) <> Some (Vfs.File data)) ->
  (forall les, Vfs.lookup (live_dir self) (fs w) = Some (Vfs.Dir les) ->
               Vfs.wf (Vfs.Dir les) = true /\ Vfs.depth (Vfs.Dir les) <= fuel') ->
  download_updates_if_available env self fuel w = (inr true, w1) ->
  (forall o n, In (o, n) (logged w w1) -> Vfs.plain (op_path o) = true) ->
  exists current v wa wb w2,
    get_version (get_module_and_path self (main_dir self)) w = (inr current, wa)
    /\ get_latest_version env self wa = (inr (JStr v), wb)
    /\ apply_pending_updates_if_available self fuel' w1 = (inr tt, w2)
    /\ get_version (get_module_and_path self (main_dir self)) w2
       = (inr (Some v), w2)
    /\ Vfs.lookup (next_dir self) (fs w2) = None.
Proof.
  intros Hvalid Hnext Hnofile Hlive Hrun Hplain.
  destruct (download_returns_true env self fuel w w1 Hrun)
    as (cur & v & wa & wb & Hcur & Hlat & Hread).
  (* the live tree is what it was *)
  assert (Hap : apart (next_dir self) (live_dir self) = true).
  { rewrite (live_dir_eq self Hvalid), next_dir_eq.
    apply apart_siblings. congruence. }
  destruct (grows_frame (Vfs.lookup (live_dir self)) (download_op self) w w1
              (fun o a b => download_frame self _ o a b Hap)
              (download_plain_grows env self fuel _ _ _ Hrun Hplain)) as [Hsame _].
  (* the staging directory and its marker *)
  unfold Vfs.read_file in Hread.
  change (Vfs.split_path (get_module_and_path self "next/.version"))
    with (marker_path self) in Hread.
  rewrite marker_path_eq in Hread.
  destruct (Vfs.lookup (next_dir self ++ [".version"]) (fs w1)) as [[d|sub]|] eqn:El;
    try discriminate.
  injection Hread as ->.
  destruct (lookup_parent _ _ _ _ El) as (es & Hes & Hfind).
  destruct (apply_promotes_core self fuel' w1 es v) as (w2 & Happ & _ & Hgone & Hver & _);
    try assumption.
  - intros les H. rewrite Hsame in H. now apply Hlive.
  - intros data H. rewrite Hsame in H. now apply (Hnofile data).
  - intros n H. rewrite Hsame in H. destruct n as [data|les].
    + exfalso. now apply (Hnofile data).
    + now apply Hlive.
  - exists cur, v, wa, wb, w2. repeat split; assumption.
Qed.

Lemma stage_then_apply_witness :
  exists current v wa wb w2,
    get_version (get_module_and_path Sample.updater (main_dir Sample.updater))
                Sample.flash = (inr current, wa)
    /\ get_latest_version Sample.env Sample.updater wa = (inr (JStr v), wb)
    /\ apply_pending_updates_if_available Sample.updater 2 (snd Sample.staged)
       = (inr tt, w2)
    /\ get_version (get_module_and_path Sample.updater (main_dir Sample.updater)) w2
       = (inr (Some v), w2)
    /\ Vfs.lookup (next_dir Sample.updater) (fs w2) = None.
Proof.
  apply (stage_then_apply Sample.env Sample.updater 3 2 Sample.flash
           (snd Sample.staged));
    [reflexivity | discriminate | intros data; vm_compute; discriminate
    | intros les H; vm_compute in H; injection H as <-; vm_compute; split;
      [reflexivity | lia]
    | vm_compute; reflexivity | ].
  intros o n Hin. vm_compute in Hin.
  repeat (destruct Hin as [Hin|Hin]; [injection Hin as <- _; reflexivity|]).
  destruct Hin.
Defined.

(* ------------------------------------------------------------------ *)
(** ** Construction of the updater *)
(* ------------------------------------------------------------------ *)

Section InitFacts.

Lemma rstrip_char_app c a b :
  PyStr.rstrip_char c (a ++ b)
  = match PyStr.rstrip_char c b with
    | "" => PyStr.rstrip_char c a
    | String x r => (a ++ String x r)%string
    end.
Proof.
  induction a as [|y a IH]; cbn [append PyStr.rstrip_char].
  - now destruct (PyStr.rstrip_char c b).
  - rewrite IH. destruct (PyStr.rstrip_char c b) as [|x r]; [reflexivity|].
    now destruct a.
Qed.

Lemma rstrip_char_no_trailing c s x :
  PyStr.rstrip_char c s <> (x ++ String c "")%string.
Proof.
  revert x; induction s as [|a s IH]; intros x; cbn [PyStr.rstrip_char].
  - destruct x; discriminate.
  - destruct (PyStr.rstrip_char c s) as [|y r] eqn:E.
    + destruct (Ascii.eqb a c) eqn:Eac; [destruct x; discriminate|].
      destruct x as [|b x]; cbn.
      * intros [= ->]. now rewrite Ascii.eqb_refl in Eac.
      * intros [= _ H]. destruct x; discriminate.
    + destruct x as [|b x]; cbn; [discriminate|].
      intros [= _ H]. exact (IH x H).
Qed.

End InitFacts.

(** [OTAUpdater.__init__] on a repository URL [https://github.com<rest>]:
    trailing slashes are dropped and the host prefix is rewritten to the API
    prefix, the rest of the URL being kept as it is (provided the host
    prefix does not occur in it again); the module path is stored without
    trailing slashes and never ends in a slash. *)
Theorem init_rewrites_repository (rest module main : string) :
  (forall i, ~ occurs_at "https://github.com" (PyStr.rstrip_char "/" rest) i) ->
  let self := OTAUpdater_init ("https://github.com" ++ rest) module main in
  github_repo self
  = ("https://api.github.com/repos" ++ PyStr.rstrip_char "/" rest)%string
  /\ main_dir self = main
  /\ module_ self = PyStr.rstrip_char "/" module
  /\ forall x, module_ self <> (x ++ "/")%string.
Proof.
  intros Hno self. subst self. unfold OTAUpdater_init.
  cbn [github_repo main_dir module_].
  split; [|split; [reflexivity | split; [reflexivity|]]].
  - rewrite rstrip_char_app.
    assert (E : PyStr.replace ("https://github.com" ++ PyStr.rstrip_char "/" rest)
                  "https://github.com" "https://api.github.com/repos"
                = ("https://api.github.com/repos" ++ PyStr.rstrip_char "/" rest)%string).
    { rewrite replace_nonempty by discriminate.
      rewrite replace_from_match by discriminate.
      now rewrite (replace_from_no_occurrence _ _ _ Hno). }
    destruct (PyStr.rstrip_char "/" rest) as [|x r] eqn:Er.
    + exact E.
    + exact E.
  - intros x. apply rstrip_char_no_trailing.
Qed.

Lemma init_rewrites_repository_witness :
  let self := OTAUpdater_init ("https://github.com" ++ "/u/r//") "app/" "main" in
  github_repo self
  = ("https://api.github.com/repos" ++ PyStr.rstrip_char "/" "/u/r//")%string
  /\ main_dir self = "main"
  /\ module_ self = PyStr.rstrip_char "/" "app/"
  /\ forall x, module_ self <> (x ++ "/")%string.
Proof.
  apply (init_rewrites_repository "/u/r//" "app/" "main").
  intros i (a & b & H & _). vm_compute in H.
  repeat (destruct a as [|? a]; [discriminate|]; injection H as _ H).
  destruct a; discriminate.
Defined.
